(** * session-pysogs: the room permission engine, message lifecycle,
      scheduled futures and padding codec

    A shallow embedding of [sogs/utils.py], [sogs/model/room.py] and
    [sogs/cleanup.py].  Python objects become records, the SQL tables become
    finite maps and lists of rows, and every method that touches the database
    or the [Room] instance is a computation in a small state-and-exception
    monad.  Timestamps are Python floats in the source; the code only adds,
    subtracts and compares them, so they are integers here (a fixed unit of
    time). *)

From Stdlib Require Import ZArith Strings.Byte.
From stdpp Require Import base option list strings gmap.

Local Open Scope Z_scope.

(** ** Python values, as far as the padding codec needs them *)

Module py.

(** Indexing a [bytes] object yields an [int]; a [bytes] literal is a
    [bytes] object.  [==] between the two is [False]. *)
Inductive value :=
| Int (n : Z)
| Bytes (b : list byte).

#[global] Instance byte_eq_dec : EqDecision byte := Byte.byte_eq_dec.

Definition bytes_eqb (a b : list byte) : bool :=
  bool_decide (a = b).

Definition eqb (x y : value) : bool :=
  match x, y with
  | Int a, Int b => Z.eqb a b
  | Bytes a, Bytes b => bytes_eqb a b
  | _, _ => false
  end.

(** [x in (t0, t1, ...)] *)
Definition contains (x : value) (t : list value) : bool :=
  existsb (eqb x) t.

Definition int_of_byte (b : byte) : Z := Z.of_N (Byte.to_N b).

(** [data[-1]], for non-empty [data] *)
Definition index_last (data : list byte) : option value :=
  Int ∘ int_of_byte <$> last data.

(** [data.rstrip(c)] for a one-byte [c] *)
Fixpoint rstrip (c : byte) (data : list byte) : list byte :=
  match data with
  | [] => []
  | b :: rest =>
      match rstrip c rest with
      | [] => if Byte.eqb b c then [] else [b]
      | r => b :: r
      end
  end.

(** [data[:-1]] *)
Definition drop_last (data : list byte) : list byte :=
  take (length data - 1)%nat data.

(** truth value of [None], [0] and other numbers *)
Definition truthy_num (x : option Z) : bool :=
  match x with
  | None => false
  | Some n => negb (Z.eqb n 0)
  end.

End py.

(** ** sogs/utils.py *)

Module utils.

Definition SIGNATURE_SIZE : nat := 64.

Definition remove_session_message_padding (data : list byte) : list byte :=
  match py.index_last data with
  | Some final =>
      if py.contains final [py.Bytes [x00]; py.Bytes [x80]] then
        let stripped_data := py.rstrip x00 data in
        match py.index_last stripped_data with
        | Some final' =>
            if py.eqb final' (py.Int 128)
            then py.drop_last stripped_data
            else data
        | None => data
        end
      else data
  | None => data
  end.

Definition add_session_message_padding (data : list byte) (length_ : nat)
  : list byte :=
  if decide (length data < length_)%nat
  then data ++ [x80] ++ replicate (length_ - length data) x00
  else data.

End utils.

(** ** The data model: tables, Python objects and the monad *)

Module model.

(** sogs/model/exc.py, and the Python and database errors that the modelled
    paths can run into *)
Inductive exc :=
| NoSuchRoom | NoSuchFile | NoSuchUser | NoSuchPost | AlreadyExists
| BadPermission | PostRejected | PostRateLimited | InvalidData
| TypeError | KeyError | ValueError | IntegrityError.

(** [PostRateLimited] is a subclass of [PostRejected] *)
Definition is_PostRejected (e : exc) : bool :=
  match e with
  | PostRejected | PostRateLimited => true
  | _ => false
  end.

Inductive result (A : Type) :=
| Ok (a : A)
| Raise (e : exc).
Arguments Ok {A} a.
Arguments Raise {A} e.

(** *** Rows *)

Record User := {
  user_id : Z;
  session_id : string;
  banned : bool;
  global_moderator : bool;
  global_admin : bool;
  visible_mod : bool
}.

Record room_row := {
  r_token : string;
  r_name : string;
  r_description : option string;
  r_image : option Z;
  r_created : Z;
  r_message_sequence : Z;
  r_info_updates : Z;
  r_read : bool;
  r_accessible : bool;
  r_write : bool;
  r_upload : bool
}.

(** user_permission_overrides; [None] is SQL NULL *)
Record override := {
  o_read : option bool;
  o_accessible : option bool;
  o_write : option bool;
  o_upload : option bool;
  o_banned : option bool;
  o_moderator : option bool;
  o_admin : option bool;
  o_visible_mod : option bool
}.

Definition empty_override : override :=
  {| o_read := None; o_accessible := None; o_write := None; o_upload := None;
     o_banned := None; o_moderator := None; o_admin := None;
     o_visible_mod := None |}.

Record perm_future := {
  pf_room : Z; pf_user : Z; pf_at : Z;
  pf_read : option bool; pf_write : option bool; pf_upload : option bool
}.

Record ban_future := {
  bf_room : Z; bf_user : Z; bf_at : Z; bf_banned : bool
}.

Record message := {
  m_id : Z;
  m_room : Z;
  m_user : Z;
  m_data : option (list byte);
  m_data_size : nat;
  m_signature : option (list byte);
  m_seqno : Z;
  m_posted : Z;
  m_edited : option Z;
  m_filtered : bool;
  m_whisper : option Z;
  m_whisper_mods : bool
}.

#[global] Instance message_eq_dec : EqDecision message.
Proof. solve_decision. Defined.

Record File := {
  f_id : Z;
  f_room : Z;
  f_uploader : Z;
  f_size : nat;
  f_uploaded : Z;
  f_expiry : option Z;
  f_filename : option string;
  f_path : string;
  f_message : option Z
}.

Record DB := {
  rooms : gmap Z room_row;
  users : list User;
  user_permission_overrides : gmap (Z * Z) override;
  user_permission_futures : list perm_future;
  user_ban_futures : list ban_future;
  messages : list message;
  files : list File;
  message_history : list (Z * Z);       (* message, replaced *)
  room_users : list (Z * Z * Z);        (* room, user, last_active *)
  needs_blinding : list Z;
  next_message_id : Z;
  next_user_id : Z
}.

Definition set_rooms (v : gmap Z room_row) (d : DB) : DB :=
  {| rooms := v; users := users d;
     user_permission_overrides := user_permission_overrides d;
     user_permission_futures := user_permission_futures d;
     user_ban_futures := user_ban_futures d; messages := messages d;
     files := files d; message_history := message_history d;
     room_users := room_users d; needs_blinding := needs_blinding d;
     next_message_id := next_message_id d; next_user_id := next_user_id d |}.

Definition set_users (v : list User) (n : Z) (d : DB) : DB :=
  {| rooms := rooms d; users := v;
     user_permission_overrides := user_permission_overrides d;
     user_permission_futures := user_permission_futures d;
     user_ban_futures := user_ban_futures d; messages := messages d;
     files := files d; message_history := message_history d;
     room_users := room_users d; needs_blinding := needs_blinding d;
     next_message_id := next_message_id d; next_user_id := n |}.

Definition set_overrides (v : gmap (Z * Z) override) (d : DB) : DB :=
  {| rooms := rooms d; users := users d;
     user_permission_overrides := v;
     user_permission_futures := user_permission_futures d;
     user_ban_futures := user_ban_futures d; messages := messages d;
     files := files d; message_history := message_history d;
     room_users := room_users d; needs_blinding := needs_blinding d;
     next_message_id := next_message_id d; next_user_id := next_user_id d |}.

Definition set_permission_futures (v : list perm_future) (d : DB) : DB :=
  {| rooms := rooms d; users := users d;
     user_permission_overrides := user_permission_overrides d;
     user_permission_futures := v;
     user_ban_futures := user_ban_futures d; messages := messages d;
     files := files d; message_history := message_history d;
     room_users := room_users d; needs_blinding := needs_blinding d;
     next_message_id := next_message_id d; next_user_id := next_user_id d |}.

Definition set_ban_futures (v : list ban_future) (d : DB) : DB :=
  {| rooms := rooms d; users := users d;
     user_permission_overrides := user_permission_overrides d;
     user_permission_futures := user_permission_futures d;
     user_ban_futures := v; messages := messages d;
     files := files d; message_history := message_history d;
     room_users := room_users d; needs_blinding := needs_blinding d;
     next_message_id := next_message_id d; next_user_id := next_user_id d |}.

Definition set_messages (v : list message) (n : Z) (d : DB) : DB :=
  {| rooms := rooms d; users := users d;
     user_permission_overrides := user_permission_overrides d;
     user_permission_futures := user_permission_futures d;
     user_ban_futures := user_ban_futures d; messages := v;
     files := files d; message_history := message_history d;
     room_users := room_users d; needs_blinding := needs_blinding d;
     next_message_id := n; next_user_id := next_user_id d |}.

Definition set_files (v : list File) (d : DB) : DB :=
  {| rooms := rooms d; users := users d;
     user_permission_overrides := user_permission_overrides d;
     user_permission_futures := user_permission_futures d;
     user_ban_futures := user_ban_futures d; messages := messages d;
     files := v; message_history := message_history d;
     room_users := room_users d; needs_blinding := needs_blinding d;
     next_message_id := next_message_id d; next_user_id := next_user_id d |}.

Definition set_message_history (v : list (Z * Z)) (d : DB) : DB :=
  {| rooms := rooms d; users := users d;
     user_permission_overrides := user_permission_overrides d;
     user_permission_futures := user_permission_futures d;
     user_ban_futures := user_ban_futures d; messages := messages d;
     files := files d; message_history := v;
     room_users := room_users d; needs_blinding := needs_blinding d;
     next_message_id := next_message_id d; next_user_id := next_user_id d |}.

Definition set_room_users (v : list (Z * Z * Z)) (d : DB) : DB :=
  {| rooms := rooms d; users := users d;
     user_permission_overrides := user_permission_overrides d;
     user_permission_futures := user_permission_futures d;
     user_ban_futures := user_ban_futures d; messages := messages d;
     files := files d; message_history := message_history d;
     room_users := v; needs_blinding := needs_blinding d;
     next_message_id := next_message_id d; next_user_id := next_user_id d |}.

Definition set_needs_blinding (v : list Z) (d : DB) : DB :=
  {| rooms := rooms d; users := users d;
     user_permission_overrides := user_permission_overrides d;
     user_permission_futures := user_permission_futures d;
     user_ban_futures := user_ban_futures d; messages := messages d;
     files := files d; message_history := message_history d;
     room_users := room_users d; needs_blinding := v;
     next_message_id := next_message_id d; next_user_id := next_user_id d |}.

(** *** The [Room] instance *)

(** the 7 values cached per user id by [check_permission] *)
Record perm_row := {
  is_banned : bool;
  can_read : bool;
  can_access : bool;
  can_write : bool;
  can_upload : bool;
  is_mod : bool;
  is_admin : bool
}.

Record Room := {
  id : Z;
  _token : string;
  _name : string;
  _description : option string;
  _fetch_image_id : option Z;
  created : Z;
  message_sequence : Z;
  info_updates : Z;
  _default_read : bool;
  _default_accessible : bool;
  _default_write : bool;
  _default_upload : bool;
  _image : option File;
  _pinned : option (list (Z * Z * string));
  _perm_cache : gmap Z perm_row
}.

Definition set_perm_cache (c : gmap Z perm_row) (r : Room) : Room :=
  {| id := id r; _token := _token r; _name := _name r;
     _description := _description r; _fetch_image_id := _fetch_image_id r;
     created := created r; message_sequence := message_sequence r;
     info_updates := info_updates r; _default_read := _default_read r;
     _default_accessible := _default_accessible r;
     _default_write := _default_write r;
     _default_upload := _default_upload r; _image := _image r;
     _pinned := _pinned r; _perm_cache := c |}.

Definition set_image (fetch : option Z) (img : option File) (r : Room) : Room :=
  {| id := id r; _token := _token r; _name := _name r;
     _description := _description r; _fetch_image_id := fetch;
     created := created r; message_sequence := message_sequence r;
     info_updates := info_updates r; _default_read := _default_read r;
     _default_accessible := _default_accessible r;
     _default_write := _default_write r;
     _default_upload := _default_upload r; _image := img;
     _pinned := _pinned r; _perm_cache := _perm_cache r |}.

Inductive mule_message :=
| message_posted (msg_id : Z)
| message_edited (msg_id : Z).

(** What a method call can read and change: the [Room] it is called on,
    the database, the clock, the messages sent to the mule and the upload
    directory. *)
Record state := {
  self : Room;
  db : DB;
  now : Z;
  mule : list mule_message;
  disk : list string
}.

Definition set_self (r : Room) (s : state) : state :=
  {| self := r; db := db s; now := now s; mule := mule s; disk := disk s |}.
Definition set_db (d : DB) (s : state) : state :=
  {| self := self s; db := d; now := now s; mule := mule s; disk := disk s |}.
Definition set_mule (m : list mule_message) (s : state) : state :=
  {| self := self s; db := db s; now := now s; mule := m; disk := disk s |}.
Definition set_disk (l : list string) (s : state) : state :=
  {| self := self s; db := db s; now := now s; mule := mule s; disk := l |}.

(** *** State and exceptions *)

Definition M (A : Type) : Type := state -> result A * state.

#[global] Instance M_ret : MRet M := fun A a s => (Ok a, s).
#[global] Instance M_bind : MBind M := fun A B k m s =>
  match m s with
  | (Ok a, s') => k a s'
  | (Raise e, s') => (Raise e, s')
  end.

Definition raise {A} (e : exc) : M A := fun s => (Raise e, s).
Definition gets {A} (f : state -> A) : M A := fun s => (Ok (f s), s).
Definition modify (f : state -> state) : M unit := fun s => (Ok tt, f s).
Definition modify_db (f : DB -> DB) : M unit :=
  modify (fun s => set_db (f (db s)) s).
Definition modify_self (f : Room -> Room) : M unit :=
  modify (fun s => set_self (f (self s)) s).

(** Modelled from the spec: [db.transaction()] (sogs/db.py is not part of
    the sources at hand): a scoped acquisition with commit on success and
    rollback on exception.  The rollback restores the database; what the
    body did to Python objects stays. *)
Definition transaction {A} (body : M A) : M A := fun s =>
  match body s with
  | (Ok a, s') => (Ok a, s')
  | (Raise e, s') => (Raise e, set_db (db s) s')
  end.

Definition send_mule (m : mule_message) : M unit :=
  modify (fun s => set_mule (mule s ++ [m]) s).

End model.

(** ** sogs/model/room.py *)

Module room.
Import model.

(** [sogs.config] and the collaborators outside the model: the profanity
    filter (better_profanity over [utils.message_body]), the blinded-id
    lookup of the crypto layer and the file system, of which
    [unlink_fails] tells the paths on which [os.unlink] raises an error
    other than [FileNotFoundError].  [rate_limit_size] and
    [rate_limit_interval] are the module globals of room.py. *)
Record Config := {
  PROFANITY_FILTER : bool;
  PROFANITY_SILENT : bool;
  contains_profanity : list byte -> bool;
  REQUIRE_BLIND_KEYS : bool;
  find_blinded : DB -> User -> option User;
  UPLOAD_DEFAULT_EXPIRY : option Z;
  MESSAGE_HISTORY_PRUNE_THRESHOLD : Z;
  ROOM_ACTIVE_PRUNE_THRESHOLD : Z;
  rate_limit_size : Z;
  rate_limit_interval : Z;
  unlink_fails : string -> bool
}.

Definition default_config : Config :=
  {| PROFANITY_FILTER := false;
     PROFANITY_SILENT := false;
     contains_profanity := fun _ => false;
     REQUIRE_BLIND_KEYS := false;
     find_blinded := fun _ _ => None;
     UPLOAD_DEFAULT_EXPIRY := Some (15 * 86400);
     MESSAGE_HISTORY_PRUNE_THRESHOLD := 30;
     ROOM_ACTIVE_PRUNE_THRESHOLD := 60;
     rate_limit_size := 5;
     rate_limit_interval := 16;
     unlink_fails := fun _ => false |}.

(** *** Room._refresh *)

Definition room_by_token (d : DB) (t : string) : option (Z * room_row) :=
  snd <$> list_find (fun kv => r_token (snd kv) = t) (map_to_list (rooms d)).

Definition room_by_id (d : DB) (i : Z) : option (Z * room_row) :=
  pair i <$> rooms d !! i.

Definition count_given {A B C} (a : option A) (b : option B) (c : option C)
  : nat :=
  (if a is Some _ then 1 else 0) + (if b is Some _ then 1 else 0)
  + (if c is Some _ then 1 else 0).

(** [_refresh] on an instance that has been loaded before, so that
    [hasattr(self, ...)] holds for [id], [_image] and [_perm_cache]. *)
Definition _refresh (id_ : option Z) (token : option string)
    (row : option (Z * room_row)) (perms : bool) : M unit :=
  let n_args := count_given row id_ token in
  me ← gets self;
  id_ ← (if decide (n_args = 0%nat) then mret (Some (id me))
         else if decide (n_args ≠ 1%nat) then raise ValueError
         else mret id_);
  d ← gets db;
  let row :=
    match token, id_ with
    | Some t, _ => room_by_token d t
    | None, Some i => room_by_id d i
    | None, None => row
    end in
  match row with
  | None => raise NoSuchRoom
  | Some (rid, r) =>
      let keep_image :=
        match _image me with
        | Some img => bool_decide (Some (f_id img) = r_image r)
        | None => false
        end in
      modify_self (fun _ =>
        {| id := rid;
           _token := r_token r;
           _name := r_name r;
           _description := r_description r;
           _fetch_image_id := if keep_image then None else r_image r;
           created := r_created r;
           message_sequence := r_message_sequence r;
           info_updates := r_info_updates r;
           _default_read := r_read r;
           _default_accessible := r_accessible r;
           _default_write := r_write r;
           _default_upload := r_upload r;
           _image := if keep_image then _image me else None;
           _pinned := None;
           _perm_cache := if perms then ∅ else _perm_cache me |})
  end.

(** *** Room.check_permission *)

Record requirements := {
  admin : bool;
  moderator : bool;
  read : bool;
  accessible : bool;
  write : bool;
  upload : bool
}.

Definition no_requirements : requirements :=
  {| admin := false; moderator := false; read := false;
     accessible := false; write := false; upload := false |}.

(** Modelled from the spec: the [user_permissions] view of the SQL schema,
    which is not part of the sources at hand.  The row of a user in a room
    comes from the explicit override where one is set and from the room
    defaults otherwise, except banned, moderator and admin, which default
    to false. *)
Definition user_permissions (d : DB) (r u : Z) : option perm_row :=
  row ← rooms d !! r;
  let o := user_permission_overrides d !! (r, u) in
  Some {| is_banned := default false (o ≫= o_banned);
          can_read := default (r_read row) (o ≫= o_read);
          can_access := default (r_accessible row) (o ≫= o_accessible);
          can_write := default (r_write row) (o ≫= o_write);
          can_upload := default (r_upload row) (o ≫= o_upload);
          is_mod := default false (o ≫= o_moderator);
          is_admin := default false (o ≫= o_admin) |}.

(** the [if user is None ... else ...] part: the 7 values the decision is
    taken on, and the cache filled on a miss *)
Definition resolve_perms (user : option User) : M perm_row :=
  match user with
  | None =>
      me ← gets self;
      mret {| is_banned := false;
              can_read := _default_read me;
              can_access := _default_accessible me;
              can_write := _default_write me;
              can_upload := _default_upload me;
              is_mod := false;
              is_admin := false |}
  | Some u =>
      me ← gets self;
      (if decide (_perm_cache me !! user_id u = None) then
         d ← gets db;
         match user_permissions d (id me) (user_id u) with
         | None => raise TypeError    (* [bool(c) for c in None] *)
         | Some row =>
             modify_self (fun r =>
               set_perm_cache (<[user_id u := row]> (_perm_cache r)) r)
         end
       else mret tt);;
      me ← gets self;
      match _perm_cache me !! user_id u with
      | Some p => mret p
      | None => raise KeyError
      end
  end.

(** The row a call for [u] decides on: the cached one, else the row of the
    view; and the state such a call leaves behind. *)
Definition resolved_row (s : state) (u : User) : option perm_row :=
  match _perm_cache (self s) !! user_id u with
  | Some p => Some p
  | None => user_permissions (db s) (id (self s)) (user_id u)
  end.

Definition after_resolve (s : state) (u : User) : state :=
  match _perm_cache (self s) !! user_id u with
  | Some _ => s
  | None =>
      match user_permissions (db s) (id (self s)) (user_id u) with
      | Some row =>
          set_self
            (set_perm_cache (<[user_id u := row]> (_perm_cache (self s)))
               (self s)) s
      | None => s
      end
  end.

Definition decide_permission (p : perm_row) (req : requirements) : bool :=
  if is_admin p then true
  else if admin req then false
  else if is_mod p then true
  else if moderator req then false
  else
    negb (is_banned p)
    && (negb (accessible req) || can_access p || can_read p)
    && (negb (read req) || can_read p)
    && (negb (write req) || can_write p)
    && (negb (upload req) || can_upload p).

Definition check_permission (user : option User) (req : requirements)
  : M bool :=
  p ← resolve_perms user;
  mret (decide_permission p req).

Definition req_read : requirements :=
  {| admin := false; moderator := false; read := true;
     accessible := false; write := false; upload := false |}.
Definition req_accessible : requirements :=
  {| admin := false; moderator := false; read := false;
     accessible := true; write := false; upload := false |}.
Definition req_write : requirements :=
  {| admin := false; moderator := false; read := false;
     accessible := false; write := true; upload := false |}.
Definition req_upload : requirements :=
  {| admin := false; moderator := false; read := false;
     accessible := false; write := true; upload := true |}.
Definition req_moderator : requirements :=
  {| admin := false; moderator := true; read := false;
     accessible := false; write := false; upload := false |}.
Definition req_admin : requirements :=
  {| admin := true; moderator := false; read := false;
     accessible := false; write := false; upload := false |}.

Definition check_unbanned (user : option User) : M bool :=
  check_permission user no_requirements.
Definition check_read (user : option User) : M bool :=
  check_permission user req_read.
Definition check_accessible (user : option User) : M bool :=
  check_permission user req_accessible.
Definition check_write (user : option User) : M bool :=
  check_permission user req_write.
Definition check_upload (user : option User) : M bool :=
  check_permission user req_upload.
Definition check_moderator (user : option User) : M bool :=
  check_permission user req_moderator.
Definition check_admin (user : option User) : M bool :=
  check_permission user req_admin.

(** *** Messages *)

Definition set_sequence (n : Z) (r : room_row) : room_row :=
  {| r_token := r_token r; r_name := r_name r;
     r_description := r_description r; r_image := r_image r;
     r_created := r_created r; r_message_sequence := n;
     r_info_updates := r_info_updates r; r_read := r_read r;
     r_accessible := r_accessible r; r_write := r_write r;
     r_upload := r_upload r |}.

Definition bump (r : Z) (rs : gmap Z room_row) : gmap Z room_row :=
  alter (fun row => set_sequence (r_message_sequence row + 1) row) r rs.

Definition sequence_of (r : Z) (rs : gmap Z room_row) : Z :=
  default 0 (r_message_sequence <$> rs !! r).

Definition set_seqno (n : Z) (m : message) : message :=
  {| m_id := m_id m; m_room := m_room m; m_user := m_user m;
     m_data := m_data m; m_data_size := m_data_size m;
     m_signature := m_signature m; m_seqno := n; m_posted := m_posted m;
     m_edited := m_edited m; m_filtered := m_filtered m;
     m_whisper := m_whisper m; m_whisper_mods := m_whisper_mods m |}.

Definition set_content (data : option (list byte)) (size : nat)
    (sig : option (list byte)) (edited : option Z) (m : message) : message :=
  {| m_id := m_id m; m_room := m_room m; m_user := m_user m;
     m_data := data; m_data_size := size;
     m_signature := sig; m_seqno := m_seqno m; m_posted := m_posted m;
     m_edited := edited; m_filtered := m_filtered m;
     m_whisper := m_whisper m; m_whisper_mods := m_whisper_mods m |}.

(** Modelled from the spec: the triggers on the messages table (the SQL
    schema is not part of the sources at hand): every message insert, edit
    or delete stamps the row's seqno to a newly incremented room-wide
    counter.  [stamp_rows] runs one statement over the table: each row the
    statement hits is changed, its room's message_sequence is incremented
    and the new value becomes the row's seqno. *)
Fixpoint stamp_rows (hit : message -> bool) (change : message -> message)
    (rows : list message) (rs : gmap Z room_row)
  : list message * gmap Z room_row :=
  match rows with
  | [] => ([], rs)
  | m :: rest =>
      if hit m then
        let rs1 := bump (m_room m) rs in
        let m' := set_seqno (sequence_of (m_room m) rs1) (change m) in
        let '(rest', rs2) := stamp_rows hit change rest rs1 in
        (m' :: rest', rs2)
      else
        let '(rest', rs2) := stamp_rows hit change rest rs in
        (m :: rest', rs2)
  end.

Definition run_statement (hit : message -> bool)
    (change : message -> message) (d : DB) : DB :=
  let '(rows, rs) := stamp_rows hit change (messages d) (rooms d) in
  set_rooms rs (set_messages rows (next_message_id d) d).

(** [db.insert_and_get_pk("INSERT INTO messages ...", "id", ...)]; the row
    must reference an existing room. *)
Definition insert_message (r u : Z) (data : list byte) (data_size : nat)
    (signature : list byte) (filtered : bool) (whisper : option Z)
    (whisper_mods : bool) : M Z :=
  d ← gets db;
  t ← gets now;
  if decide (rooms d !! r = None) then raise IntegrityError
  else
    let rs := bump r (rooms d) in
    let msg_id := next_message_id d in
    let row :=
      {| m_id := msg_id; m_room := r; m_user := u; m_data := Some data;
         m_data_size := data_size; m_signature := Some signature;
         m_seqno := sequence_of r rs; m_posted := t; m_edited := None;
         m_filtered := filtered; m_whisper := whisper;
         m_whisper_mods := whisper_mods |} in
    modify_db (fun d =>
      set_rooms rs (set_messages (messages d ++ [row]) (msg_id + 1) d));;
    mret msg_id.

(** [UPDATE messages SET data = ..., data_size = ..., signature = ...
    WHERE id = :m] *)
Definition update_message (msg_id : Z) (data : list byte) (data_size : nat)
    (sig : list byte) : M unit :=
  modify_db (run_statement
    (fun m => bool_decide (m_id m = msg_id))
    (fun m => set_content (Some data) data_size (Some sig) (m_edited m) m)).

Definition is_live (m : message) : bool :=
  bool_decide (m_data m ≠ None).

(** Modelled from the spec: deletion through the message_details view (the
    SQL schema is not part of the sources at hand): a message is deleted by
    nulling its data, never hard-deleted, which also triggers the seqno
    bump.  A row that is already deleted is not deleted again. *)
Definition soft_delete (m : message) : message :=
  set_content None (m_data_size m) (m_signature m) (m_edited m) m.

(** [DELETE FROM message_details WHERE id IN :ids] *)
Definition delete_details_by_ids (ids : list Z) : M unit :=
  modify_db (run_statement
    (fun m => bool_decide (m_id m ∈ ids) && is_live m) soft_delete).

(** [DELETE FROM message_details WHERE room = :r AND "user" = :u] *)
Definition delete_details_by_user (r u : Z) : M unit :=
  modify_db (run_statement
    (fun m => bool_decide (m_room m = r) && bool_decide (m_user m = u)
              && is_live m) soft_delete).

(** *** Room.should_filter *)

Definition should_filter (cfg : Config) (user : User) (data : list byte)
  : M bool :=
  if PROFANITY_FILTER cfg then
    adm ← check_admin (Some user);
    if negb adm then
      if contains_profanity cfg data then
        if PROFANITY_SILENT cfg then mret true
        else raise PostRejected
      else mret false
    else mret false
  else mret false.

(** *** Room._own_files *)

Definition set_owner (msg_id : Z) (exp : option Z) (f : File) : File :=
  {| f_id := f_id f; f_room := f_room f; f_uploader := f_uploader f;
     f_size := f_size f; f_uploaded := f_uploaded f; f_expiry := exp;
     f_filename := f_filename f; f_path := f_path f;
     f_message := Some msg_id |}.

Definition _own_files (cfg : Config) (msg_id : Z) (files_ : list Z)
    (user : User) : M unit :=
  t ← gets now;
  me ← gets self;
  let expiry :=
    if py.truthy_num (UPLOAD_DEFAULT_EXPIRY cfg)
    then Some (t + default 0 (UPLOAD_DEFAULT_EXPIRY cfg))
    else None in
  modify_db (fun d =>
    set_files
      ((fun f =>
          if bool_decide (f_id f ∈ files_)
             && bool_decide (f_room f = id me)
             && bool_decide (f_uploader f = user_id user)
             && bool_decide (f_message f = None)
             && bool_decide (t - 3600 ≤ f_uploaded f)
             && bool_decide (f_expiry f ≠ None)
          then set_owner msg_id expiry f
          else f) <$> files d) d).

(** *** Room.add_post *)

Inductive whisper_target :=
| WUser (u : User)
| WSession (sid : string).

Definition truthy_target (w : option whisper_target) : bool :=
  match w with
  | None => false
  | Some (WUser _) => true
  | Some (WSession sid) => negb (bool_decide (sid = EmptyString))
  end.

(** Modelled from the spec: [User(session_id=..., autovivify=...)] (the
    user model is not part of the sources at hand; this follows
    [User.__init__] of sogs/model.py): a user record is auto-created on
    first reference by session id unless the caller disables this. *)
Definition User_by_session_id (sid : string) (autovivify : bool) : M User :=
  d ← gets db;
  match list_find (fun u => session_id u = sid) (users d) with
  | Some (_, u) => mret u
  | None =>
      if autovivify then
        let u := {| user_id := next_user_id d; session_id := sid;
                    banned := false; global_moderator := false;
                    global_admin := false; visible_mod := false |} in
        modify_db (set_users (users d ++ [u]) (next_user_id d + 1));;
        mret u
      else raise NoSuchUser
  end.

(** the dict returned by [add_post] *)
Record post_details := {
  p_id : Z;
  p_session_id : string;
  p_posted : Z;
  p_seqno : Z;
  p_data : list byte;
  p_signature : list byte;
  p_whisper : option (bool * option string)   (* whisper_mods, whisper_to *)
}.

(** [SELECT COUNT( * ) FROM messages WHERE room = :r AND "user" = :u
    AND posted >= :since] *)
Definition recent_count (cfg : Config) (r u : Z) (t : Z)
    (table : list message) : Z :=
  let since_limit := t - rate_limit_interval cfg in
  Z.of_nat (length (filter
    (fun m => m_room m = r ∧ m_user m = u ∧ since_limit ≤ m_posted m)
    table)).

Definition rate_limit (cfg : Config) (user : User) : M unit :=
  if negb (rate_limit_size cfg =? 0) then
    adm ← check_admin (Some user);
    if negb adm then
      t ← gets now;
      d ← gets db;
      me ← gets self;
      if decide (rate_limit_size cfg ≤
                   recent_count cfg (id me) (user_id user) t (messages d))
      then raise PostRateLimited
      else mret tt
    else mret tt
  else mret tt.

(** the body of the [with db.transaction():] block of [add_post] *)
Definition add_post_store (cfg : Config) (user : User)
    (data sig : list byte) (whisper_to : option User) (whisper_mods : bool)
    (files_ : list Z) (filtered : bool) : M post_details :=
  rate_limit cfg user;;
  let data_size := length data in
  let unpadded_data := utils.remove_session_message_padding data in
  me ← gets self;
  msg_id ← insert_message (id me) (user_id user) unpadded_data
              data_size sig filtered (user_id <$> whisper_to)
              whisper_mods;
  (if files_ is [] then mret tt
   else _own_files cfg msg_id files_ user);;
  d ← gets db;
  match list_find (fun m => m_id m = msg_id) (messages d) with
  | None => raise TypeError
  | Some (_, row) =>
      mret {| p_id := msg_id;
              p_session_id := session_id user;
              p_posted := m_posted row;
              p_seqno := m_seqno row;
              p_data := data;
              p_signature := sig;
              p_whisper :=
                if bool_decide (is_Some whisper_to) || whisper_mods
                then Some (whisper_mods, session_id <$> whisper_to)
                else None |}
  end.

Definition add_post (cfg : Config) (user : User)
    (data sig : option (list byte)) (whisper_to : option whisper_target)
    (whisper_mods : bool) (files_ : list Z) : M post_details :=
  ok ← check_write (Some user);
  if negb ok then raise BadPermission
  else
    match data, sig with
    | Some data, Some sig =>
        if decide (length sig ≠ 64%nat) then raise InvalidData
        else
          (if truthy_target whisper_to || whisper_mods then
             m ← check_moderator (Some user);
             if negb m then raise BadPermission else mret tt
           else mret tt);;
          whisper_to ←
            match whisper_to with
            | Some (WUser u) => mret (Some u)
            | Some (WSession sid) =>
                if truthy_target whisper_to
                then u ← User_by_session_id sid true; mret (Some u)
                else mret None
            | None => mret None
            end;
          filtered ← should_filter cfg user data;
          msg ← transaction
                  (add_post_store cfg user data sig whisper_to whisper_mods
                     files_ filtered);
          send_mule (message_posted (p_id msg));;
          mret msg
    | _, _ => raise InvalidData
    end.

(** *** Room.edit_post *)

Definition edit_post (cfg : Config) (user : User) (msg_id : Z)
    (data sig : option (list byte)) (files_ : list Z) : M unit :=
  ok ← check_write (Some user);
  if negb ok then raise BadPermission
  else
    match data, sig with
    | Some data, Some sig =>
        if decide (length sig ≠ 64%nat) then raise InvalidData
        else
          filtered ← should_filter cfg user data;
          (* [true]: the function returned from inside the transaction *)
          returned ← @transaction bool (
            me ← gets self;
            d ← gets db;
            match list_find
                    (fun m => m_id m = msg_id ∧ m_room m = id me
                              ∧ m_data m ≠ None) (messages d) with
            | None => raise NoSuchPost
            | Some (_, row) =>
                let author := m_user row in
                if decide (author ≠ user_id user) then raise BadPermission
                else if (filtered : bool) then mret true
                else
                  let data_size := length data in
                  let unpadded_data :=
                    utils.remove_session_message_padding data in
                  update_message msg_id unpadded_data data_size sig;;
                  (if files_ is [] then mret tt
                   else _own_files cfg msg_id files_ user);;
                  mret false
            end);
          if (returned : bool) then mret tt
          else send_mule (message_edited msg_id)
    | _, _ => raise InvalidData
    end.

(** *** Room.delete_posts *)

(** [SELECT id FROM messages WHERE room = :r AND data IS NOT NULL
    AND id IN :ids] *)
Definition select_live_ids (r : Z) (slice : list Z) (d : DB) : list Z :=
  m_id <$> filter
    (fun m => m_room m = r ∧ m_data m ≠ None ∧ m_id m ∈ slice) (messages d).

(** [SELECT EXISTS(SELECT * FROM messages WHERE "user" != :u
    AND id IN :ids)] *)
Definition exists_foreign (u : Z) (ids : list Z) (d : DB) : bool :=
  bool_decide (Exists (fun m => m_user m ≠ u ∧ m_id m ∈ ids) (messages d)).

(** the [while i < len(message_ids)] loop; [fuel] bounds the number of
    iterations, and [delete_posts] passes enough of it *)
Fixpoint delete_posts_loop (fuel : nat) (message_ids : list Z)
    (deleter : User) (i : nat) (deleted : list Z) : M (list Z) :=
  match fuel with
  | O => mret deleted
  | S fuel =>
      if decide (i < length message_ids)%nat then
        me ← gets self;
        d ← gets db;
        let ids := select_live_ids (id me) (take 50 (drop i message_ids)) d in
        deleted ←
          (if ids is [] then mret deleted
           else
             is_moderator ← check_moderator (Some deleter);
             (if negb is_moderator then
                d ← gets db;
                if exists_foreign (user_id deleter) ids d
                then raise BadPermission
                else mret tt
              else mret tt);;
             delete_details_by_ids ids;;
             mret (deleted ++ ids));
        delete_posts_loop fuel message_ids deleter (i + 50)%nat deleted
      else mret deleted
  end.

Definition delete_posts (message_ids : list Z) (deleter : User)
  : M (list Z) :=
  transaction
    (delete_posts_loop (length message_ids) message_ids deleter 0%nat []).

(** *** Room.image and Room.delete_all_posts *)

Definition File_by_id (d : DB) (fid : Z) : option File :=
  snd <$> list_find (fun f => f_id f = fid) (files d).

Definition image : M (option File) :=
  me ← gets self;
  match _fetch_image_id me with
  | Some fid =>
      d ← gets db;
      (match File_by_id d fid with
       | Some f => modify_self (fun r => set_image (_fetch_image_id r) (Some f) r)
       | None => mret tt        (* except NoSuchFile: pass *)
       end);;
      modify_self (fun r => set_image None (_image r) r);;
      gets (fun s => _image (self s))
  | None => mret (_image me)
  end.

Definition set_expiry (exp : option Z) (f : File) : File :=
  {| f_id := f_id f; f_room := f_room f; f_uploader := f_uploader f;
     f_size := f_size f; f_uploaded := f_uploaded f; f_expiry := exp;
     f_filename := f_filename f; f_path := f_path f;
     f_message := f_message f |}.

Definition delete_all_posts (poster deleter : User) : M (nat * nat) :=
  not_allowed ←
    (if decide (user_id poster ≠ user_id deleter) then
       m ← check_moderator (Some deleter); mret (negb m)
     else mret false);
  fail ←
    (if (not_allowed : bool) then mret true
     else
       poster_admin ← check_admin (Some poster);
       if (poster_admin : bool) then
         a ← check_admin (Some deleter); mret (negb a)
       else mret false);
  if (fail : bool) then raise BadPermission
  else
    transaction (
      me ← gets self;
      d ← gets db;
      let deleted :=
        filter (fun m => m_room m = id me ∧ m_user m = user_id poster
                         ∧ m_data m ≠ None) (messages d) in
      delete_details_by_user (id me) (user_id poster);;
      img ← image;
      let omit_id :=
        match img with
        | Some f => if decide (f_uploader f = user_id poster)
                    then Some (f_id f) else None
        | None => None
        end in
      let expires (f : File) : bool :=
        bool_decide (f_room f = id me)
        && bool_decide (f_uploader f = user_id poster)
        && (if py.truthy_num omit_id
            then negb (bool_decide (Some (f_id f) = omit_id))
            else true) in
      d ← gets db;
      let files_removed := length (filter (fun f => expires f = true) (files d)) in
      modify_db (set_files
        ((fun f => if expires f then set_expiry (Some 0) f else f)
           <$> files d));;
      mret (length deleted, files_removed)).

(** *** Room.ban_user and Room.unban_user *)

Definition set_ban (b m a : option bool) (o : override) : override :=
  {| o_read := o_read o; o_accessible := o_accessible o;
     o_write := o_write o; o_upload := o_upload o;
     o_banned := b; o_moderator := m; o_admin := a;
     o_visible_mod := o_visible_mod o |}.

Definition set_banned (b : option bool) (o : override) : override :=
  set_ban b (o_moderator o) (o_admin o) o.

(** [user.record_needs_blinding()] of the crypto layer *)
Definition record_needs_blinding (u : User) : M unit :=
  modify_db (fun d => set_needs_blinding (needs_blinding d ++ [user_id u]) d).

Definition evict (u : User) : M unit :=
  modify_self (fun r => set_perm_cache (delete (user_id u) (_perm_cache r)) r).

(** [if config.REQUIRE_BLIND_KEYS: ...]: the user the change lands on, and
    whether it has to be recorded as awaiting its blinded id *)
Definition check_blinding (cfg : Config) (d : DB) (u : User) : User * bool :=
  if REQUIRE_BLIND_KEYS cfg then
    match find_blinded cfg d u with
    | Some blinded => (blinded, false)
    | None => (u, true)
    end
  else (u, false).

Definition is_unban_of (r u : Z) (f : ban_future) : Prop :=
  bf_room f = r ∧ bf_user f = u ∧ bf_banned f = false.

(** what [ban_user] does inside its transaction; it returns the user the
    ban ends up on (the blinded one where there is one) *)
Definition ban_user_body (cfg : Config) (to_ban mod_ : User)
    (timeout : option Z) : M User :=
  d ← gets db;
  let '(to_ban, need_blinding) := check_blinding cfg d to_ban in
  is_moderator ← check_moderator (Some mod_);
  fail ←
    (if negb is_moderator then mret true
     else if decide (user_id to_ban = user_id mod_) then mret true
     else if global_moderator to_ban then mret true
     else
       target_mod ← check_moderator (Some to_ban);
       if (target_mod : bool) then
         a ← check_admin (Some mod_); mret (negb a)
       else mret false);
  if (fail : bool) then raise BadPermission
  else
    me ← gets self;
    t ← gets now;
    let key := (id me, user_id to_ban) in
    (* INSERT ... ON CONFLICT (room, "user") DO UPDATE SET ... *)
    modify_db (fun d =>
      let o := default empty_override (user_permission_overrides d !! key) in
      set_overrides
        (<[key := set_ban (Some true) (Some false) (Some false) o]>
           (user_permission_overrides d)) d);;
    (* Replace (or remove) an existing scheduled unban *)
    modify_db (fun d =>
      set_ban_futures
        (filter (fun f => ¬ is_unban_of (id me) (user_id to_ban) f)
                (user_ban_futures d)) d);;
    (if py.truthy_num timeout then
       modify_db (fun d =>
         set_ban_futures
           (user_ban_futures d ++
              [{| bf_room := id me; bf_user := user_id to_ban;
                  bf_at := t + default 0 timeout; bf_banned := false |}]) d)
     else mret tt);;
    (if need_blinding then record_needs_blinding to_ban else mret tt);;
    mret to_ban.

Definition ban_user (cfg : Config) (to_ban mod_ : User)
    (timeout : option Z) : M unit :=
  to_ban ← transaction (ban_user_body cfg to_ban mod_ timeout);
  evict to_ban.

Definition unban_user (to_unban mod_ : User) : M bool :=
  is_moderator ← check_moderator (Some mod_);
  if negb is_moderator then raise BadPermission
  else
    me ← gets self;
    d ← gets db;
    let key := (id me, user_id to_unban) in
    (* UPDATE user_permission_overrides SET banned = FALSE
       WHERE room = :r AND "user" = :unban AND banned *)
    match user_permission_overrides d !! key with
    | Some o =>
        if default false (o_banned o) then
          modify_db (set_overrides
            (<[key := set_banned (Some false) o]>
               (user_permission_overrides d)));;
          evict to_unban;;
          mret true
        else mret false
    | None => mret false
    end.

(** *** Room.set_moderator, Room.remove_moderator, Room.set_permissions *)

Definition set_mod (m a v : option bool) (o : override) : override :=
  {| o_read := o_read o; o_accessible := o_accessible o;
     o_write := o_write o; o_upload := o_upload o;
     o_banned := o_banned o; o_moderator := m; o_admin := a;
     o_visible_mod := v |}.

(** [admin] is [None] to leave the admin flag as it is.  The upsert is the
    statement as written; what the constraints of the schema, which is not
    part of the sources at hand, make of a row is not modelled. *)
Definition set_moderator (cfg : Config) (user added_by : User)
    (admin_ : option bool) (visible : bool) : M unit :=
  ok ← check_admin (Some added_by);
  if negb ok then raise BadPermission
  else
    user ← transaction (
      d ← gets db;
      let '(user, need_blinding) := check_blinding cfg d user in
      me ← gets self;
      let key := (id me, user_id user) in
      modify_db (fun d =>
        let o := default empty_override (user_permission_overrides d !! key) in
        set_overrides
          (<[key := set_mod (Some true)
                      (if admin_ is Some a then Some a else o_admin o)
                      (Some visible) o]>
             (user_permission_overrides d)) d);;
      (if need_blinding then record_needs_blinding user else mret tt);;
      mret user);
    evict user.

Definition remove_moderator (user removed_by : User)
    (remove_admin_only : bool) : M unit :=
  ok ← check_admin (Some removed_by);
  if negb ok then raise BadPermission
  else
    me ← gets self;
    let key := (id me, user_id user) in
    modify_db (fun d =>
      set_overrides
        (alter (fun o =>
                  if remove_admin_only
                  then set_mod (o_moderator o) (Some false) (o_visible_mod o) o
                  else set_mod (Some false) (Some false) (Some true) o)
           key (user_permission_overrides d)) d);;
    evict user.

(** the keyword arguments of [set_permissions]: for each of the four
    permission names, [None] when the key is omitted and [Some v] when it is
    given with value [v] (True, False or None) *)
Record perms := {
  kw_read : option (option bool);
  kw_accessible : option (option bool);
  kw_write : option (option bool);
  kw_upload : option (option bool)
}.

Definition no_perms (k : perms) : bool :=
  match kw_read k, kw_accessible k, kw_write k, kw_upload k with
  | None, None, None, None => true
  | _, _, _, _ => false
  end.

Definition set_perms (k : perms) (o : override) : override :=
  {| o_read := default (o_read o) (kw_read k);
     o_accessible := default (o_accessible o) (kw_accessible k);
     o_write := default (o_write o) (kw_write k);
     o_upload := default (o_upload o) (kw_upload k);
     o_banned := o_banned o; o_moderator := o_moderator o;
     o_admin := o_admin o; o_visible_mod := o_visible_mod o |}.

Definition set_permissions (cfg : Config) (user mod_ : User) (k : perms)
  : M unit :=
  if no_perms k then raise ValueError
  else
    ok ← check_moderator (Some mod_);
    if negb ok then raise BadPermission
    else
      user ← transaction (
        d ← gets db;
        let '(user, need_blinding) := check_blinding cfg d user in
        me ← gets self;
        let key := (id me, user_id user) in
        modify_db (fun d =>
          let o := default empty_override (user_permission_overrides d !! key) in
          set_overrides
            (<[key := set_perms k o]> (user_permission_overrides d)) d);;
        (if need_blinding then record_needs_blinding user else mret tt);;
        mret user);
      evict user.

End room.

(** ** sogs/cleanup.py *)

Module cleanup.
Import model room.

Definition expired_before (t : Z) (f : File) : Prop :=
  match f_expiry f with
  | Some e => e < t
  | None => False
  end.

Definition expired_by (t : Z) (f : File) : Prop :=
  match f_expiry f with
  | Some e => e ≤ t
  | None => False
  end.

#[global] Instance expired_before_dec t f : Decision (expired_before t f).
Proof. unfold expired_before; destruct (f_expiry f); apply _. Defined.
#[global] Instance expired_by_dec t f : Decision (expired_by t f).
Proof. unfold expired_by; destruct (f_expiry f); apply _. Defined.

(** [os.unlink(path)] in the [try] of [prune_files]: a missing file is
    passed over ([except FileNotFoundError: pass]); any other error is
    logged and the file stays where it is ([except Exception]) *)
Definition unlink (cfg : Config) (path : string) : M unit :=
  if unlink_fails cfg path then mret tt
  else modify (fun s => set_disk (filter (fun p => p ≠ path) (disk s)) s).

Fixpoint unlink_all (cfg : Config) (paths : list string) : M unit :=
  match paths with
  | [] => mret tt
  | p :: rest => unlink cfg p;; unlink_all cfg rest
  end.

Definition prune_files (cfg : Config) : M nat :=
  to_remove ← transaction (
    t ← gets now;
    d ← gets db;
    let to_remove := f_path <$> filter (expired_before t) (files d) in
    if to_remove is [] then mret []
    else
      modify_db (fun d =>
        set_files (filter (fun f => ¬ expired_by t f) (files d)) d);;
      mret to_remove);
  if to_remove is [] then mret 0%nat
  else
    unlink_all cfg to_remove;;
    mret (length to_remove).

Definition prune_message_history (cfg : Config) : M nat :=
  transaction (
    t ← gets now;
    d ← gets db;
    let limit := t - MESSAGE_HISTORY_PRUNE_THRESHOLD cfg * 86400 in
    let keep := filter (fun h => ¬ (snd h < limit)) (message_history d) in
    modify_db (set_message_history keep);;
    mret (length (message_history d) - length keep)%nat).

Definition prune_room_activity (cfg : Config) : M nat :=
  transaction (
    t ← gets now;
    d ← gets db;
    let limit := t - ROOM_ACTIVE_PRUNE_THRESHOLD cfg * 86400 in
    let keep := filter (fun a => ¬ (snd a < limit)) (room_users d) in
    modify_db (set_room_users keep);;
    mret (length (room_users d) - length keep)%nat).

Definition coalesce {A} (x y : option A) : option A :=
  match x with
  | Some _ => x
  | None => y
  end.

Definition set_rwu (r w u : option bool) (o : override) : override :=
  {| o_read := r; o_accessible := o_accessible o;
     o_write := w; o_upload := u;
     o_banned := o_banned o; o_moderator := o_moderator o;
     o_admin := o_admin o; o_visible_mod := o_visible_mod o |}.

(** one row of [INSERT INTO user_permission_overrides ... SELECT ...
    ON CONFLICT (room, user) DO UPDATE SET read = COALESCE(excluded.read,
    read), ...] *)
Definition apply_future (ov : gmap (Z * Z) override) (f : perm_future)
  : gmap (Z * Z) override :=
  let key := (pf_room f, pf_user f) in
  match ov !! key with
  | None =>
      <[key := set_rwu (pf_read f) (pf_write f) (pf_upload f) empty_override]> ov
  | Some o =>
      <[key := set_rwu (coalesce (pf_read f) (o_read o))
                       (coalesce (pf_write f) (o_write o))
                       (coalesce (pf_upload f) (o_upload o)) o]> ov
  end.

(** [apply_permission_updates].  The [INSERT ... SELECT] has no [ORDER BY]:
    the order in which the due rows reach the upsert is the database's
    choice, and matters only where two due rows are for the same room and
    user.  Here the rows are taken in table order. *)
Definition apply_permission_updates : M nat :=
  transaction (
    t ← gets now;
    d ← gets db;
    let due := filter (fun f => pf_at f ≤ t) (user_permission_futures d) in
    modify_db (set_overrides
      (foldl apply_future (user_permission_overrides d) due));;
    let num_applied := length due in
    if decide (num_applied = 0%nat) then mret 0%nat
    else
      modify_db (fun d =>
        set_permission_futures
          (filter (fun f => ¬ (pf_at f ≤ t)) (user_permission_futures d)) d);;
      mret num_applied).

(** the body of the timer: one cycle of the sweeper *)
Definition test_timer (cfg : Config) : M unit :=
  files_ ← prune_files cfg;
  msg_hist ← prune_message_history cfg;
  room_act ← prune_room_activity cfg;
  perm_upd ← apply_permission_updates;
  mret tt.

End cleanup.

(** ** sogs/model/room.py: read-only accessors *)

Module accessors.
Import model room.

(** [Room.active_users(cutoff)]: [SELECT COUNT( * ) FROM room_users WHERE
    room = :r AND last_active >= :since] *)
Definition active_users (cutoff : Z) : M nat :=
  me ← gets self;
  t ← gets now;
  d ← gets db;
  let since := t - cutoff in
  mret (length (filter
    (fun a : Z * Z * Z => a.1.1 = id me ∧ since ≤ a.2) (room_users d))).

(** [Room.get_file(file_id)].  [have_file_id_hacks] is [db.HAVE_FILE_ID_HACKS]
    and [file_id_hacks] the table of that name, rows (room, old_file_id,
    file). *)
Definition get_file (have_file_id_hacks : bool)
    (file_id_hacks : list (Z * Z * Z)) (file_id : Z) : M (option File) :=
  me ← gets self;
  d ← gets db;
  t ← gets now;
  let row :=
    snd <$> list_find (fun f => f_room f = id me ∧ f_id f = file_id) (files d) in
  let row :=
    match row with
    | Some _ => row
    | None =>
        if have_file_id_hacks then
          h ← snd <$> list_find
                 (fun h : Z * Z * Z => h.1.1 = id me ∧ h.1.2 = file_id)
                 file_id_hacks;
          snd <$> list_find (fun f => f_id f = h.2) (files d)
        else None
    end in
  match row with
  | None => mret None
  | Some f =>
      match f_expiry f with
      | None => mret (Some f)
      | Some e => if decide (t < e) then mret (Some f) else mret None
      end
  end.

End accessors.

(** ** sogs/utils.py: request parameters *)

Module params.

(** a value, or [abort(http.BAD_REQUEST)] *)
Inductive outcome (A : Type) :=
| Value (a : A)
| BadRequest.
Arguments Value {A} a.
Arguments BadRequest {A}.

(** [get_int_param(name, default, required=, min=, max=, truncate=)].  [arg]
    is [request.args.get(name)] and [int_] the conversion [int(val)], [None]
    where it raises. *)
Definition get_int_param (arg : option string) (int_ : string -> option Z)
    (default : option Z) (required : bool) (min max : option Z)
    (truncate : bool) : outcome (option Z) :=
  match arg with
  | None => if required then BadRequest else Value default
  | Some val =>
      match int_ val with
      | None => BadRequest
      | Some val =>
          if (if min is Some lo then val <? lo else false) then
            if truncate then Value min else BadRequest
          else if (if max is Some hi then hi <? val else false) then
            if truncate then Value max else BadRequest
          else Value (Some val)
      end
  end.

End params.

(** ** Relations between states, for the statements below *)

Module frames.
Import model room.

(** [s'] is [s] after permission lookups: nothing changed but the cache of
    the [Room] instance, and every user resolves to the same row. *)
Definition same_but_cache (s s' : state) : Prop :=
  db s' = db s ∧ now s' = now s ∧ mule s' = mule s ∧ disk s' = disk s
  ∧ id (self s') = id (self s)
  ∧ ∀ u : User, resolved_row s' u = resolved_row s u.

(** the ban state of [d'] is that of [d]: the same scheduled rows, the
    same banned flag in every override *)
Definition bans_untouched (d d' : DB) : Prop :=
  user_ban_futures d' = user_ban_futures d
  ∧ ∀ key : Z * Z,
      (user_permission_overrides d' !! key ≫= o_banned)
      = (user_permission_overrides d !! key ≫= o_banned).

(** the messages of one room, in table order *)
Definition messages_of (rid : Z) (d : DB) : list message :=
  filter (fun m => m_room m = rid) (messages d).

(** From [d] to [d'] no room is lost, no message_sequence decreases and no
    other column of a room changes; and the message_sequence of a room whose
    messages differ has increased. *)
Definition sequences_advance (d d' : DB) : Prop :=
  ∀ (rid : Z) (row : room_row), rooms d !! rid = Some row ->
    ∃ n : Z,
      rooms d' !! rid = Some (set_sequence (r_message_sequence row + n) row)
      ∧ 0 ≤ n
      ∧ (messages_of rid d' ≠ messages_of rid d -> 0 < n).

(** a computation all of whose runs advance the sequences *)
Definition advances {A} (m : M A) : Prop :=
  ∀ s : state, sequences_advance (db s) (db (snd (m s))).

(** the scheduled rows of [d'] are those of [d] *)
Definition futures_untouched (d d' : DB) : Prop :=
  user_permission_futures d' = user_permission_futures d
  ∧ user_ban_futures d' = user_ban_futures d.

(** the operations on messages *)
Inductive message_op :=
| AddPost (user : User) (data sig : option (list byte))
    (whisper_to : option whisper_target) (whisper_mods : bool)
    (files_ : list Z)
| EditPost (user : User) (msg_id : Z) (data sig : option (list byte))
    (files_ : list Z)
| DeletePosts (message_ids : list Z) (deleter : User)
| DeleteAllPosts (poster deleter : User).

Definition run_op (cfg : Config) (op : message_op) : M unit :=
  match op with
  | AddPost user data sig whisper_to whisper_mods files_ =>
      add_post cfg user data sig whisper_to whisper_mods files_;; mret tt
  | EditPost user msg_id data sig files_ =>
      edit_post cfg user msg_id data sig files_
  | DeletePosts message_ids deleter =>
      delete_posts message_ids deleter;; mret tt
  | DeleteAllPosts poster deleter =>
      delete_all_posts poster deleter;; mret tt
  end.

(** the row [add_post] inserts in state [s], the room's counter being
    [seq] *)
Definition posted_row (s : state) (user : User) (data sig : list byte)
    (wu : option User) (wm filtered : bool) (seq : Z) : message :=
  {| m_id := next_message_id (db s); m_room := id (self s);
     m_user := user_id user; m_data := Some data;
     m_data_size := length data; m_signature := Some sig;
     m_seqno := seq + 1; m_posted := now s; m_edited := None;
     m_filtered := filtered; m_whisper := user_id <$> wu;
     m_whisper_mods := wm |}.

(** a computation all of whose runs take the database to one related to it
    by [R] *)
Definition preserves {A} (R : DB -> DB -> Prop) (m : M A) : Prop :=
  ∀ s : state, R (db s) (db (snd (m s))).

(** the messages table of [d'] has the rows of [d], in order, each with the
    id, room, author and posting time it had *)
Definition same_posts (d d' : DB) : Prop :=
  Forall2 (fun m m' => m_id m' = m_id m ∧ m_room m' = m_room m
                       ∧ m_user m' = m_user m ∧ m_posted m' = m_posted m)
    (messages d) (messages d').

(** the columns of an override that say nothing of read, write and upload
    are the same in [o'] as in [o] *)
Definition same_rank (o o' : override) : Prop :=
  o_accessible o' = o_accessible o ∧ o_banned o' = o_banned o
  ∧ o_moderator o' = o_moderator o ∧ o_admin o' = o_admin o
  ∧ o_visible_mod o' = o_visible_mod o.

End frames.

(** ** A small server to run the code on *)

Module examples.
Import model room.

Definition mk_user (i : Z) (sid : string) : User :=
  {| user_id := i; session_id := sid; banned := false;
     global_moderator := false; global_admin := false;
     visible_mod := false |}.

Definition alice : User := mk_user 1 "05alice".
Definition bob : User := mk_user 2 "05bob".
Definition carol : User := mk_user 3 "05carol".   (* room moderator *)
Definition dave : User := mk_user 4 "05dave".     (* room admin *)

Definition lobby_row : room_row :=
  {| r_token := "lobby"; r_name := "Lobby"; r_description := None;
     r_image := None; r_created := 0; r_message_sequence := 7;
     r_info_updates := 1; r_read := true; r_accessible := false;
     r_write := true; r_upload := false |}.

Definition lobby : Room :=
  {| id := 10; _token := "lobby"; _name := "Lobby"; _description := None;
     _fetch_image_id := None; created := 0; message_sequence := 7;
     info_updates := 1; _default_read := true;
     _default_accessible := false; _default_write := true;
     _default_upload := false; _image := None; _pinned := None;
     _perm_cache := ∅ |}.

Definition moderator_override : override :=
  set_ban None (Some true) None empty_override.
Definition admin_override : override :=
  set_ban None (Some true) (Some true) empty_override.

Definition post (i u posted seqno : Z) : message :=
  {| m_id := i; m_room := 10; m_user := u; m_data := Some [x68; x69];
     m_data_size := 2; m_signature := Some (replicate 64 x00);
     m_seqno := seqno; m_posted := posted; m_edited := None;
     m_filtered := false; m_whisper := None; m_whisper_mods := false |}.

Definition db0 : DB :=
  {| rooms := {[ 10 := lobby_row ]};
     users := [alice; bob; carol; dave];
     user_permission_overrides :=
       {[ (10, 3) := moderator_override; (10, 4) := admin_override ]};
     user_permission_futures := [];
     user_ban_futures := [];
     messages := [post 1 1 100 6; post 2 2 200 7];
     files := [];
     message_history := [];
     room_users := [];
     needs_blinding := [];
     next_message_id := 3;
     next_user_id := 5 |}.

Definition s0 : state :=
  {| self := lobby; db := db0; now := 1000; mule := []; disk := [] |}.

Definition only_write : requirements :=
  {| admin := false; moderator := false; read := false;
     accessible := false; write := true; upload := false |}.

Definition padded : list byte := [x68; x69; x80; x00].
Definition sig64 : list byte := replicate 64 x00.


(** bob has posted five messages in the last 16 seconds *)
Definition busy_db : DB :=
  set_messages
    [post 1 2 990 8; post 2 2 991 9; post 3 2 992 10; post 4 2 993 11;
     post 5 2 994 12] 6
    (set_rooms {[ 10 := set_sequence 12 lobby_row ]} db0).

Definition s_busy : state :=
  {| self := lobby; db := busy_db; now := 1000; mule := []; disk := [] |}.

Definition banned_override : override :=
  set_ban (Some true) (Some false) (Some false) empty_override.

(** ... and has then been banned from the room *)
Definition s_busy_banned : state :=
  set_db
    (set_overrides
       (<[(10, 2) := banned_override]> (user_permission_overrides busy_db))
       busy_db) s_busy.


(** bob is banned from the lobby until time 2000 *)
Definition s_pending : state :=
  set_db
    (set_ban_futures
       [{| bf_room := 10; bf_user := 2; bf_at := 2000; bf_banned := false |}]
       (set_overrides
          (<[(10, 2) := banned_override]> (user_permission_overrides db0))
          db0)) s0.

(** bob's ban ran out at time 995; it is now 1000 *)
Definition s_due : state :=
  set_db
    (set_ban_futures
       [{| bf_room := 10; bf_user := 2; bf_at := 995; bf_banned := false |}]
       (set_overrides
          (<[(10, 2) := banned_override]> (user_permission_overrides db0))
          db0)) s0.

(** 51 ids: alice's own message in the first slice of 50, bob's in the
    second *)
Definition mixed_ids : list Z := 1 :: replicate 49 99 ++ [2].

Definition moderator_row : perm_row :=
  {| is_banned := false; can_read := true; can_access := false;
     can_write := true; can_upload := false; is_mod := true;
     is_admin := false |}.

Definition banned_row : perm_row :=
  {| is_banned := true; can_read := true; can_access := false;
     can_write := true; can_upload := false; is_mod := false;
     is_admin := false |}.

Definition admin_row : perm_row :=
  {| is_banned := false; can_read := true; can_access := false;
     can_write := true; can_upload := false; is_mod := true;
     is_admin := true |}.

Definition default_row : perm_row :=
  {| is_banned := false; can_read := true; can_access := false;
     can_write := true; can_upload := false; is_mod := false;
     is_admin := false |}.

End examples.

(** ** Further states to run the code on *)

Module scenarios.
Import model room examples.

Definition all_capabilities : requirements :=
  {| admin := false; moderator := false; read := true;
     accessible := true; write := true; upload := true |}.

(** the profanity filter switched on, every body counting as profane *)
Definition filtering (silent : bool) : Config :=
  {| PROFANITY_FILTER := true;
     PROFANITY_SILENT := silent;
     contains_profanity := fun _ => true;
     REQUIRE_BLIND_KEYS := false;
     find_blinded := fun _ _ => None;
     UPLOAD_DEFAULT_EXPIRY := Some (15 * 86400);
     MESSAGE_HISTORY_PRUNE_THRESHOLD := 30;
     ROOM_ACTIVE_PRUNE_THRESHOLD := 60;
     rate_limit_size := 5;
     rate_limit_interval := 16;
     unlink_fails := fun _ => false |}.

(** the defaults, on a disk that refuses to unlink "up/1" *)
Definition stubborn_disk : Config :=
  {| PROFANITY_FILTER := false;
     PROFANITY_SILENT := false;
     contains_profanity := fun _ => false;
     REQUIRE_BLIND_KEYS := false;
     find_blinded := fun _ _ => None;
     UPLOAD_DEFAULT_EXPIRY := Some (15 * 86400);
     MESSAGE_HISTORY_PRUNE_THRESHOLD := 30;
     ROOM_ACTIVE_PRUNE_THRESHOLD := 60;
     rate_limit_size := 5;
     rate_limit_interval := 16;
     unlink_fails := fun p => bool_decide (p = "up/1") |}.

Definition upload (i : Z) (expiry : option Z) (path : string) : File :=
  {| f_id := i; f_room := 10; f_uploader := 1; f_size := 3;
     f_uploaded := 0; f_expiry := expiry; f_filename := None;
     f_path := path; f_message := None |}.

Definition future (u at_ : Z) (r w : option bool) : perm_future :=
  {| pf_room := 10; pf_user := u; pf_at := at_;
     pf_read := r; pf_write := w; pf_upload := None |}.

(** It is 1000.  Of the four uploads one ran out at 400, one runs out this
    very second, one lasts until 5000 and one has no expiry.  Bob was to
    lose write at 900 and is to have it back at 2000; alice was to lose
    read at 950.  Alice was last seen at 990 and bob at 10. *)
Definition s_swept : state :=
  set_disk ["up/1"; "up/2"; "up/3"; "up/4"]
    (set_db
       (set_room_users [(10, 1, 990); (10, 2, 10)]
          (set_permission_futures
             [future 2 900 None (Some false); future 2 2000 None (Some true);
              future 1 950 (Some false) None]
             (set_files
                [upload 1 (Some 400) "up/1"; upload 2 (Some 1000) "up/2";
                 upload 3 (Some 5000) "up/3"; upload 4 None "up/4"]
                db0))) s0).

End scenarios.

(** * Properties *)

Import model room frames.

(** ** The padding codec *)

Section padding.

(** An [int] is never [in] a tuple of [bytes] objects. *)
Lemma int_not_in_bytes (n : Z) (a b : list byte) :
  py.contains (py.Int n) [py.Bytes a; py.Bytes b] = false.
Proof. reflexivity. Qed.

Lemma remove_padding_id (data : list byte) :
  utils.remove_session_message_padding data = data.
Proof.
  unfold utils.remove_session_message_padding, py.index_last.
  destruct (last data) as [b|]; simpl; [|reflexivity].
  unfold py.contains; simpl. reflexivity.
Qed.

Lemma add_padding_same_length (data : list byte) :
  utils.add_session_message_padding data (length data) = data.
Proof.
  unfold utils.add_session_message_padding.
  destruct (decide _) as [H|_]; [lia | reflexivity].
Qed.

End padding.

(** ** The monad *)

Section monad_facts.
Context {A B : Type}.

Lemma bind_ok (m : M A) (k : A -> M B) s a s' :
  m s = (Ok a, s') -> (m ≫= k) s = k a s'.
Proof. intros H. unfold mbind, M_bind. rewrite H. reflexivity. Qed.

Lemma bind_raise (m : M A) (k : A -> M B) s e s' :
  m s = (Raise e, s') -> (m ≫= k) s = (Raise e, s').
Proof. intros H. unfold mbind, M_bind. rewrite H. reflexivity. Qed.

Lemma transaction_ok (m : M A) s a s' :
  m s = (Ok a, s') -> transaction m s = (Ok a, s').
Proof. intros H. unfold transaction. rewrite H. reflexivity. Qed.

Lemma transaction_raise (m : M A) s e s' :
  m s = (Raise e, s') -> transaction m s = (Raise e, set_db (db s) s').
Proof. intros H. unfold transaction. rewrite H. reflexivity. Qed.

End monad_facts.

(** ** The permission engine *)

Section permissions.

Lemma resolve_perms_run (u : User) (s : state) :
  resolve_perms (Some u) s =
    match resolved_row s u with
    | Some p => (Ok p, after_resolve s u)
    | None => (Raise TypeError, s)
    end.
Proof.
  unfold resolve_perms, resolved_row, after_resolve.
  unfold mbind, M_bind, gets, mret, M_ret, modify_self, modify, raise.
  destruct s as [me d t mu dk]; simpl.
  destruct (_perm_cache me !! user_id u) as [p|] eqn:Hc; simpl.
  - rewrite Hc. reflexivity.
  - destruct (user_permissions d (id me) (user_id u)) as [row|]; simpl;
      [|reflexivity].
    rewrite lookup_insert_eq. reflexivity.
Qed.

Lemma check_permission_run (u : User) (req : requirements) (s : state) :
  check_permission (Some u) req s =
    match resolved_row s u with
    | Some p => (Ok (decide_permission p req), after_resolve s u)
    | None => (Raise TypeError, s)
    end.
Proof.
  unfold check_permission, mbind, M_bind. rewrite resolve_perms_run.
  destruct (resolved_row s u); reflexivity.
Qed.

Lemma after_resolve_db s u : db (after_resolve s u) = db s.
Proof.
  unfold after_resolve.
  destruct (_ !! _); [reflexivity|]. destruct (user_permissions _ _ _); reflexivity.
Qed.

Lemma after_resolve_now s u : now (after_resolve s u) = now s.
Proof.
  unfold after_resolve.
  destruct (_ !! _); [reflexivity|]. destruct (user_permissions _ _ _); reflexivity.
Qed.

Lemma after_resolve_mule s u : mule (after_resolve s u) = mule s.
Proof.
  unfold after_resolve.
  destruct (_ !! _); [reflexivity|]. destruct (user_permissions _ _ _); reflexivity.
Qed.

Lemma after_resolve_id s u : id (self (after_resolve s u)) = id (self s).
Proof.
  unfold after_resolve.
  destruct (_ !! _); [reflexivity|]. destruct (user_permissions _ _ _); reflexivity.
Qed.

(** Filling the cache for [u] changes no user's resolved row. *)
Lemma resolved_after_resolve s u v :
  resolved_row (after_resolve s u) v = resolved_row s v.
Proof.
  unfold resolved_row at 1. rewrite after_resolve_db, after_resolve_id.
  unfold after_resolve, resolved_row.
  destruct (_perm_cache (self s) !! user_id u) as [p|] eqn:Hu; [reflexivity|].
  destruct (user_permissions (db s) (id (self s)) (user_id u)) as [row|] eqn:Hv;
    [|reflexivity].
  simpl. destruct (decide (user_id u = user_id v)) as [E|N].
  - rewrite E, lookup_insert_eq. rewrite <- E, Hu, Hv. reflexivity.
  - rewrite lookup_insert_ne by exact N. reflexivity.
Qed.

(** A user the cache knows stays resolved whatever happens to the
    database. *)
Lemma resolved_cached s u p :
  _perm_cache (self s) !! user_id u = Some p -> resolved_row s u = Some p.
Proof. unfold resolved_row. intros ->. reflexivity. Qed.

Lemma after_resolve_cached s u p :
  resolved_row s u = Some p ->
  _perm_cache (self (after_resolve s u)) !! user_id u = Some p.
Proof.
  unfold resolved_row, after_resolve.
  destruct (_perm_cache (self s) !! user_id u) as [q|] eqn:Hu.
  - intros [= ->]. exact Hu.
  - intros ->. simpl. apply lookup_insert_eq.
Qed.

End permissions.

Section cascade.

Lemma check_permission_anonymous (req : requirements) (s : state) :
  check_permission None req s =
    (Ok (decide_permission
           {| is_banned := false;
              can_read := _default_read (self s);
              can_access := _default_accessible (self s);
              can_write := _default_write (self s);
              can_upload := _default_upload (self s);
              is_mod := false; is_admin := false |} req), s).
Proof. reflexivity. Qed.

Lemma decide_permission_plain (p : perm_row) (req : requirements) :
  is_admin p = false -> is_mod p = false ->
  admin req = false -> moderator req = false ->
  decide_permission p req = true <->
    is_banned p = false
    ∧ (read req = false ∨ can_read p = true)
    ∧ (accessible req = false ∨ can_access p = true ∨ can_read p = true)
    ∧ (write req = false ∨ can_write p = true)
    ∧ (upload req = false ∨ can_upload p = true).
Proof.
  intros Ha Hm Hra Hrm. unfold decide_permission.
  rewrite Ha, Hm, Hra, Hrm.
  destruct (is_banned p), (read req), (can_read p), (accessible req),
    (can_access p), (write req), (can_write p), (upload req),
    (can_upload p); simpl; intuition congruence.
Qed.

Lemma decide_permission_admin (p : perm_row) (req : requirements) :
  is_admin p = true -> decide_permission p req = true.
Proof. intros H. unfold decide_permission. rewrite H. reflexivity. Qed.

Lemma decide_permission_admin_inv (p : perm_row) :
  decide_permission p req_admin = true ->
  is_admin p = true.
Proof. unfold decide_permission. simpl. destruct (is_admin p); congruence. Qed.

(** A row taken from the view holds, for each capability, the override
    where one is set and the room default otherwise. *)
Lemma user_permissions_fields (d : DB) (r u : Z) (p : perm_row) :
  user_permissions d r u = Some p ->
  ∃ row, rooms d !! r = Some row ∧
    let o := user_permission_overrides d !! (r, u) in
    is_banned p = default false (o ≫= o_banned)
    ∧ can_read p = default (r_read row) (o ≫= o_read)
    ∧ can_access p = default (r_accessible row) (o ≫= o_accessible)
    ∧ can_write p = default (r_write row) (o ≫= o_write)
    ∧ can_upload p = default (r_upload row) (o ≫= o_upload).
Proof.
  unfold user_permissions. destruct (rooms d !! r) as [row|]; simpl; [|discriminate].
  intros [= <-]. exists row. simpl. repeat split; reflexivity.
Qed.

End cascade.

(** C1.  For a user who is neither admin nor moderator of the room, and with
    neither [admin] nor [moderator] required, [check_permission] returns a
    boolean that is true exactly when the user is not banned and every
    required capability among read, accessible (met by accessible or read),
    write and upload is held.  The capabilities are those of the row the
    call resolves: the row cached in the [Room] instance or, when the cache
    has none, the row of the view, which takes each capability from the
    override where set and from the room default otherwise. *)
Theorem check_permission_cascade
    (s : state) (u : User) (req : requirements) (p : perm_row) :
  resolved_row s u = Some p ->
  is_admin p = false -> is_mod p = false ->
  admin req = false -> moderator req = false ->
  (∃ b, fst (check_permission (Some u) req s) = Ok b ∧
     (b = true <->
        is_banned p = false
        ∧ (read req = false ∨ can_read p = true)
        ∧ (accessible req = false ∨ can_access p = true ∨ can_read p = true)
        ∧ (write req = false ∨ can_write p = true)
        ∧ (upload req = false ∨ can_upload p = true)))
  ∧ (_perm_cache (self s) !! user_id u = None ->
     ∃ row, rooms (db s) !! id (self s) = Some row ∧
       let o := user_permission_overrides (db s) !! (id (self s), user_id u) in
       is_banned p = default false (o ≫= o_banned)
       ∧ can_read p = default (r_read row) (o ≫= o_read)
       ∧ can_access p = default (r_accessible row) (o ≫= o_accessible)
       ∧ can_write p = default (r_write row) (o ≫= o_write)
       ∧ can_upload p = default (r_upload row) (o ≫= o_upload)).
Proof.
  intros Hp Ha Hm Hra Hrm. split.
  - exists (decide_permission p req). split.
    + rewrite check_permission_run, Hp. reflexivity.
    + apply decide_permission_plain; assumption.
  - intros Hc. apply user_permissions_fields.
    unfold resolved_row in Hp. rewrite Hc in Hp. exact Hp.
Qed.

Lemma check_permission_cascade_witness :
  (∃ b, fst (check_permission (Some examples.alice) examples.only_write
               examples.s0) = Ok b ∧
     (b = true <->
        false = false
        ∧ (false = false ∨ true = true)
        ∧ (false = false ∨ false = true ∨ true = true)
        ∧ (true = false ∨ true = true)
        ∧ (false = false ∨ false = true))).
Proof.
  apply (check_permission_cascade examples.s0 examples.alice
           examples.only_write examples.default_row); reflexivity.
Defined.

(** C2.  If [check_permission(U, admin=True)] returns true then
    [check_permission(U, ...)] returns true for every set of requirements
    (the empty one, the banned check, included), both on the same [Room]
    state and on the state the admin check left behind. *)
Theorem admin_passes_every_check (s : state) (u : option User) :
  fst (check_admin u s) = Ok true ->
  ∀ req : requirements,
    fst (check_permission u req s) = Ok true
    ∧ fst (check_permission u req (snd (check_admin u s))) = Ok true.
Proof.
  destruct u as [u|].
  - unfold check_admin. rewrite check_permission_run.
    destruct (resolved_row s u) as [p|] eqn:Hp; simpl; [|discriminate].
    intros [= H]. apply decide_permission_admin_inv in H.
    intros req. rewrite !check_permission_run.
    rewrite resolved_after_resolve, Hp. simpl.
    rewrite decide_permission_admin by exact H. split; reflexivity.
  - unfold check_admin. rewrite check_permission_anonymous. simpl.
    discriminate.
Qed.

Lemma admin_passes_every_check_witness :
  fst (check_permission (Some examples.dave) examples.only_write examples.s0)
    = Ok true
  ∧ fst (check_permission (Some examples.dave) examples.only_write
           (snd (check_admin (Some examples.dave) examples.s0))) = Ok true.
Proof.
  apply (admin_passes_every_check examples.s0 (Some examples.dave)).
  reflexivity.
Defined.

(** ** Posting *)

Section posting.

Lemma check_permission_hit (s : state) (u : User) (p : perm_row)
    (req : requirements) :
  _perm_cache (self s) !! user_id u = Some p ->
  check_permission (Some u) req s = (Ok (decide_permission p req), s).
Proof.
  intros H. rewrite check_permission_run.
  unfold resolved_row, after_resolve. rewrite H. reflexivity.
Qed.


Lemma set_users_same (d : DB) : set_users (users d) (next_user_id d) d = d.
Proof. destruct d; reflexivity. Qed.

(** Looking a user up by session id touches the users table only, and
    adds at most the row of that session id. *)
Lemma User_by_session_id_frame (sid : string) (s : state) :
  ∃ u s', User_by_session_id sid true s = (Ok u, s')
    ∧ self s' = self s ∧ now s' = now s ∧ mule s' = mule s
    ∧ db s' = set_users (users (db s')) (next_user_id (db s')) (db s)
    ∧ (users (db s') = users (db s)
       ∨ (session_id u = sid ∧ users (db s') = users (db s) ++ [u])).
Proof.
  unfold User_by_session_id, mbind, M_bind, gets, mret, M_ret, modify_db,
    modify. simpl.
  destruct (list_find _ _) as [[i u]|]; simpl.
  - exists u, s. rewrite set_users_same. auto 10.
  - eexists _, _. split; [reflexivity|]. simpl.
    destruct s as [me d t mu dk]; destruct d; simpl. auto 10.
Qed.


Lemma rate_limit_hit (cfg : Config) (user : User) (s : state) (p : perm_row) :
  _perm_cache (self s) !! user_id user = Some p ->
  rate_limit cfg user s =
    if negb (rate_limit_size cfg =? 0) && negb (is_admin p)
       && bool_decide (rate_limit_size cfg ≤
            recent_count cfg (id (self s)) (user_id user) (now s)
              (messages (db s)))
    then (Raise PostRateLimited, s)
    else (Ok tt, s).
Proof.
  intros Hc. unfold rate_limit.
  destruct (rate_limit_size cfg =? 0); simpl; [reflexivity|].
  unfold check_admin.
  erewrite bind_ok by (apply check_permission_hit; exact Hc).
  unfold decide_permission; simpl.
  destruct (is_admin p); simpl; [reflexivity|].
  unfold mbind, M_bind, gets; simpl.
  destruct (decide _) as [H|H].
  - rewrite bool_decide_eq_true_2 by exact H. reflexivity.
  - rewrite bool_decide_eq_false_2 by exact H. reflexivity.
Qed.







End posting.

Section stored_body.

(** one step of a run: case analysis on the result of the first action *)
Ltac mcase :=
  unfold mbind at 1, M_bind at 1;
  match goal with
  | |- (match ?x with _ => _ end = _) -> _ =>
      destruct x as [[?|?] ?] eqn:?
  end.

Lemma add_post_store_stores (cfg : Config) (user : User)
    (data sig : list byte) (wu : option User) (wm : bool) (files_ : list Z)
    (filtered : bool) (s : state) (msg : post_details) (s' : state) :
  add_post_store cfg user data sig wu wm files_ filtered s = (Ok msg, s') ->
  p_data msg = data ∧
  ∃ row, row ∈ messages (db s') ∧ m_id row = p_id msg
    ∧ m_data row = Some data ∧ m_data_size row = length data.
Proof.
  unfold add_post_store. rewrite remove_padding_id.
  unfold mbind at 1, M_bind at 1.
  destruct (rate_limit cfg user s) as [[[]|e] s1]; [|discriminate].
  unfold insert_message, _own_files, mbind, M_bind, gets, mret, M_ret,
    modify_db, modify, raise.
  destruct s1 as [me d t mu dk]. simpl.
  destruct (decide (rooms d !! id me = None)) as [E|_]; [discriminate|].
  set (row := {| m_id := next_message_id d; m_room := id me |}).
  assert (Hin : row ∈ messages d ++ [row]).
  { apply elem_of_app. right. apply list_elem_of_singleton. reflexivity. }
  destruct files_ as [|f fs]; simpl;
    destruct (list_find _ _) as [[i found]|]; try discriminate;
    intros [= <- <-]; simpl; (split; [reflexivity|]);
    exists row; simpl; auto.
Qed.

Lemma add_post_stores (cfg : Config) (user : User)
    (data sig : list byte) (w : option whisper_target) (wm : bool)
    (files_ : list Z) (s : state) (msg : post_details) (s' : state) :
  add_post cfg user (Some data) (Some sig) w wm files_ s = (Ok msg, s') ->
  p_data msg = data ∧
  ∃ row, row ∈ messages (db s') ∧ m_id row = p_id msg
    ∧ m_data row = Some data ∧ m_data_size row = length data.
Proof.
  unfold add_post.
  mcase; [|discriminate].
  destruct (negb _); [discriminate|].
  destruct (decide _); [discriminate|].
  mcase; [|discriminate].
  mcase; [|discriminate].
  mcase; [|discriminate].
  unfold mbind at 1, M_bind at 1. unfold transaction.
  match goal with
  | |- context [add_post_store ?c ?u ?d ?g ?x ?y ?z ?f ?st] =>
      destruct (add_post_store c u d g x y z f st) as [[m|e] s5] eqn:Hstore;
        [|discriminate]
  end.
  unfold send_mule, mbind, M_bind, modify, mret, M_ret. simpl.
  intros [= <- <-]. simpl.
  exact (add_post_store_stores _ _ _ _ _ _ _ _ _ _ _ Hstore).
Qed.

End stored_body.

(** C9.  Round trip of the padding codec:
    [add_session_message_padding(remove_session_message_padding(d), len(d))]
    is [d].  It holds for every byte sequence [d], so in particular for
    those whose trailing bytes are not a spurious 0x80/0x00 run. *)
Theorem padding_round_trip (d : list byte) :
  utils.add_session_message_padding
    (utils.remove_session_message_padding d) (length d) = d.
Proof. rewrite remove_padding_id. apply add_padding_same_length. Qed.

(** C10.  [remove_session_message_padding] returns its argument unchanged:
    the final byte, an [int], is compared with two [bytes] objects, so the
    stripping branch is never entered.  Hence whenever [add_post] returns,
    the row it stored carries the body as it was given, padding included,
    together with its full length. *)
Theorem padding_is_never_removed :
  (∀ data : list byte, utils.remove_session_message_padding data = data)
  ∧ (∀ (cfg : Config) (user : User) (data sig : list byte)
       (w : option whisper_target) (wm : bool) (files_ : list Z)
       (s s' : state) (msg : post_details),
       add_post cfg user (Some data) (Some sig) w wm files_ s = (Ok msg, s') ->
       ∃ row, row ∈ messages (db s') ∧ m_id row = p_id msg
         ∧ m_data row = Some data ∧ m_data_size row = length data).
Proof.
  split; [exact remove_padding_id|].
  intros cfg user data sig w wm files_ s s' msg H.
  exact (proj2 (add_post_stores _ _ _ _ _ _ _ _ _ _ H)).
Qed.

Lemma padding_is_never_removed_witness :
  let r := add_post default_config examples.alice (Some examples.padded)
             (Some examples.sig64) None false [] examples.s0 in
  ∃ msg, fst r = Ok msg ∧
    ∃ row, row ∈ messages (db (snd r)) ∧ m_id row = p_id msg
      ∧ m_data row = Some examples.padded
      ∧ m_data_size row = length examples.padded.
Proof.
  eexists. split; [vm_compute; reflexivity|].
  eapply (proj2 padding_is_never_removed default_config examples.alice
            examples.padded examples.sig64 None false [] examples.s0).
  vm_compute. reflexivity.
Defined.

(** ** The rate limit *)

Section rate_limit.


End rate_limit.




(** ** Permission lookups leave the database alone *)

Section lookups.

Lemma after_resolve_disk s u : disk (after_resolve s u) = disk s.
Proof.
  unfold after_resolve.
  destruct (_ !! _); [reflexivity|]. destruct (user_permissions _ _ _); reflexivity.
Qed.

Lemma same_but_cache_refl s : same_but_cache s s.
Proof. unfold same_but_cache. auto 10. Qed.

Lemma same_but_cache_trans s1 s2 s3 :
  same_but_cache s1 s2 -> same_but_cache s2 s3 -> same_but_cache s1 s3.
Proof.
  intros (A1 & A2 & A3 & A4 & A5 & A6) (B1 & B2 & B3 & B4 & B5 & B6).
  unfold same_but_cache. repeat split; try congruence;
    intros u; rewrite B6; apply A6.
Qed.

Lemma same_but_cache_after_resolve s u : same_but_cache s (after_resolve s u).
Proof.
  unfold same_but_cache.
  rewrite after_resolve_db, after_resolve_now, after_resolve_mule,
    after_resolve_disk, after_resolve_id.
  repeat split; intros v; apply resolved_after_resolve.
Qed.

Lemma check_permission_frame (u : User) (req : requirements) (s : state)
    (p : perm_row) :
  resolved_row s u = Some p ->
  ∃ s', check_permission (Some u) req s = (Ok (decide_permission p req), s')
    ∧ same_but_cache s s'.
Proof.
  intros Hp. exists (after_resolve s u). split.
  - rewrite check_permission_run, Hp. reflexivity.
  - apply same_but_cache_after_resolve.
Qed.

(** Whatever its outcome, a check changes nothing but the cache. *)
Lemma check_permission_same (u : option User) (req : requirements) (s : state) :
  same_but_cache s (snd (check_permission u req s)).
Proof.
  destruct u as [u|].
  - rewrite check_permission_run. destruct (resolved_row s u); simpl.
    + apply same_but_cache_after_resolve.
    + apply same_but_cache_refl.
  - rewrite check_permission_anonymous. apply same_but_cache_refl.
Qed.

End lookups.

(** ** Bans *)

Section bans.

Lemma decide_permission_req_admin (p : perm_row) :
  decide_permission p req_admin = is_admin p.
Proof. unfold decide_permission. simpl. destruct (is_admin p); reflexivity. Qed.

(** A ban that passes the checks of [ban_user]: the override of the target
    is set, its pending unbans are dropped and, for a truthy timeout, one
    unban is scheduled. *)
Lemma ban_user_run (cfg : Config) (to_ban mod_ : User) (timeout : option Z)
    (s : state) (pm pt : perm_row) :
  let target := fst (check_blinding cfg (db s) to_ban) in
  let key := (id (self s), user_id target) in
  resolved_row s mod_ = Some pm ->
  decide_permission pm req_moderator = true ->
  user_id target ≠ user_id mod_ ->
  global_moderator target = false ->
  resolved_row s target = Some pt ->
  (decide_permission pt req_moderator = true -> is_admin pm = true) ->
  ∃ s', ban_user cfg to_ban mod_ timeout s = (Ok tt, s')
    ∧ user_permission_overrides (db s') =
        <[key := set_ban (Some true) (Some false) (Some false)
                   (default empty_override
                      (user_permission_overrides (db s) !! key))]>
          (user_permission_overrides (db s))
    ∧ user_ban_futures (db s') =
        filter (fun f => ¬ is_unban_of (id (self s)) (user_id target) f)
          (user_ban_futures (db s))
        ++ (if py.truthy_num timeout
            then [{| bf_room := id (self s); bf_user := user_id target;
                     bf_at := now s + default 0 timeout;
                     bf_banned := false |}]
            else [])
    ∧ messages (db s') = messages (db s)
    ∧ _perm_cache (self s') !! user_id target = None.
Proof.
  intros target key Hpm Hmod Hne Hglob Hpt Hadm.
  subst key target.
  unfold ban_user, ban_user_body.
  unfold mbind at 1, M_bind at 1. unfold transaction.
  unfold mbind at 1, M_bind at 1, gets at 1.
  destruct (check_blinding cfg (db s) to_ban) as [tb need] eqn:Hcb.
  simpl in Hne, Hglob, Hpt |- *.
  unfold check_moderator, check_admin.
  destruct (check_permission_frame mod_ req_moderator s pm Hpm)
    as (s1 & R1 & F1).
  erewrite bind_ok by exact R1. rewrite Hmod. simpl.
  destruct (decide (user_id tb = user_id mod_)) as [E|_]; [contradiction|].
  rewrite Hglob.
  assert (Hfail : ∃ s2,
    (target_mod ← check_permission (Some tb) req_moderator;
     if (target_mod : bool)
     then a ← check_permission (Some mod_) req_admin; mret (negb a)
     else mret false) s1 = (Ok false, s2) ∧ same_but_cache s s2).
  { destruct (check_permission_frame tb req_moderator s1 pt) as (s2 & R2 & F2).
    { destruct F1 as (_ & _ & _ & _ & _ & F1). rewrite F1. exact Hpt. }
    erewrite bind_ok by exact R2.
    pose proof (same_but_cache_trans _ _ _ F1 F2) as F12.
    destruct (decide_permission pt req_moderator) eqn:Et.
    - destruct (check_permission_frame mod_ req_admin s2 pm) as (s3 & R3 & F3).
      { destruct F12 as (_ & _ & _ & _ & _ & F). rewrite F. exact Hpm. }
      erewrite bind_ok by exact R3.
      rewrite decide_permission_req_admin, (Hadm eq_refl). simpl.
      exists s3. split; [reflexivity|].
      exact (same_but_cache_trans _ _ _ F12 F3).
    - exists s2. split; [reflexivity|]. exact F12. }
  destruct Hfail as (s2 & R2 & (Fdb & Fnow & Fmule & Fdisk & Fid & _)).
  erewrite bind_ok by exact R2.
  unfold mbind, M_bind, gets, modify_db, modify, mret, M_ret,
    record_needs_blinding, evict, modify_self.
  destruct s2 as [me2 d2 t2 mu2 dk2]. simpl in *. subst d2 t2.
  rewrite Fid.
  destruct (py.truthy_num timeout), need; simpl;
    (eexists; split; [reflexivity|]); simpl;
    rewrite ?lookup_delete_eq, ?app_nil_r; auto.
Qed.

Lemma unban_user_run (to_unban mod_ : User) (s : state) :
  let r := unban_user to_unban mod_ s in
  let key := (id (self s), user_id to_unban) in
  user_ban_futures (db (snd r)) = user_ban_futures (db s)
  ∧ (fst r = Ok true ->
     (user_permission_overrides (db s) !! key ≫= o_banned) = Some true
     ∧ (user_permission_overrides (db (snd r)) !! key ≫= o_banned)
         = Some false).
Proof.
  cbv zeta. unfold unban_user, check_moderator.
  pose proof (check_permission_same (Some mod_) req_moderator s) as F.
  unfold mbind, M_bind, gets, modify_db, modify, mret, M_ret, evict,
    modify_self, raise.
  destruct (check_permission (Some mod_) req_moderator s) as [[b|e] s1];
    simpl in F; destruct F as (Fdb & _ & _ & _ & Fid & _); simpl;
    [|split; [congruence | discriminate]].
  destruct b; simpl; [|split; [congruence | discriminate]].
  rewrite Fdb, Fid.
  destruct (user_permission_overrides (db s) !! _) as [o|] eqn:Ho;
    simpl; [|split; [congruence | discriminate]].
  destruct (o_banned o) as [[|]|] eqn:Hb; simpl;
    try (split; [congruence | discriminate]).
  rewrite Fdb. split; [reflexivity|]. intros _.
  split; [reflexivity|]. rewrite lookup_insert_eq. reflexivity.
Qed.

(** The other mutations of the override row read and write no scheduled
    row. *)
Lemma unban_user_futures (to_unban mod_ : User) (s : state) :
  futures_untouched (db s) (db (snd (unban_user to_unban mod_ s))).
Proof.
  unfold unban_user, check_moderator.
  pose proof (check_permission_same (Some mod_) req_moderator s) as F.
  unfold mbind, M_bind, gets, modify_db, modify, mret, M_ret, evict,
    modify_self, raise.
  destruct (check_permission (Some mod_) req_moderator s) as [[b|e] s1];
    simpl in F; destruct F as (Fdb & _); simpl;
    [|rewrite Fdb; split; reflexivity].
  destruct b; simpl; [|rewrite Fdb; split; reflexivity].
  destruct (user_permission_overrides (db s1) !! _) as [o|];
    simpl; [|rewrite Fdb; split; reflexivity].
  destruct (default false (o_banned o)); simpl; rewrite Fdb; split; reflexivity.
Qed.

Lemma set_moderator_futures (cfg : Config) (user added_by : User)
    (admin_ : option bool) (visible : bool) (s : state) :
  futures_untouched (db s)
    (db (snd (set_moderator cfg user added_by admin_ visible s))).
Proof.
  unfold set_moderator, check_admin.
  pose proof (check_permission_same (Some added_by) req_admin s) as F.
  unfold transaction, mbind, M_bind, gets, modify_db, modify, mret, M_ret,
    evict, modify_self, raise, record_needs_blinding.
  destruct (check_permission (Some added_by) req_admin s) as [[b|e] s1];
    simpl in F; destruct F as (Fdb & _); simpl;
    [|rewrite Fdb; split; reflexivity].
  destruct b; simpl; [|rewrite Fdb; split; reflexivity].
  destruct (check_blinding cfg (db s1) user) as [u need].
  destruct need; simpl; rewrite Fdb; split; reflexivity.
Qed.

Lemma remove_moderator_futures (user removed_by : User)
    (remove_admin_only : bool) (s : state) :
  futures_untouched (db s)
    (db (snd (remove_moderator user removed_by remove_admin_only s))).
Proof.
  unfold remove_moderator, check_admin.
  pose proof (check_permission_same (Some removed_by) req_admin s) as F.
  unfold mbind, M_bind, gets, modify_db, modify, mret, M_ret,
    evict, modify_self, raise.
  destruct (check_permission (Some removed_by) req_admin s) as [[b|e] s1];
    simpl in F; destruct F as (Fdb & _); simpl;
    [|rewrite Fdb; split; reflexivity].
  destruct b; simpl; rewrite Fdb; split; reflexivity.
Qed.

Lemma set_permissions_futures (cfg : Config) (user mod_ : User) (k : perms)
    (s : state) :
  futures_untouched (db s) (db (snd (set_permissions cfg user mod_ k s))).
Proof.
  unfold set_permissions, check_moderator.
  destruct (no_perms k); [split; reflexivity|].
  pose proof (check_permission_same (Some mod_) req_moderator s) as F.
  unfold transaction, mbind, M_bind, gets, modify_db, modify, mret, M_ret,
    evict, modify_self, raise, record_needs_blinding.
  destruct (check_permission (Some mod_) req_moderator s) as [[b|e] s1];
    simpl in F; destruct F as (Fdb & _); simpl;
    [|rewrite Fdb; split; reflexivity].
  destruct b; simpl; [|rewrite Fdb; split; reflexivity].
  destruct (check_blinding cfg (db s1) user) as [u need].
  destruct need; simpl; rewrite Fdb; split; reflexivity.
Qed.

End bans.

(** C3.  The code at the failing input, and next to it: a ban with a
    timeout [T <= 0] that passes the checks of [ban_user] does set the
    banned override.  For [T < 0] it also schedules the unban, at
    [now + T].  For [T = 0] the [if timeout:] test is false and nothing is
    scheduled: no unban of the user is left in user_ban_futures, and the ban
    is permanent. *)
Theorem ban_user_nonpositive_timeout
    (cfg : Config) (to_ban mod_ : User) (T : Z) (s : state)
    (pm pt : perm_row) :
  let target := fst (check_blinding cfg (db s) to_ban) in
  let key := (id (self s), user_id target) in
  resolved_row s mod_ = Some pm ->
  decide_permission pm req_moderator = true ->
  user_id target ≠ user_id mod_ ->
  global_moderator target = false ->
  resolved_row s target = Some pt ->
  (decide_permission pt req_moderator = true -> is_admin pm = true) ->
  T ≤ 0 ->
  let r := ban_user cfg to_ban mod_ (Some T) s in
  fst r = Ok tt
  ∧ (user_permission_overrides (db (snd r)) !! key ≫= o_banned) = Some true
  ∧ (T < 0 ->
     {| bf_room := id (self s); bf_user := user_id target;
        bf_at := now s + T; bf_banned := false |}
       ∈ user_ban_futures (db (snd r)))
  ∧ (T = 0 ->
     ∀ f, f ∈ user_ban_futures (db (snd r)) ->
          ¬ is_unban_of (id (self s)) (user_id target) f).
Proof.
  intros target key Hpm Hmod Hne Hglob Hpt Hadm HT r.
  destruct (ban_user_run cfg to_ban mod_ (Some T) s pm pt
              Hpm Hmod Hne Hglob Hpt Hadm)
    as (s' & Hrun & Hov & Hfut & _ & _).
  subst r target key. rewrite Hrun. simpl. rewrite Hov, Hfut.
  split; [reflexivity|]. split; [|split].
  - rewrite lookup_insert_eq. reflexivity.
  - intros Hlt. apply elem_of_app. right. unfold py.truthy_num.
    replace (T =? 0) with false by (symmetry; apply Z.eqb_neq; lia).
    simpl. apply list_elem_of_singleton. reflexivity.
  - intros -> f Hin. simpl in Hin. rewrite app_nil_r in Hin.
    apply list_elem_of_filter in Hin. exact (proj1 Hin).
Qed.

Lemma ban_user_nonpositive_timeout_witness :
  let r := ban_user default_config examples.bob examples.carol (Some 0)
             examples.s0 in
  fst r = Ok tt
  ∧ (user_permission_overrides (db (snd r)) !! (10, 2) ≫= o_banned)
      = Some true
  ∧ (0 < 0 ->
     {| bf_room := 10; bf_user := 2; bf_at := 1000 + 0; bf_banned := false |}
       ∈ user_ban_futures (db (snd r)))
  ∧ (0 = 0 ->
     ∀ f, f ∈ user_ban_futures (db (snd r)) -> ¬ is_unban_of 10 2 f).
Proof.
  apply (ban_user_nonpositive_timeout default_config examples.bob
           examples.carol 0 examples.s0 examples.moderator_row
           examples.default_row).
  - reflexivity.
  - reflexivity.
  - simpl. discriminate.
  - reflexivity.
  - reflexivity.
  - simpl. discriminate.
  - lia.
Defined.

(** C7, as the code has it.  A ban that passes the checks of [ban_user]
    deletes, in the transaction that sets the banned override, every pending
    unban of the banned user in the room; the only unban left afterwards is
    the one the call itself schedules for a truthy timeout.  [unban_user]
    never touches user_ban_futures: when it returns true the banned
    override, which was set, has been cleared, and every scheduled row is
    still there.  Nor do [set_moderator], [remove_moderator] and
    [set_permissions] read or write a scheduled row. *)
Theorem futures_after_ban_and_unban :
  (∀ (cfg : Config) (to_ban mod_ : User) (timeout : option Z) (s : state)
     (pm pt : perm_row),
     let target := fst (check_blinding cfg (db s) to_ban) in
     let key := (id (self s), user_id target) in
     resolved_row s mod_ = Some pm ->
     decide_permission pm req_moderator = true ->
     user_id target ≠ user_id mod_ ->
     global_moderator target = false ->
     resolved_row s target = Some pt ->
     (decide_permission pt req_moderator = true -> is_admin pm = true) ->
     let r := ban_user cfg to_ban mod_ timeout s in
     fst r = Ok tt
     ∧ (user_permission_overrides (db (snd r)) !! key ≫= o_banned)
         = Some true
     ∧ ∀ f, f ∈ user_ban_futures (db (snd r)) ->
            is_unban_of (id (self s)) (user_id target) f ->
            py.truthy_num timeout = true
            ∧ f = {| bf_room := id (self s); bf_user := user_id target;
                     bf_at := now s + default 0 timeout;
                     bf_banned := false |})
  ∧ (∀ (to_unban mod_ : User) (s : state),
       let r := unban_user to_unban mod_ s in
       let key := (id (self s), user_id to_unban) in
       user_ban_futures (db (snd r)) = user_ban_futures (db s)
       ∧ (fst r = Ok true ->
          (user_permission_overrides (db s) !! key ≫= o_banned) = Some true
          ∧ (user_permission_overrides (db (snd r)) !! key ≫= o_banned)
              = Some false))
  ∧ (∀ (cfg : Config) (user actor : User) (s : state),
       futures_untouched (db s) (db (snd (unban_user user actor s)))
       ∧ (∀ (admin_ : option bool) (visible : bool),
            futures_untouched (db s)
              (db (snd (set_moderator cfg user actor admin_ visible s))))
       ∧ (∀ remove_admin_only : bool,
            futures_untouched (db s)
              (db (snd (remove_moderator user actor remove_admin_only s))))
       ∧ (∀ k : perms,
            futures_untouched (db s)
              (db (snd (set_permissions cfg user actor k s))))).
Proof.
  split; [|split]; cycle 2.
  { intros cfg user actor s.
    split; [apply unban_user_futures|].
    split; [intros; apply set_moderator_futures|].
    split; [intros; apply remove_moderator_futures|].
    intros; apply set_permissions_futures. }
  - intros cfg to_ban mod_ timeout s pm pt target key
      Hpm Hmod Hne Hglob Hpt Hadm r.
    destruct (ban_user_run cfg to_ban mod_ timeout s pm pt
                Hpm Hmod Hne Hglob Hpt Hadm)
      as (s' & Hrun & Hov & Hfut & _ & _).
    subst r target key. rewrite Hrun. simpl. rewrite Hov, Hfut.
    split; [reflexivity|]. split.
    + rewrite lookup_insert_eq. reflexivity.
    + intros f Hin Hun. apply elem_of_app in Hin. destruct Hin as [Hin|Hin].
      * apply list_elem_of_filter in Hin. destruct Hin as [Hn _].
        contradiction.
      * destruct (py.truthy_num timeout).
        -- apply list_elem_of_singleton in Hin. auto.
        -- apply elem_of_nil in Hin. contradiction.
  - intros to_unban mod_ s. apply unban_user_run.
Qed.

Lemma futures_after_ban_and_unban_witness :
  let r := ban_user default_config examples.bob examples.carol (Some 60)
             examples.s_pending in
  fst r = Ok tt
  ∧ (user_permission_overrides (db (snd r)) !! (10, 2) ≫= o_banned)
      = Some true
  ∧ ∀ f, f ∈ user_ban_futures (db (snd r)) ->
         is_unban_of 10 2 f ->
         py.truthy_num (Some 60) = true
         ∧ f = {| bf_room := 10; bf_user := 2; bf_at := 1000 + 60;
                  bf_banned := false |}.
Proof.
  apply (proj1 futures_after_ban_and_unban default_config examples.bob
           examples.carol (Some 60) examples.s_pending
           examples.moderator_row examples.banned_row).
  - reflexivity.
  - reflexivity.
  - simpl. discriminate.
  - reflexivity.
  - reflexivity.
  - simpl. discriminate.
Defined.

(** The claim as stated fails: carol lifts bob's timed ban; the call returns
    true and the unban scheduled for time 2000 is still pending. *)
Lemma unban_keeps_future_counterexample :
  ¬ (∀ (to_unban mod_ : User) (s : state),
       fst (unban_user to_unban mod_ s) = Ok true ->
       ∀ f, f ∈ user_ban_futures (db (snd (unban_user to_unban mod_ s))) ->
            ¬ is_unban_of (id (self s)) (user_id to_unban) f).
Proof.
  intros H.
  apply (H examples.bob examples.carol examples.s_pending eq_refl
           {| bf_room := 10; bf_user := 2; bf_at := 2000;
              bf_banned := false |}).
  - vm_compute. apply list_elem_of_here.
  - repeat split.
Qed.

(** ** The sweeper *)

Section sweeper.
Import cleanup.

Lemma bans_untouched_refl d : bans_untouched d d.
Proof. split; reflexivity. Qed.

Lemma bans_untouched_trans d1 d2 d3 :
  bans_untouched d1 d2 -> bans_untouched d2 d3 -> bans_untouched d1 d3.
Proof.
  intros [A1 A2] [B1 B2]. split; [congruence|].
  intros key. rewrite B2. apply A2.
Qed.

Lemma unlink_all_db (cfg : Config) (paths : list string) (s : state) :
  unlink_all cfg paths s = (Ok tt, snd (unlink_all cfg paths s))
  ∧ db (snd (unlink_all cfg paths s)) = db s.
Proof.
  revert s. induction paths as [|p rest IH]; intros s; [split; reflexivity|].
  simpl. unfold mbind, M_bind, unlink, modify, mret, M_ret.
  destruct (unlink_fails cfg p); simpl.
  - destruct (IH s) as [E1 E2]. rewrite E1. simpl. auto.
  - destruct (IH (set_disk (filter (λ q, q ≠ p) (disk s)) s)) as [E1 E2].
    rewrite E1. simpl. split; [reflexivity|]. rewrite E2. reflexivity.
Qed.

Lemma prune_files_bans (cfg : Config) (s : state) :
  bans_untouched (db s) (db (snd (prune_files cfg s))).
Proof.
  unfold prune_files, transaction, mbind, M_bind, gets, modify_db, modify,
    mret, M_ret. simpl.
  destruct (f_path <$> filter (expired_before (now s)) (files (db s)))
    as [|p rest]; simpl; [apply bans_untouched_refl|].
  change (unlink cfg p ≫= (λ _, unlink_all cfg rest))
    with (unlink_all cfg (p :: rest)).
  match goal with
  | |- context [unlink_all cfg ?l ?st] =>
      destruct (unlink_all_db cfg l st) as [E1 E2]; rewrite E1;
      cbv beta iota; cbn [snd]; rewrite E2
  end.
  split; reflexivity.
Qed.

Lemma prune_message_history_bans (cfg : Config) (s : state) :
  bans_untouched (db s) (db (snd (prune_message_history cfg s))).
Proof. split; reflexivity. Qed.

Lemma prune_room_activity_bans (cfg : Config) (s : state) :
  bans_untouched (db s) (db (snd (prune_room_activity cfg s))).
Proof. split; reflexivity. Qed.

Lemma apply_future_banned (ov : gmap (Z * Z) override) (f : perm_future)
    (key : Z * Z) :
  (apply_future ov f !! key ≫= o_banned) = (ov !! key ≫= o_banned).
Proof.
  unfold apply_future.
  destruct (decide ((pf_room f, pf_user f) = key)) as [<-|N].
  - destruct (ov !! (pf_room f, pf_user f)) as [o|] eqn:Ho;
      rewrite lookup_insert_eq; reflexivity.
  - destruct (ov !! (pf_room f, pf_user f));
      rewrite lookup_insert_ne by exact N; reflexivity.
Qed.

Lemma apply_futures_banned (due : list perm_future)
    (ov : gmap (Z * Z) override) (key : Z * Z) :
  (foldl apply_future ov due !! key ≫= o_banned) = (ov !! key ≫= o_banned).
Proof.
  revert ov. induction due as [|f rest IH]; intros ov; [reflexivity|].
  simpl. rewrite IH. apply apply_future_banned.
Qed.

Lemma apply_permission_updates_bans (s : state) :
  bans_untouched (db s) (db (snd (apply_permission_updates s))).
Proof.
  unfold apply_permission_updates, transaction, mbind, M_bind, gets,
    modify_db, modify, mret, M_ret. simpl.
  destruct (decide _); simpl; (split; [reflexivity|]);
    intros key; simpl; apply apply_futures_banned.
Qed.

End sweeper.

(** C4, the code at and around the failing input.  A cycle of the sweeper
    ([test_timer]) prunes files, message history and room activity and
    applies the due rows of user_permission_futures; it never reads
    user_ban_futures.  After a cycle every ban-future row, due or not, is
    still there, and the banned flag of every override is what it was. *)
Theorem sweeper_leaves_ban_futures (cfg : Config) (s : state) :
  let s' := snd (cleanup.test_timer cfg s) in
  user_ban_futures (db s') = user_ban_futures (db s)
  ∧ ∀ key : Z * Z,
      (user_permission_overrides (db s') !! key ≫= o_banned)
      = (user_permission_overrides (db s) !! key ≫= o_banned).
Proof.
  cbv zeta. change (bans_untouched (db s) (db (snd (cleanup.test_timer cfg s)))).
  unfold cleanup.test_timer.
  pose proof (prune_files_bans cfg s) as H1.
  unfold mbind at 1, M_bind at 1.
  destruct (cleanup.prune_files cfg s) as [[n1|e] s1]; [|exact H1].
  pose proof (prune_message_history_bans cfg s1) as H2.
  unfold mbind at 1, M_bind at 1.
  destruct (cleanup.prune_message_history cfg s1) as [[n2|e] s2];
    [|exact (bans_untouched_trans _ _ _ H1 H2)].
  pose proof (prune_room_activity_bans cfg s2) as H3.
  unfold mbind at 1, M_bind at 1.
  destruct (cleanup.prune_room_activity cfg s2) as [[n3|e] s3];
    [|exact (bans_untouched_trans _ _ _ H1 (bans_untouched_trans _ _ _ H2 H3))].
  pose proof (apply_permission_updates_bans s3) as H4.
  unfold mbind at 1, M_bind at 1.
  destruct (cleanup.apply_permission_updates s3) as [[n4|e] s4];
    exact (bans_untouched_trans _ _ _ H1
             (bans_untouched_trans _ _ _ H2
                (bans_untouched_trans _ _ _ H3 H4))).
Qed.

(** bob's ban ran out five seconds ago; after a cycle the unban is still
    scheduled and bob is still banned. *)
Example sweeper_cycle_on_due_unban :
  let s' := snd (cleanup.test_timer default_config examples.s_due) in
  user_ban_futures (db s')
    = [{| bf_room := 10; bf_user := 2; bf_at := 995; bf_banned := false |}]
  ∧ fst (check_read (Some examples.bob) s') = Ok false.
Proof. vm_compute. split; reflexivity. Qed.

(** ** The message sequence *)

Section sequence.

Lemma set_sequence_same (row : room_row) :
  set_sequence (r_message_sequence row + 0) row = row.
Proof.
  destruct row. unfold set_sequence. simpl. rewrite Z.add_0_r. reflexivity.
Qed.

Lemma sequences_advance_refl (d : DB) : sequences_advance d d.
Proof.
  intros rid row H. exists 0. rewrite set_sequence_same.
  split; [exact H|]. split; [lia|]. intros N. contradiction.
Qed.

Lemma sequences_advance_trans (d1 d2 d3 : DB) :
  sequences_advance d1 d2 -> sequences_advance d2 d3 ->
  sequences_advance d1 d3.
Proof.
  intros H12 H23 rid row H.
  destruct (H12 rid row H) as (n & Hn & Hpos & Hstrict).
  destruct (H23 rid _ Hn) as (k & Hk & Hkpos & Hkstrict).
  exists (n + k). split.
  - rewrite Hk. unfold set_sequence. simpl.
    replace (r_message_sequence row + n + k)
      with (r_message_sequence row + (n + k)) by lia.
    reflexivity.
  - split; [lia|]. intros N.
    destruct (decide (messages_of rid d2 = messages_of rid d1)) as [E|E].
    + rewrite <- E in N. specialize (Hkstrict N). lia.
    + specialize (Hstrict E). lia.
Qed.

(** a change to tables other than rooms and messages *)
Lemma sequences_advance_same (d d' : DB) :
  rooms d' = rooms d -> messages d' = messages d -> sequences_advance d d'.
Proof.
  intros Hr Hm rid row H. exists 0. rewrite set_sequence_same, Hr.
  split; [exact H|]. split; [lia|].
  unfold messages_of. rewrite Hm. intros N. contradiction.
Qed.

Lemma lookup_bump (r rid : Z) (rs : gmap Z room_row) (row : room_row) :
  rs !! rid = Some row ->
  bump r rs !! rid =
    Some (set_sequence (r_message_sequence row + (if decide (r = rid) then 1 else 0))
            row).
Proof.
  intros H. unfold bump. destruct (decide (r = rid)) as [->|N].
  - rewrite lookup_alter_eq, H. reflexivity.
  - rewrite lookup_alter_ne by exact N. rewrite H, set_sequence_same.
    reflexivity.
Qed.

(** One statement over the messages table. *)
Lemma stamp_rows_advance (hit : message -> bool) (change : message -> message)
    (rows : list message) :
  (∀ m, m_room (change m) = m_room m) ->
  ∀ (rs : gmap Z room_row) (rid : Z) (row : room_row),
    rs !! rid = Some row ->
    ∃ n : Z,
      snd (stamp_rows hit change rows rs) !! rid
        = Some (set_sequence (r_message_sequence row + n) row)
      ∧ 0 ≤ n
      ∧ (filter (fun m => m_room m = rid) (fst (stamp_rows hit change rows rs))
           ≠ filter (fun m => m_room m = rid) rows -> 0 < n).
Proof.
  intros Hroom. induction rows as [|m rest IH]; intros rs rid row H.
  - exists 0. simpl. rewrite set_sequence_same.
    split; [exact H|]. split; [lia|]. intros N. contradiction.
  - simpl. destruct (hit m) eqn:Hhit.
    + pose proof (lookup_bump (m_room m) rid rs row H) as Hb.
      destruct (IH _ rid _ Hb) as (n & Hn & Hpos & Hstrict).
      destruct (stamp_rows hit change rest (bump (m_room m) rs))
        as [rest' rs2] eqn:E. simpl in *.
      exists ((if decide (m_room m = rid) then 1 else 0) + n). split.
      * rewrite Hn. unfold set_sequence. simpl.
        replace (r_message_sequence row
                 + (if decide (m_room m = rid) then 1 else 0) + n)
          with (r_message_sequence row
                + ((if decide (m_room m = rid) then 1 else 0) + n)) by lia.
        reflexivity.
      * destruct (decide (m_room m = rid)) as [Heq|Hne].
        -- split; [lia|]. intros _. lia.
        -- split; [lia|]. intros N. apply Hstrict. intros Hrest. apply N.
           rewrite !filter_cons. simpl. rewrite Hroom.
           destruct (decide (m_room m = rid)); [contradiction|]. exact Hrest.
    + destruct (IH rs rid row H) as (n & Hn & Hpos & Hstrict).
      destruct (stamp_rows hit change rest rs) as [rest' rs2] eqn:E.
      simpl in *. exists n. split; [exact Hn|]. split; [exact Hpos|].
      intros N. apply Hstrict. intros Hrest. apply N.
      rewrite !filter_cons. rewrite Hrest. reflexivity.
Qed.

Lemma run_statement_advance (hit : message -> bool)
    (change : message -> message) (d : DB) :
  (∀ m, m_room (change m) = m_room m) ->
  sequences_advance d (run_statement hit change d).
Proof.
  intros Hroom rid row H.
  destruct (stamp_rows_advance hit change (messages d) Hroom (rooms d) rid row H)
    as (n & Hn & Hpos & Hstrict).
  unfold run_statement, messages_of.
  destruct (stamp_rows hit change (messages d) (rooms d)) as [rows rs].
  simpl in *. exists n. auto.
Qed.

(** Rows a statement does not hit stay as they are. *)
Lemma stamp_rows_keeps (hit : message -> bool) (change : message -> message)
    (m : message) (rows : list message) (rs : gmap Z room_row) :
  m ∈ rows -> hit m = false -> m ∈ fst (stamp_rows hit change rows rs).
Proof.
  revert rs. induction rows as [|x rest IH]; intros rs Hin Hhit.
  - apply elem_of_nil in Hin. contradiction.
  - simpl. apply elem_of_cons in Hin.
    destruct (hit x) eqn:Hx.
    + destruct (stamp_rows hit change rest (bump (m_room x) rs))
        as [rest' rs2] eqn:E. simpl.
      destruct Hin as [->|Hin]; [congruence|].
      apply list_elem_of_further.
      specialize (IH (bump (m_room x) rs) Hin Hhit). rewrite E in IH. exact IH.
    + destruct (stamp_rows hit change rest rs) as [rest' rs2] eqn:E. simpl.
      destruct Hin as [->|Hin]; [apply list_elem_of_here|].
      apply list_elem_of_further.
      specialize (IH rs Hin Hhit). rewrite E in IH. exact IH.
Qed.

End sequence.

(** ** Deleting posts *)

Section deleting.

Lemma select_live_ids_elem (r : Z) (slice : list Z) (d : DB) (m : message) :
  m ∈ messages d -> m_room m = r -> m_data m ≠ None -> m_id m ∈ slice ->
  m_id m ∈ select_live_ids r slice d.
Proof.
  intros Hin Hr Hd Hs. unfold select_live_ids.
  apply list_elem_of_fmap_2. apply list_elem_of_filter. auto.
Qed.

Lemma exists_foreign_true (u : Z) (ids : list Z) (d : DB) (m : message) :
  m ∈ messages d -> m_user m ≠ u -> m_id m ∈ ids ->
  exists_foreign u ids d = true.
Proof.
  intros Hin Hu Hi. unfold exists_foreign. apply bool_decide_eq_true_2.
  apply Exists_exists. exists m. auto.
Qed.

Lemma slice_covers (ids : list Z) (i j : nat) (x : Z) :
  (i ≤ j)%nat -> ids !! j = Some x ->
  x ∈ take 50 (drop i ids) ∨ (i + 50 ≤ j)%nat.
Proof.
  intros Hle Hj. destruct (decide (j < i + 50)%nat) as [Hlt|Hge]; [left|right; lia].
  apply (list_elem_of_lookup_2 _ (j - i)%nat).
  rewrite lookup_take_lt by lia. rewrite lookup_drop.
  replace (i + (j - i))%nat with j by lia. exact Hj.
Qed.

Lemma delete_posts_loop_step (fuel : nat) (ids : list Z) (deleter : User)
    (i : nat) (deleted : list Z) (s : state) :
  (i < length ids)%nat ->
  delete_posts_loop (S fuel) ids deleter i deleted s =
    let sel := select_live_ids (id (self s)) (take 50 (drop i ids)) (db s) in
    match sel with
    | [] => delete_posts_loop fuel ids deleter (i + 50)%nat deleted s
    | _ =>
        ((is_moderator ← check_moderator (Some deleter);
          (if negb is_moderator then
             d ← gets db;
             if exists_foreign (user_id deleter) sel d
             then raise BadPermission
             else mret tt
           else mret tt);;
          delete_details_by_ids sel;;
          mret (deleted ++ sel))
         ≫= (fun deleted =>
               delete_posts_loop fuel ids deleter (i + 50)%nat deleted)) s
    end.
Proof.
  intros Hlt. cbn [delete_posts_loop].
  destruct (decide (i < length ids)%nat) as [_|N]; [|contradiction].
  unfold mbind at 1, M_bind at 1, gets at 1. cbn beta iota.
  unfold mbind at 1, M_bind at 1, gets at 1. cbn beta iota.
  destruct (select_live_ids _ _ _); reflexivity.
Qed.

Lemma delete_posts_loop_rejects (deleter : User) (p : perm_row) (m : message)
    (ids : list Z) :
  decide_permission p req_moderator = false ->
  m_data m ≠ None -> m_user m ≠ user_id deleter ->
  ∀ (fuel i : nat) (deleted : list Z) (s : state),
    resolved_row s deleter = Some p ->
    m ∈ messages (db s) -> m_room m = id (self s) ->
    (∃ j, (i ≤ j)%nat ∧ ids !! j = Some (m_id m)) ->
    (length ids ≤ i + fuel)%nat ->
    ∃ s', delete_posts_loop fuel ids deleter i deleted s
            = (Raise BadPermission, s').
Proof.
  intros Hnot Hlive Hother.
  induction fuel as [|fuel IH]; intros i deleted s Hp Hin Hroom (j & Hij & Hj) Hfuel.
  - apply lookup_lt_Some in Hj. lia.
  - pose proof (lookup_lt_Some _ _ _ Hj) as Hlen.
    rewrite delete_posts_loop_step by lia. cbv zeta.
    destruct (slice_covers ids i j (m_id m) Hij Hj) as [Hslice|Hnext].
    + (* the foreign message is in this slice *)
      pose proof (select_live_ids_elem (id (self s)) _ (db s) m
                    Hin Hroom Hlive Hslice) as Hsel.
      destruct (select_live_ids (id (self s)) (take 50 (drop i ids)) (db s))
        as [|x xs] eqn:E; [apply elem_of_nil in Hsel; contradiction|].
      eexists. apply bind_raise.
      unfold check_moderator.
      erewrite bind_ok by (rewrite check_permission_run, Hp; reflexivity).
      rewrite Hnot. simpl.
      apply bind_raise. unfold mbind, M_bind, gets. simpl.
      rewrite after_resolve_db.
      rewrite (exists_foreign_true _ _ _ m Hin Hother Hsel). reflexivity.
    + destruct (select_live_ids (id (self s)) (take 50 (drop i ids)) (db s))
        as [|x xs] eqn:E.
      * apply IH; try assumption; [exists j; split; [lia|exact Hj] | lia].
      * set (sel := x :: xs) in *.
        unfold check_moderator.
        destruct (exists_foreign (user_id deleter) sel (db s)) eqn:Hex.
        -- eexists. apply bind_raise.
           erewrite bind_ok by (rewrite check_permission_run, Hp; reflexivity).
           rewrite Hnot. simpl.
           apply bind_raise. unfold mbind, M_bind, gets. simpl.
           rewrite after_resolve_db, Hex. reflexivity.
        -- assert (Hmiss : m_id m ∉ sel).
           { intros Hsel.
             rewrite (exists_foreign_true _ _ _ m Hin Hother Hsel) in Hex.
             discriminate. }
           erewrite bind_ok; cycle 1.
           { erewrite bind_ok by (rewrite check_permission_run, Hp; reflexivity).
             rewrite Hnot. simpl.
             erewrite bind_ok; cycle 1.
             { unfold mbind, M_bind, gets. simpl.
               rewrite after_resolve_db, Hex. reflexivity. }
             unfold delete_details_by_ids, mbind, M_bind, modify_db, modify,
               mret, M_ret. simpl. reflexivity. }
           apply IH.
           ++ apply resolved_cached. simpl.
              apply after_resolve_cached. exact Hp.
           ++ simpl. rewrite after_resolve_db. unfold run_statement.
              pose proof (stamp_rows_keeps
                (fun m0 => bool_decide (m_id m0 ∈ sel) && is_live m0)
                soft_delete m (messages (db s)) (rooms (db s)) Hin) as Hk.
              destruct (stamp_rows _ soft_delete (messages (db s)) (rooms (db s)))
                as [rows rs]. simpl in *. apply Hk.
              rewrite bool_decide_eq_false_2 by exact Hmiss. reflexivity.
           ++ simpl. rewrite after_resolve_id. exact Hroom.
           ++ exists j. split; [lia|exact Hj].
           ++ lia.
Qed.

End deleting.

(** C5.  When the deleter is not a moderator of the room and one of the ids
    names a message of the room that is not yet deleted and was written by
    someone else, [delete_posts] raises [BadPermission] and the database is
    what it was before the call: nothing is deleted, whichever slice of 50
    ids the foreign message falls in and whatever earlier slices did. *)
Theorem delete_posts_rejects_mixed_batch
    (ids : list Z) (deleter : User) (s : state) (p : perm_row) (m : message) :
  resolved_row s deleter = Some p ->
  decide_permission p req_moderator = false ->
  m ∈ messages (db s) ->
  m_id m ∈ ids ->
  m_room m = id (self s) ->
  m_data m ≠ None ->
  m_user m ≠ user_id deleter ->
  fst (delete_posts ids deleter s) = Raise BadPermission
  ∧ db (snd (delete_posts ids deleter s)) = db s.
Proof.
  intros Hp Hnot Hin Hid Hroom Hlive Hother.
  apply list_elem_of_lookup_1 in Hid. destruct Hid as [j Hj].
  destruct (delete_posts_loop_rejects deleter p m ids Hnot Hlive Hother
              (length ids) 0%nat [] s Hp Hin Hroom)
    as (s' & Hrun).
  { exists j. split; [lia|exact Hj]. }
  { lia. }
  unfold delete_posts. rewrite (transaction_raise _ _ _ _ Hrun).
  split; reflexivity.
Qed.

Lemma delete_posts_rejects_mixed_batch_witness :
  fst (delete_posts examples.mixed_ids examples.alice examples.s0)
    = Raise BadPermission
  ∧ db (snd (delete_posts examples.mixed_ids examples.alice examples.s0))
    = db examples.s0.
Proof.
  apply (delete_posts_rejects_mixed_batch examples.mixed_ids examples.alice
           examples.s0 examples.default_row (examples.post 2 2 200 7)).
  - reflexivity.
  - reflexivity.
  - vm_compute. apply list_elem_of_further, list_elem_of_here.
  - apply (list_elem_of_lookup_2 _ 50%nat). reflexivity.
  - reflexivity.
  - simpl. discriminate.
  - simpl. discriminate.
Defined.

(** When the second slice of that call raises, the first slice has been
    processed: inside the transaction alice's message is already deleted.
    The rollback undoes it. *)
Example first_slice_was_deleted :
  m_data <$> messages (db (snd (delete_posts_loop 51 examples.mixed_ids
                                  examples.alice 0 [] examples.s0)))
    = [None; Some [x68; x69]]
  ∧ m_data <$> messages (db (snd (delete_posts examples.mixed_ids
                                    examples.alice examples.s0)))
    = [Some [x68; x69]; Some [x68; x69]].
Proof. vm_compute. split; reflexivity. Qed.

(** ** Every operation on messages advances the sequences *)

Section advancing.

Lemma advances_ret {A} (a : A) : advances (mret a).
Proof. intros s. apply sequences_advance_refl. Qed.

Lemma advances_raise {A} (e : exc) : advances (raise (A := A) e).
Proof. intros s. apply sequences_advance_refl. Qed.

Lemma advances_gets {A} (f : state -> A) : advances (gets f).
Proof. intros s. apply sequences_advance_refl. Qed.

Lemma advances_modify_self (f : Room -> Room) : advances (modify_self f).
Proof. intros s. apply sequences_advance_refl. Qed.

Lemma advances_send_mule (m : mule_message) : advances (send_mule m).
Proof. intros s. apply sequences_advance_refl. Qed.

Lemma advances_modify_db (f : DB -> DB) :
  (∀ d, sequences_advance d (f d)) -> advances (modify_db f).
Proof. intros H s. apply H. Qed.

Lemma advances_bind {A B} (m : M A) (k : A -> M B) :
  advances m -> (∀ a, advances (k a)) -> advances (m ≫= k).
Proof.
  intros Hm Hk s. specialize (Hm s). unfold mbind, M_bind.
  destruct (m s) as [[a|e] s1]; simpl in Hm; [|exact Hm].
  exact (sequences_advance_trans _ _ _ Hm (Hk a s1)).
Qed.

Lemma advances_transaction {A} (m : M A) :
  advances m -> advances (transaction m).
Proof.
  intros Hm s. specialize (Hm s). unfold transaction.
  destruct (m s) as [[a|e] s1]; simpl in *; [exact Hm|].
  apply sequences_advance_refl.
Qed.

Lemma advances_check_permission (u : option User) (req : requirements) :
  advances (check_permission u req).
Proof.
  intros s. destruct (check_permission_same u req s) as (E & _).
  rewrite E. apply sequences_advance_refl.
Qed.

Lemma advances_insert_message (r u : Z) (data : list byte) (size : nat)
    (sig : list byte) (filtered : bool) (whisper : option Z) (wm : bool) :
  advances (insert_message r u data size sig filtered whisper wm).
Proof.
  intros s. unfold insert_message, mbind, M_bind, gets, modify_db, modify,
    mret, M_ret, raise. simpl.
  destruct (decide (rooms (db s) !! r = None)); simpl;
    [apply sequences_advance_refl|].
  intros rid row H. exists (if decide (r = rid) then 1 else 0).
  simpl. split; [apply lookup_bump; exact H|].
  destruct (decide (r = rid)) as [->|N]; [split; [lia|intros _; lia]|].
  split; [lia|]. intros Hne. exfalso. apply Hne.
  unfold messages_of. simpl. rewrite filter_app, filter_cons. simpl.
  destruct (decide (r = rid)); [contradiction|].
  rewrite filter_nil. apply app_nil_r.
Qed.

Lemma advances_own_files (cfg : Config) (msg_id : Z) (fs : list Z) (u : User) :
  advances (_own_files cfg msg_id fs u).
Proof. intros s. apply sequences_advance_same; reflexivity. Qed.

Lemma advances_User_by_session_id (sid : string) (autovivify : bool) :
  advances (User_by_session_id sid autovivify).
Proof.
  intros s. unfold User_by_session_id, mbind, M_bind, gets, modify_db, modify,
    mret, M_ret, raise. simpl.
  destruct (list_find _ _) as [[i u]|]; simpl; [apply sequences_advance_refl|].
  destruct autovivify; simpl; [|apply sequences_advance_refl].
  apply sequences_advance_same; reflexivity.
Qed.

Lemma advances_update_message (msg_id : Z) (data : list byte) (size : nat)
    (sig : list byte) :
  advances (update_message msg_id data size sig).
Proof.
  unfold update_message. apply advances_modify_db. intros d.
  apply run_statement_advance. reflexivity.
Qed.

Lemma advances_delete_details_by_ids (ids : list Z) :
  advances (delete_details_by_ids ids).
Proof.
  apply advances_modify_db. intros d.
  apply run_statement_advance. reflexivity.
Qed.

Lemma advances_delete_details_by_user (r u : Z) :
  advances (delete_details_by_user r u).
Proof.
  apply advances_modify_db. intros d.
  apply run_statement_advance. reflexivity.
Qed.

(** the routine cases: binds, branches and the actions above *)
Ltac advance :=
  repeat first
    [ apply advances_ret
    | apply advances_raise
    | apply advances_gets
    | apply advances_modify_self
    | apply advances_send_mule
    | apply advances_check_permission
    | apply advances_insert_message
    | apply advances_own_files
    | apply advances_User_by_session_id
    | apply advances_update_message
    | apply advances_delete_details_by_ids
    | apply advances_delete_details_by_user
    | apply advances_transaction
    | apply advances_bind; [|intros ?]
    | match goal with
      | |- advances (if ?b then _ else _) => destruct b
      | |- advances (match ?x with _ => _ end) => destruct x
      end ].

Lemma advances_should_filter (cfg : Config) (u : User) (data : list byte) :
  advances (should_filter cfg u data).
Proof. unfold should_filter, check_admin. advance. Qed.

Lemma advances_rate_limit (cfg : Config) (u : User) :
  advances (rate_limit cfg u).
Proof. unfold rate_limit, check_admin. advance. Qed.

Lemma advances_add_post (cfg : Config) (user : User)
    (data sig : option (list byte)) (w : option whisper_target) (wm : bool)
    (fs : list Z) :
  advances (add_post cfg user data sig w wm fs).
Proof.
  unfold add_post, add_post_store, check_write, check_moderator. cbv zeta.
  pose proof advances_should_filter. pose proof advances_rate_limit.
  advance; auto.
Qed.

Lemma advances_edit_post (cfg : Config) (user : User) (msg_id : Z)
    (data sig : option (list byte)) (fs : list Z) :
  advances (edit_post cfg user msg_id data sig fs).
Proof.
  unfold edit_post, check_write. cbv zeta.
  pose proof advances_should_filter.
  advance; auto.
Qed.

Lemma advances_delete_posts_loop (ids : list Z) (deleter : User) (fuel : nat) :
  ∀ (i : nat) (deleted : list Z),
    advances (delete_posts_loop fuel ids deleter i deleted).
Proof.
  induction fuel as [|fuel IH]; intros i deleted; cbn [delete_posts_loop].
  - apply advances_ret.
  - unfold check_moderator. advance; auto.
Qed.

Lemma advances_delete_posts (ids : list Z) (deleter : User) :
  advances (delete_posts ids deleter).
Proof. apply advances_transaction, advances_delete_posts_loop. Qed.

Lemma advances_image : advances image.
Proof. unfold image. advance. Qed.

Lemma advances_delete_all_posts (poster deleter : User) :
  advances (delete_all_posts poster deleter).
Proof.
  unfold delete_all_posts, check_moderator, check_admin. cbv zeta.
  pose proof advances_image.
  advance; auto.
  apply advances_modify_db. intros d.
  apply sequences_advance_same; reflexivity.
Qed.

End advancing.

Lemma advances_run_op (cfg : Config) (op : message_op) :
  advances (run_op cfg op).
Proof.
  destruct op; simpl.
  - apply advances_bind; [apply advances_add_post|intros; apply advances_ret].
  - apply advances_edit_post.
  - apply advances_bind; [apply advances_delete_posts|intros; apply advances_ret].
  - apply advances_bind;
      [apply advances_delete_all_posts|intros; apply advances_ret].
Qed.

(** What a reload of the [Room] instance reads. *)
Lemma refresh_reads_sequence (s : state) (row : room_row) :
  rooms (db s) !! id (self s) = Some row ->
  fst (_refresh None None None false s) = Ok tt
  ∧ message_sequence (self (snd (_refresh None None None false s)))
    = r_message_sequence row.
Proof.
  intros H. unfold _refresh, room_by_id, mbind, M_bind, gets, mret, M_ret,
    modify_self, modify. simpl. rewrite H. simpl. split; reflexivity.
Qed.

(** C8.  Over a post, an edit or a deletion ([add_post], [edit_post],
    [delete_posts], [delete_all_posts]), whether it succeeds or raises, the
    message_sequence of every room is afterwards at least what it was
    before, and it is strictly greater for a room one of whose message rows
    the operation, having succeeded, inserted or changed.  The counter is
    the one of the rooms table, which a [Room] instance reads when it is
    (re)loaded. *)
Theorem message_sequence_monotone
    (cfg : Config) (op : message_op) (s : state) (rid : Z) (row : room_row) :
  rooms (db s) !! rid = Some row ->
  let r := run_op cfg op s in
  ∃ row' : room_row,
    rooms (db (snd r)) !! rid = Some row'
    ∧ r_message_sequence row ≤ r_message_sequence row'
    ∧ (fst r = Ok tt ->
       messages_of rid (db (snd r)) ≠ messages_of rid (db s) ->
       r_message_sequence row < r_message_sequence row').
Proof.
  intros H r.
  destruct (advances_run_op cfg op s rid row H) as (n & Hn & Hpos & Hstrict).
  fold r in Hn, Hstrict.
  eexists. split; [exact Hn|]. simpl. split; [lia|].
  intros _ Hne. specialize (Hstrict Hne). lia.
Qed.

Lemma message_sequence_monotone_witness :
  let r := run_op default_config
             (AddPost examples.alice (Some examples.padded)
                (Some examples.sig64) None false []) examples.s0 in
  ∃ row' : room_row,
    rooms (db (snd r)) !! 10 = Some row'
    ∧ r_message_sequence examples.lobby_row ≤ r_message_sequence row'
    ∧ (fst r = Ok tt ->
       messages_of 10 (db (snd r)) ≠ messages_of 10 (db examples.s0) ->
       r_message_sequence examples.lobby_row < r_message_sequence row').
Proof.
  apply (message_sequence_monotone default_config
           (AddPost examples.alice (Some examples.padded)
              (Some examples.sig64) None false []) examples.s0 10
           examples.lobby_row).
  reflexivity.
Defined.

(** alice posts to the lobby: the counter goes from 7 to 8 and the new row
    carries seqno 8; a reload of the instance reads 8. *)
Example sequence_after_a_post :
  let r := add_post default_config examples.alice (Some examples.padded)
             (Some examples.sig64) None false [] examples.s0 in
  (r_message_sequence <$> rooms (db (snd r)) !! 10) = Some 8
  ∧ (p_seqno <$> (match fst r with Ok m => Some m | Raise _ => None end))
      = Some 8
  ∧ message_sequence (self (snd r)) = 7
  ∧ message_sequence (self (snd (_refresh None None None false (snd r)))) = 8.
Proof. vm_compute. repeat split; reflexivity. Qed.

(** * Further properties of the code *)

Import accessors.

(** ** Padding *)

(** X1.  [add_session_message_padding(data, length)] never drops a byte of
    [data]; when [length] exceeds [len(data)] the result ends in 0x80
    followed by [length - len(data)] zero bytes and is [length + 1] bytes
    long, one more than asked for; otherwise it is [data]. *)
Theorem add_padding_shape (data : list byte) (n : nat) :
  take (length data) (utils.add_session_message_padding data n) = data
  ∧ drop (length data) (utils.add_session_message_padding data n)
    = (if decide (length data < n)%nat
       then x80 :: replicate (n - length data) x00 else [])
  ∧ length (utils.add_session_message_padding data n)
    = (if decide (length data < n)%nat then S n else length data).
Proof.
  unfold utils.add_session_message_padding.
  destruct (decide (length data < n)%nat) as [H|H].
  - rewrite take_app_length, drop_app_length. simpl.
    split; [reflexivity|]. split; [reflexivity|].
    rewrite length_app. simpl. rewrite length_replicate. lia.
  - rewrite firstn_all, drop_all. auto.
Qed.

(** ** The permission engine *)

(** A call without a user is decided on the room defaults the instance
    holds: it is never banned, it fails whenever moderator or admin is
    required, and it reads neither the database nor the cache. *)
Theorem anonymous_check (req : requirements) (s : state) :
  check_permission None req s =
    (Ok (negb (admin req) && negb (moderator req)
         && (negb (accessible req) || _default_accessible (self s)
             || _default_read (self s))
         && (negb (read req) || _default_read (self s))
         && (negb (write req) || _default_write (self s))
         && (negb (upload req) || _default_upload (self s))), s).
Proof.
  rewrite check_permission_anonymous. unfold decide_permission. simpl.
  destruct (admin req), (moderator req); reflexivity.
Qed.

(** X2.  Rank decides before anything else: whoever is not an admin fails
    every check that requires admin; an admin passes every check, and a
    moderator every check that does not require admin, whatever the banned
    flag and the capabilities say; and whoever is neither fails every check
    that requires moderator. *)
Theorem rank_decides_first
    (s : state) (u : User) (req : requirements) (p : perm_row) :
  resolved_row s u = Some p ->
  let result := fst (check_permission (Some u) req s) in
  (is_admin p = false -> admin req = true -> result = Ok false)
  ∧ (is_admin p = true ∨ (is_mod p = true ∧ admin req = false) ->
     result = Ok true)
  ∧ (is_admin p = false -> is_mod p = false -> moderator req = true ->
     result = Ok false).
Proof.
  intros Hp result. subst result. rewrite check_permission_run, Hp. simpl.
  unfold decide_permission.
  repeat split.
  - intros -> ->. reflexivity.
  - intros [->|[-> ->]]; [reflexivity|]. destruct (is_admin p); reflexivity.
  - intros -> -> ->. destruct (admin req); reflexivity.
Qed.

Lemma rank_decides_first_witness :
  let result := fst (check_permission (Some examples.carol)
                       scenarios.all_capabilities examples.s0) in
  (is_admin examples.moderator_row = false ->
   admin scenarios.all_capabilities = true -> result = Ok false)
  ∧ (is_admin examples.moderator_row = true
     ∨ (is_mod examples.moderator_row = true
        ∧ admin scenarios.all_capabilities = false) ->
     result = Ok true)
  ∧ (is_admin examples.moderator_row = false ->
     is_mod examples.moderator_row = false ->
     moderator scenarios.all_capabilities = true -> result = Ok false).
Proof.
  apply (rank_decides_first examples.s0 examples.carol
           scenarios.all_capabilities examples.moderator_row).
  reflexivity.
Defined.

(** X3.  Once an instance has looked a user up, it answers from its cache:
    whatever the database holds afterwards, every further check of that
    user returns the decision on the row first resolved and changes
    nothing. *)
Theorem cached_row_outlives_the_database
    (s : state) (u : User) (req1 req2 : requirements) (p : perm_row) (d' : DB) :
  resolved_row s u = Some p ->
  let s1 := set_db d' (snd (check_permission (Some u) req1 s)) in
  check_permission (Some u) req2 s1 = (Ok (decide_permission p req2), s1).
Proof.
  intros Hp s1. apply check_permission_hit.
  subst s1. rewrite check_permission_run, Hp. simpl.
  apply after_resolve_cached. exact Hp.
Qed.

Lemma cached_row_outlives_the_database_witness :
  let s1 := set_db (db examples.s_busy_banned)
              (snd (check_permission (Some examples.bob) req_read
                      examples.s0)) in
  check_permission (Some examples.bob) req_write s1
    = (Ok (decide_permission examples.default_row req_write), s1).
Proof.
  apply (cached_row_outlives_the_database examples.s0 examples.bob
           req_read req_write examples.default_row
           (db examples.s_busy_banned)).
  reflexivity.
Defined.

(** ** Bans, seen through the permission engine *)

Section ban_effects.

Lemma after_resolve_keeps (s : state) (u : User) (k : Z) (q : perm_row) :
  _perm_cache (self s) !! k = Some q ->
  _perm_cache (self (after_resolve s u)) !! k = Some q.
Proof.
  intros H. unfold after_resolve.
  destruct (_perm_cache (self s) !! user_id u) as [p|] eqn:Hu; [exact H|].
  destruct (user_permissions _ _ _); [|exact H]. simpl.
  rewrite lookup_insert_ne; [exact H|]. intros E. congruence.
Qed.

(** a lookup: its result, what it leaves alone and what the cache holds
    afterwards *)
Lemma check_permission_grows (u : User) (req : requirements) (s : state)
    (p : perm_row) :
  resolved_row s u = Some p ->
  ∃ s', check_permission (Some u) req s = (Ok (decide_permission p req), s')
    ∧ same_but_cache s s'
    ∧ _perm_cache (self s') !! user_id u = Some p
    ∧ ∀ k q, _perm_cache (self s) !! k = Some q ->
             _perm_cache (self s') !! k = Some q.
Proof.
  intros Hp. exists (after_resolve s u).
  split; [rewrite check_permission_run, Hp; reflexivity|].
  split; [apply same_but_cache_after_resolve|].
  split; [apply after_resolve_cached; exact Hp|].
  intros k q. apply after_resolve_keeps.
Qed.

(** [ban_user_run] with the rest of the state *)
Lemma ban_user_state (cfg : Config) (to_ban mod_ : User) (timeout : option Z)
    (s : state) (pm pt : perm_row) :
  let target := fst (check_blinding cfg (db s) to_ban) in
  let key := (id (self s), user_id target) in
  resolved_row s mod_ = Some pm ->
  decide_permission pm req_moderator = true ->
  user_id target ≠ user_id mod_ ->
  global_moderator target = false ->
  resolved_row s target = Some pt ->
  (decide_permission pt req_moderator = true -> is_admin pm = true) ->
  ∃ s', ban_user cfg to_ban mod_ timeout s = (Ok tt, s')
    ∧ id (self s') = id (self s) ∧ now s' = now s
    ∧ rooms (db s') = rooms (db s)
    ∧ user_permission_overrides (db s') =
        <[key := set_ban (Some true) (Some false) (Some false)
                   (default empty_override
                      (user_permission_overrides (db s) !! key))]>
          (user_permission_overrides (db s))
    ∧ _perm_cache (self s') !! user_id target = None
    ∧ _perm_cache (self s') !! user_id mod_ = Some pm.
Proof.
  intros target key Hpm Hmod Hne Hglob Hpt Hadm.
  subst key target.
  unfold ban_user, ban_user_body.
  unfold mbind at 1, M_bind at 1. unfold transaction.
  unfold mbind at 1, M_bind at 1, gets at 1.
  destruct (check_blinding cfg (db s) to_ban) as [tb need] eqn:Hcb.
  simpl in Hne, Hglob, Hpt |- *.
  unfold check_moderator, check_admin.
  destruct (check_permission_grows mod_ req_moderator s pm Hpm)
    as (s1 & R1 & F1 & C1 & K1).
  erewrite bind_ok by exact R1. rewrite Hmod. simpl.
  destruct (decide (user_id tb = user_id mod_)) as [E|_]; [contradiction|].
  rewrite Hglob.
  assert (Hfail : ∃ s2,
    (target_mod ← check_permission (Some tb) req_moderator;
     if (target_mod : bool)
     then a ← check_permission (Some mod_) req_admin; mret (negb a)
     else mret false) s1 = (Ok false, s2) ∧ same_but_cache s s2
    ∧ _perm_cache (self s2) !! user_id mod_ = Some pm).
  { destruct (check_permission_grows tb req_moderator s1 pt)
      as (s2 & R2 & F2 & _ & K2).
    { destruct F1 as (_ & _ & _ & _ & _ & F1). rewrite F1. exact Hpt. }
    erewrite bind_ok by exact R2.
    pose proof (same_but_cache_trans _ _ _ F1 F2) as F12.
    destruct (decide_permission pt req_moderator) eqn:Et.
    - destruct (check_permission_grows mod_ req_admin s2 pm)
        as (s3 & R3 & F3 & C3 & _).
      { destruct F12 as (_ & _ & _ & _ & _ & F). rewrite F. exact Hpm. }
      erewrite bind_ok by exact R3.
      rewrite decide_permission_req_admin, (Hadm eq_refl). simpl.
      exists s3. split; [reflexivity|].
      split; [exact (same_but_cache_trans _ _ _ F12 F3) | exact C3].
    - exists s2. split; [reflexivity|]. split; [exact F12|]. apply K2, C1. }
  destruct Hfail as (s2 & R2 & (Fdb & Fnow & Fmule & Fdisk & Fid & _) & C2).
  erewrite bind_ok by exact R2.
  unfold mbind, M_bind, gets, modify_db, modify, mret, M_ret,
    record_needs_blinding, evict, modify_self.
  destruct s2 as [me2 d2 t2 mu2 dk2]. simpl in *. subst d2 t2.
  rewrite Fid.
  destruct (py.truthy_num timeout), need; simpl;
    (eexists; split; [reflexivity|]); simpl;
    rewrite lookup_delete_eq, lookup_delete_ne by exact Hne; auto 10.
Qed.

End ban_effects.

(** X4.  A ban that passes the checks of [ban_user] takes effect at once on
    the instance that imposed it: the banned user, whatever rank and
    capabilities it had, fails every check from then on. *)
Theorem banned_user_fails_every_check
    (cfg : Config) (to_ban mod_ : User) (timeout : option Z) (s : state)
    (pm pt : perm_row) (row : room_row) (req : requirements) :
  let target := fst (check_blinding cfg (db s) to_ban) in
  rooms (db s) !! id (self s) = Some row ->
  resolved_row s mod_ = Some pm ->
  decide_permission pm req_moderator = true ->
  user_id target ≠ user_id mod_ ->
  global_moderator target = false ->
  resolved_row s target = Some pt ->
  (decide_permission pt req_moderator = true -> is_admin pm = true) ->
  fst (check_permission (Some target) req
         (snd (ban_user cfg to_ban mod_ timeout s))) = Ok false.
Proof.
  intros target Hroom Hpm Hmod Hne Hglob Hpt Hadm.
  destruct (ban_user_state cfg to_ban mod_ timeout s pm pt
              Hpm Hmod Hne Hglob Hpt Hadm)
    as (s' & Hrun & Hid & _ & Hrooms & Hov & Hc & _).
  rewrite Hrun. simpl. rewrite check_permission_run.
  unfold resolved_row. fold target in Hc. rewrite Hc.
  unfold user_permissions. rewrite Hid, Hrooms, Hroom, Hov. simpl.
  fold target. rewrite lookup_insert_eq. simpl.
  unfold decide_permission. simpl.
  destruct (admin req), (moderator req); reflexivity.
Qed.

Lemma banned_user_fails_every_check_witness :
  fst (check_permission (Some examples.carol) scenarios.all_capabilities
         (snd (ban_user default_config examples.carol examples.dave None
                 examples.s0))) = Ok false.
Proof.
  apply (banned_user_fails_every_check default_config examples.carol
           examples.dave None examples.s0 examples.admin_row
           examples.moderator_row examples.lobby_row
           scenarios.all_capabilities).
  - reflexivity.
  - reflexivity.
  - reflexivity.
  - simpl. discriminate.
  - reflexivity.
  - reflexivity.
  - reflexivity.
Defined.

(** X5.  [ban_user] turns away, with [BadPermission] and an unchanged
    database, every ban by someone who is not a moderator of the room, every
    self-ban, every ban of a global moderator (these two even from an
    admin), and every ban of a room moderator by someone who is not an
    admin. *)
Theorem ban_user_rejections
    (cfg : Config) (to_ban mod_ : User) (timeout : option Z) (s : state)
    (pm : perm_row) :
  let target := fst (check_blinding cfg (db s) to_ban) in
  resolved_row s mod_ = Some pm ->
  decide_permission pm req_moderator = false
  ∨ user_id target = user_id mod_
  ∨ global_moderator target = true
  ∨ (∃ pt, resolved_row s target = Some pt
           ∧ decide_permission pt req_moderator = true
           ∧ is_admin pm = false) ->
  fst (ban_user cfg to_ban mod_ timeout s) = Raise BadPermission
  ∧ db (snd (ban_user cfg to_ban mod_ timeout s)) = db s.
Proof.
  intros target Hpm Hcase. subst target.
  assert (Hbody : ∃ s', ban_user_body cfg to_ban mod_ timeout s
                          = (Raise BadPermission, s')).
  { unfold ban_user_body.
    unfold mbind at 1, M_bind at 1, gets at 1.
    destruct (check_blinding cfg (db s) to_ban) as [tb need] eqn:Hcb.
    simpl in Hcase |- *.
    unfold check_moderator, check_admin.
    destruct (check_permission_frame mod_ req_moderator s pm Hpm)
      as (s1 & R1 & F1).
    erewrite bind_ok by exact R1.
    destruct (decide_permission pm req_moderator) eqn:Hmod; simpl;
      [|eexists; reflexivity].
    destruct (decide (user_id tb = user_id mod_)) as [E|N];
      [eexists; reflexivity|].
    destruct (global_moderator tb) eqn:Hg; [eexists; reflexivity|].
    destruct Hcase as [H|[H|[H|(pt & Hpt & Ht & Ha)]]];
      [discriminate | contradiction | discriminate |].
    destruct (check_permission_frame tb req_moderator s1 pt)
      as (s2 & R2 & F2).
    { destruct F1 as (_ & _ & _ & _ & _ & F1). rewrite F1. exact Hpt. }
    destruct (check_permission_frame mod_ req_admin s2 pm) as (s3 & R3 & F3).
    { pose proof (same_but_cache_trans _ _ _ F1 F2) as F12.
      destruct F12 as (_ & _ & _ & _ & _ & F). rewrite F. exact Hpm. }
    erewrite bind_ok; cycle 1.
    { erewrite bind_ok by exact R2. rewrite Ht.
      erewrite bind_ok by exact R3.
      rewrite decide_permission_req_admin, Ha. reflexivity. }
    eexists. reflexivity. }
  destruct Hbody as (s' & Hbody).
  unfold ban_user. erewrite bind_raise by (apply transaction_raise; exact Hbody).
  split; reflexivity.
Qed.

Lemma ban_user_rejections_witness :
  fst (ban_user default_config examples.dave examples.dave None examples.s0)
    = Raise BadPermission
  ∧ db (snd (ban_user default_config examples.dave examples.dave None
               examples.s0)) = db examples.s0.
Proof.
  apply (ban_user_rejections default_config examples.dave examples.dave None
           examples.s0 examples.admin_row).
  - reflexivity.
  - right. left. reflexivity.
Defined.

(** X6.  [unban_user] by someone who is not a moderator raises
    [BadPermission]; by a moderator, on a user whose override is not
    banned (or who has none), it returns false.  Either way the database is
    unchanged. *)
Theorem unban_user_without_effect
    (to_unban mod_ : User) (s : state) (pm : perm_row) :
  resolved_row s mod_ = Some pm ->
  let r := unban_user to_unban mod_ s in
  let key := (id (self s), user_id to_unban) in
  (decide_permission pm req_moderator = false ->
   fst r = Raise BadPermission ∧ db (snd r) = db s)
  ∧ (decide_permission pm req_moderator = true ->
     (user_permission_overrides (db s) !! key ≫= o_banned) ≠ Some true ->
     fst r = Ok false ∧ db (snd r) = db s).
Proof.
  intros Hpm. cbv zeta. unfold unban_user, check_moderator.
  destruct (check_permission_frame mod_ req_moderator s pm Hpm)
    as (s1 & R1 & (Fdb & _ & _ & _ & Fid & _)).
  erewrite bind_ok by exact R1.
  split; intros Hmod; rewrite Hmod; simpl.
  - split; [reflexivity|exact Fdb].
  - intros Hnot.
    unfold mbind, M_bind, gets, modify_db, modify, mret, M_ret, evict,
      modify_self. simpl. rewrite Fdb, Fid.
    destruct (user_permission_overrides (db s) !! _) as [o|] eqn:Ho;
      simpl in *; [|split; [reflexivity|exact Fdb]].
    destruct (o_banned o) as [[|]|]; simpl in *;
      [congruence | split; [reflexivity|exact Fdb]
       | split; [reflexivity|exact Fdb]].
Qed.

Lemma unban_user_without_effect_witness :
  let r := unban_user examples.bob examples.carol examples.s0 in
  (decide_permission examples.moderator_row req_moderator = false ->
   fst r = Raise BadPermission ∧ db (snd r) = db examples.s0)
  ∧ (decide_permission examples.moderator_row req_moderator = true ->
     (user_permission_overrides (db examples.s0) !! (10, 2) ≫= o_banned)
       ≠ Some true ->
     fst r = Ok false ∧ db (snd r) = db examples.s0).
Proof.
  apply (unban_user_without_effect examples.bob examples.carol examples.s0
           examples.moderator_row).
  reflexivity.
Defined.

(** X7.  Lifting a ban undoes the ban but not the demotion that came with
    it: after [ban_user] and then [unban_user] by the same moderator, the
    second call returns true and the user passes the banned check again,
    but holds neither moderator nor admin rank, whatever it held before. *)
Theorem unban_after_ban
    (cfg : Config) (to_ban mod_ : User) (timeout : option Z) (s : state)
    (pm pt : perm_row) (row : room_row) :
  let target := fst (check_blinding cfg (db s) to_ban) in
  rooms (db s) !! id (self s) = Some row ->
  resolved_row s mod_ = Some pm ->
  decide_permission pm req_moderator = true ->
  user_id target ≠ user_id mod_ ->
  global_moderator target = false ->
  resolved_row s target = Some pt ->
  (decide_permission pt req_moderator = true -> is_admin pm = true) ->
  let r := unban_user target mod_ (snd (ban_user cfg to_ban mod_ timeout s)) in
  fst r = Ok true
  ∧ fst (check_unbanned (Some target) (snd r)) = Ok true
  ∧ fst (check_moderator (Some target) (snd r)) = Ok false.
Proof.
  intros target Hroom Hpm Hmod Hne Hglob Hpt Hadm.
  destruct (ban_user_state cfg to_ban mod_ timeout s pm pt
              Hpm Hmod Hne Hglob Hpt Hadm)
    as (s' & Hrun & Hid & _ & Hrooms & Hov & Hc & Hcm).
  fold target in Hov, Hc.
  rewrite Hrun. cbv zeta. cbn [snd].
  unfold unban_user, check_moderator, check_unbanned.
  erewrite bind_ok by (apply check_permission_hit; exact Hcm).
  rewrite Hmod. simpl.
  unfold mbind, M_bind, gets, modify_db, modify, mret, M_ret, evict,
    modify_self. simpl.
  rewrite Hov, Hid, lookup_insert_eq. simpl.
  split; [reflexivity|].
  rewrite !check_permission_run. unfold resolved_row. simpl.
  rewrite lookup_delete_eq. unfold user_permissions. simpl.
  rewrite Hid, Hrooms, Hroom. simpl. rewrite lookup_insert_eq. simpl.
  split; reflexivity.
Qed.

Lemma unban_after_ban_witness :
  let r := unban_user examples.carol examples.dave
             (snd (ban_user default_config examples.carol examples.dave
                     (Some 60) examples.s0)) in
  fst r = Ok true
  ∧ fst (check_unbanned (Some examples.carol) (snd r)) = Ok true
  ∧ fst (check_moderator (Some examples.carol) (snd r)) = Ok false.
Proof.
  apply (unban_after_ban default_config examples.carol examples.dave
           (Some 60) examples.s0 examples.admin_row examples.moderator_row
           examples.lobby_row).
  - reflexivity.
  - reflexivity.
  - reflexivity.
  - simpl. discriminate.
  - reflexivity.
  - reflexivity.
  - reflexivity.
Defined.

(** ** Posting, step by step *)

Section posting_runs.

Lemma should_filter_run (cfg : Config) (user : User) (data : list byte)
    (s : state) (p : perm_row) :
  _perm_cache (self s) !! user_id user = Some p ->
  should_filter cfg user data s =
    (if PROFANITY_FILTER cfg && negb (is_admin p)
        && contains_profanity cfg data
     then if PROFANITY_SILENT cfg then Ok true else Raise PostRejected
     else Ok false, s).
Proof.
  intros Hc. unfold should_filter.
  destruct (PROFANITY_FILTER cfg); [|reflexivity].
  unfold check_admin.
  erewrite bind_ok by (apply check_permission_hit; exact Hc).
  rewrite decide_permission_req_admin.
  destruct (is_admin p); simpl; [reflexivity|].
  destruct (contains_profanity cfg data); [|reflexivity].
  destruct (PROFANITY_SILENT cfg); reflexivity.
Qed.

(** [add_post] up to the filter, for a post that passes the permission and
    validity checks: the rest of the call runs with the whisper target
    resolved, in a state that differs in the cache and, for a target named
    by session id, the users table. *)
Lemma add_post_until_filter (cfg : Config) (user : User) (data sig : list byte)
    (w : option whisper_target) (wm : bool) (files_ : list Z) (s : state)
    (p : perm_row) :
  resolved_row s user = Some p ->
  decide_permission p req_write = true ->
  length sig = 64%nat ->
  (truthy_target w || wm = true -> decide_permission p req_moderator = true) ->
  ∃ wu s2,
    _perm_cache (self s2) !! user_id user = Some p
    ∧ id (self s2) = id (self s) ∧ now s2 = now s ∧ mule s2 = mule s
    ∧ db s2 = set_users (users (db s2)) (next_user_id (db s2)) (db s)
    ∧ ((∀ sid, w ≠ Some (WSession sid)) -> db s2 = db s)
    ∧ add_post cfg user (Some data) (Some sig) w wm files_ s
      = (filtered ← should_filter cfg user data;
         msg ← transaction
                 (add_post_store cfg user data sig wu wm files_ filtered);
         send_mule (message_posted (p_id msg));;
         mret msg) s2.
Proof.
  intros Hp Hw Hsig Hwh.
  pose proof (after_resolve_cached s user p Hp) as Hc.
  unfold add_post, check_write.
  erewrite bind_ok by (rewrite check_permission_run, Hp; reflexivity).
  rewrite Hw. simpl.
  destruct (decide (length sig ≠ 64%nat)) as [N|_]; [congruence|].
  set (s1 := after_resolve s user) in *.
  assert (Hwhisper :
    (if truthy_target w || wm then
       m ← check_moderator (Some user);
       if negb m then raise BadPermission else mret tt
     else mret tt) s1 = (Ok tt, s1)).
  { destruct (truthy_target w || wm) eqn:E; [|reflexivity].
    unfold check_moderator.
    erewrite bind_ok by (apply check_permission_hit; exact Hc).
    rewrite Hwh by reflexivity. reflexivity. }
  erewrite bind_ok by exact Hwhisper.
  assert (Hres : ∃ wu s2,
    match w with
    | Some (WUser u) => mret (Some u)
    | Some (WSession sid) =>
        if truthy_target w
        then u ← User_by_session_id sid true; mret (Some u)
        else mret None
    | None => mret None
    end s1 = (Ok wu, s2)
    ∧ self s2 = self s1 ∧ now s2 = now s1 ∧ mule s2 = mule s1
    ∧ db s2 = set_users (users (db s2)) (next_user_id (db s2)) (db s1)
    ∧ ((∀ sid, w ≠ Some (WSession sid)) -> s2 = s1)).
  { destruct w as [[u|sid]|].
    - exists (Some u), s1. rewrite set_users_same. auto 10.
    - destruct (truthy_target (Some (WSession sid))).
      + destruct (User_by_session_id_frame sid s1)
          as (u & s2 & Hrun & H1 & H2 & H3 & H4 & _).
        exists (Some u), s2. erewrite bind_ok by exact Hrun.
        repeat split; try assumption. intros H. exfalso. eapply H. reflexivity.
      + exists None, s1. rewrite set_users_same. auto 10.
    - exists None, s1. rewrite set_users_same. auto 10. }
  destruct Hres as (wu & s2 & Hrun & H1 & H2 & H3 & H4 & H5).
  erewrite bind_ok by exact Hrun.
  exists wu, s2. subst s1.
  split; [rewrite H1; exact Hc|].
  split; [rewrite H1; apply after_resolve_id|].
  split; [rewrite H2; apply after_resolve_now|].
  split; [rewrite H3; apply after_resolve_mule|].
  split; [rewrite <- (after_resolve_db s user); exact H4|].
  split; [|reflexivity].
  intros Hn. rewrite (H5 Hn). apply after_resolve_db.
Qed.

Lemma sequence_of_bump (r : Z) (rs : gmap Z room_row) (row : room_row) :
  rs !! r = Some row -> sequence_of r (bump r rs) = r_message_sequence row + 1.
Proof.
  intros H. unfold sequence_of. rewrite (lookup_bump r r rs row H).
  destruct (decide (r = r)); [reflexivity|contradiction].
Qed.

Lemma add_post_store_full (cfg : Config) (user : User)
    (data sig : list byte) (wu : option User) (wm : bool) (files_ : list Z)
    (filtered : bool) (s : state) (p : perm_row) (row0 : room_row) :
  _perm_cache (self s) !! user_id user = Some p ->
  (is_admin p = true ∨ rate_limit_size cfg = 0 ∨
   recent_count cfg (id (self s)) (user_id user) (now s) (messages (db s))
     < rate_limit_size cfg) ->
  rooms (db s) !! id (self s) = Some row0 ->
  let row := posted_row s user data sig wu wm filtered
               (r_message_sequence row0) in
  ∃ msg s',
    add_post_store cfg user data sig wu wm files_ filtered s = (Ok msg, s')
    ∧ self s' = self s ∧ mule s' = mule s ∧ now s' = now s
    ∧ messages (db s') = messages (db s) ++ [row]
    ∧ rooms (db s') = bump (id (self s)) (rooms (db s))
    ∧ next_message_id (db s') = next_message_id (db s) + 1
    ∧ p_id msg = next_message_id (db s) ∧ p_data msg = data
    ∧ ((∀ m, m ∈ messages (db s) -> m_id m ≠ next_message_id (db s)) ->
       p_seqno msg = r_message_sequence row0 + 1 ∧ p_posted msg = now s).
Proof.
  intros Hc Hrate Hroom row. unfold add_post_store.
  erewrite bind_ok; cycle 1.
  { rewrite (rate_limit_hit cfg user s p Hc).
    destruct Hrate as [Ha|[Hz|Hlt]].
    - rewrite Ha, andb_false_r. reflexivity.
    - rewrite Hz. reflexivity.
    - rewrite (bool_decide_eq_false_2 _ (proj1 (Z.lt_nge _ _) Hlt)).
      rewrite andb_false_r. reflexivity. }
  rewrite remove_padding_id.
  unfold insert_message, _own_files, mbind, M_bind, gets, mret, M_ret,
    modify_db, modify, raise.
  subst row. unfold posted_row.
  destruct s as [me d t mu dk]. simpl in *.
  destruct (decide (rooms d !! id me = None)) as [E|_]; [congruence|].
  rewrite (sequence_of_bump _ _ _ Hroom).
  set (row := {| m_id := next_message_id d; m_room := id me |}).
  destruct (list_find (λ m, m_id m = next_message_id d) (messages d ++ [row]))
    as [[i found]|] eqn:Hfind.
  - assert (Hfresh :
      (∀ m, m ∈ messages d -> m_id m ≠ next_message_id d) -> found = row).
    { intros Hfresh. rewrite list_find_app_r in Hfind.
      - simpl in Hfind. destruct (decide _) as [_|N]; [|contradiction].
        simpl in Hfind. congruence.
      - apply list_find_None, Forall_forall. exact Hfresh. }
    destruct files_ as [|f fs]; simpl; rewrite Hfind;
      (eexists _, _; split; [reflexivity|]); simpl;
      (repeat (split; [reflexivity|])); intros Hf;
      rewrite (Hfresh Hf); split; reflexivity.
  - exfalso. apply list_find_None in Hfind.
    rewrite Forall_forall in Hfind. apply (Hfind row); [|reflexivity].
    apply elem_of_app. right. apply list_elem_of_singleton. reflexivity.
Qed.

End posting_runs.

(** X8.  [add_post] fails before it touches anything: without write
    permission it raises [BadPermission]; with it, a missing body, a missing
    signature or a signature that is not 64 bytes long raises [InvalidData],
    and a whisper from someone who is not a moderator raises
    [BadPermission].  In each case the database and the messages sent to
    the mule are unchanged. *)
Theorem add_post_rejections
    (cfg : Config) (user : User) (data sig : option (list byte))
    (w : option whisper_target) (wm : bool) (files_ : list Z) (s : state)
    (p : perm_row) :
  resolved_row s user = Some p ->
  let r := add_post cfg user data sig w wm files_ s in
  let untouched := db (snd r) = db s ∧ mule (snd r) = mule s in
  (decide_permission p req_write = false ->
   fst r = Raise BadPermission ∧ untouched)
  ∧ (decide_permission p req_write = true ->
     data = None ∨ sig = None ∨ (∃ g, sig = Some g ∧ length g ≠ 64%nat) ->
     fst r = Raise InvalidData ∧ untouched)
  ∧ (decide_permission p req_write = true ->
     (∃ b g, data = Some b ∧ sig = Some g ∧ length g = 64%nat) ->
     truthy_target w || wm = true ->
     decide_permission p req_moderator = false ->
     fst r = Raise BadPermission ∧ untouched).
Proof.
  intros Hp. cbv zeta. unfold add_post, check_write.
  erewrite bind_ok by (rewrite check_permission_run, Hp; reflexivity).
  pose proof (after_resolve_db s user) as Hdb.
  pose proof (after_resolve_mule s user) as Hmu.
  pose proof (after_resolve_cached s user p Hp) as Hc.
  split; [|split]; intros Hw; rewrite Hw; simpl.
  - auto.
  - intros [->|[->|(g & -> & Hg)]].
    + auto.
    + destruct data; auto.
    + destruct data; [|auto].
      destruct (decide (length g ≠ 64%nat)); [auto|contradiction].
  - intros (b & g & -> & -> & Hg) Hwh Hm.
    destruct (decide (length g ≠ 64%nat)); [contradiction|].
    rewrite Hwh. unfold check_moderator.
    erewrite bind_raise; cycle 1.
    { erewrite bind_ok by (apply check_permission_hit; exact Hc).
      rewrite Hm. reflexivity. }
    auto.
Qed.

Lemma add_post_rejections_witness :
  let r := add_post default_config examples.bob (Some examples.padded)
             (Some [x00]) None true [] examples.s_busy_banned in
  let untouched := db (snd r) = db examples.s_busy_banned
                   ∧ mule (snd r) = mule examples.s_busy_banned in
  (decide_permission examples.banned_row req_write = false ->
   fst r = Raise BadPermission ∧ untouched)
  ∧ (decide_permission examples.banned_row req_write = true ->
     Some examples.padded = None ∨ Some [x00] = None
     ∨ (∃ g, Some [x00] = Some g ∧ length g ≠ 64%nat) ->
     fst r = Raise InvalidData ∧ untouched)
  ∧ (decide_permission examples.banned_row req_write = true ->
     (∃ b g, Some examples.padded = Some b ∧ Some [x00] = Some g
             ∧ length g = 64%nat) ->
     truthy_target None || true = true ->
     decide_permission examples.banned_row req_moderator = false ->
     fst r = Raise BadPermission ∧ untouched).
Proof.
  apply (add_post_rejections default_config examples.bob
           (Some examples.padded) (Some [x00]) None true []
           examples.s_busy_banned examples.banned_row).
  reflexivity.
Defined.

Section posting_outcomes.

(** the whole of [add_post] for a post that passes the permission and
    validity checks *)
Lemma add_post_full (cfg : Config) (user : User) (data sig : list byte)
    (w : option whisper_target) (wm : bool) (files_ : list Z) (s : state)
    (p : perm_row) (row0 : room_row) :
  resolved_row s user = Some p ->
  rooms (db s) !! id (self s) = Some row0 ->
  decide_permission p req_write = true ->
  length sig = 64%nat ->
  (truthy_target w || wm = true -> decide_permission p req_moderator = true) ->
  let r := add_post cfg user (Some data) (Some sig) w wm files_ s in
  let profane := PROFANITY_FILTER cfg && negb (is_admin p)
                 && contains_profanity cfg data in
  if profane && negb (PROFANITY_SILENT cfg) then
    fst r = Raise PostRejected
    ∧ messages (db (snd r)) = messages (db s)
    ∧ rooms (db (snd r)) = rooms (db s)
    ∧ mule (snd r) = mule s
  else
    (is_admin p = true ∨ rate_limit_size cfg = 0 ∨
     recent_count cfg (id (self s)) (user_id user) (now s) (messages (db s))
       < rate_limit_size cfg) ->
    ∃ wu msg,
      fst r = Ok msg
      ∧ messages (db (snd r)) =
          messages (db s)
          ++ [posted_row s user data sig wu wm profane (r_message_sequence row0)]
      ∧ rooms (db (snd r)) = bump (id (self s)) (rooms (db s))
      ∧ next_message_id (db (snd r)) = next_message_id (db s) + 1
      ∧ mule (snd r) = mule s ++ [message_posted (p_id msg)]
      ∧ p_id msg = next_message_id (db s) ∧ p_data msg = data
      ∧ ((∀ m, m ∈ messages (db s) -> m_id m ≠ next_message_id (db s)) ->
         p_seqno msg = r_message_sequence row0 + 1 ∧ p_posted msg = now s).
Proof.
  intros Hp Hroom Hw Hsig Hwh r profane.
  destruct (add_post_until_filter cfg user data sig w wm files_ s p
              Hp Hw Hsig Hwh)
    as (wu & s2 & Hc & Hid & Hnow & Hmu & Hdb & _ & Hrun).
  subst r. rewrite Hrun. clear Hrun.
  assert (Hmsgs : messages (db s2) = messages (db s))
    by (rewrite Hdb; reflexivity).
  assert (Hrooms : rooms (db s2) = rooms (db s))
    by (rewrite Hdb; reflexivity).
  assert (Hnext : next_message_id (db s2) = next_message_id (db s))
    by (rewrite Hdb; reflexivity).
  pose proof (should_filter_run cfg user data s2 p Hc) as Hsf.
  fold profane in Hsf.
  assert (Hstored : ∀ filtered,
    profane = filtered ->
    should_filter cfg user data s2 = (Ok filtered, s2) ->
    (is_admin p = true ∨ rate_limit_size cfg = 0 ∨
     recent_count cfg (id (self s)) (user_id user) (now s) (messages (db s))
       < rate_limit_size cfg) ->
    let r := (filtered ← should_filter cfg user data;
              msg ← transaction
                      (add_post_store cfg user data sig wu wm files_ filtered);
              send_mule (message_posted (p_id msg));;
              mret msg) s2 in
    ∃ wu msg,
      fst r = Ok msg
      ∧ messages (db (snd r)) =
          messages (db s)
          ++ [posted_row s user data sig wu wm profane (r_message_sequence row0)]
      ∧ rooms (db (snd r)) = bump (id (self s)) (rooms (db s))
      ∧ next_message_id (db (snd r)) = next_message_id (db s) + 1
      ∧ mule (snd r) = mule s ++ [message_posted (p_id msg)]
      ∧ p_id msg = next_message_id (db s) ∧ p_data msg = data
      ∧ ((∀ m, m ∈ messages (db s) -> m_id m ≠ next_message_id (db s)) ->
         p_seqno msg = r_message_sequence row0 + 1 ∧ p_posted msg = now s)).
  { intros filtered Hfl Hrun Hrate r.
    destruct (add_post_store_full cfg user data sig wu wm files_ filtered
                s2 p row0)
      as (msg & s3 & Hstore & Hself & Hmule & Hnow3 & Hm & Hr & Hn & Hpid
          & Hpdata & Hfresh).
    { exact Hc. }
    { rewrite Hid, Hnow, Hmsgs. exact Hrate. }
    { rewrite Hid, Hrooms. exact Hroom. }
    subst r. erewrite bind_ok by exact Hrun.
    erewrite bind_ok by (apply transaction_ok; exact Hstore).
    unfold send_mule, mbind, M_bind, modify, mret, M_ret. simpl.
    exists wu, msg. rewrite Hm, Hr, Hn, Hmule, Hmsgs, Hrooms, Hnext, Hid, Hmu.
    rewrite Hfl. unfold posted_row. rewrite Hnext, Hid, Hnow.
    rewrite Hnext in Hpid.
    repeat (split; [first [reflexivity|assumption]|]).
    intros Hf. rewrite <- Hnow. apply Hfresh.
    rewrite Hmsgs, Hnext. exact Hf. }
  destruct profane eqn:Hprof; simpl in *.
  - destruct (PROFANITY_SILENT cfg); simpl.
    + intros Hrate. exact (Hstored true eq_refl Hsf Hrate).
    + erewrite bind_raise by exact Hsf. simpl. auto.
  - intros Hrate. exact (Hstored false eq_refl Hsf Hrate).
Qed.

End posting_outcomes.

(** X9.  What the profanity filter does to a post that is otherwise fine
    and that it finds profane: from a user who is not an admin it is
    rejected with [PostRejected], nothing stored and nothing sent to the
    mule, unless the filter is silent, in which case it is stored and
    announced like any other post but marked filtered; from an admin it is
    stored unmarked. *)
Theorem profanity_filter_outcomes
    (cfg : Config) (user : User) (data sig : list byte)
    (w : option whisper_target) (wm : bool) (files_ : list Z) (s : state)
    (p : perm_row) (row0 : room_row) :
  resolved_row s user = Some p ->
  rooms (db s) !! id (self s) = Some row0 ->
  decide_permission p req_write = true ->
  length sig = 64%nat ->
  (truthy_target w || wm = true -> decide_permission p req_moderator = true) ->
  PROFANITY_FILTER cfg = true ->
  contains_profanity cfg data = true ->
  (is_admin p = true ∨ rate_limit_size cfg = 0 ∨
   recent_count cfg (id (self s)) (user_id user) (now s) (messages (db s))
     < rate_limit_size cfg) ->
  let r := add_post cfg user (Some data) (Some sig) w wm files_ s in
  let stored (flag : bool) :=
    ∃ msg row, fst r = Ok msg
      ∧ messages (db (snd r)) = messages (db s) ++ [row]
      ∧ m_data row = Some data ∧ m_filtered row = flag
      ∧ mule (snd r) = mule s ++ [message_posted (p_id msg)] in
  (is_admin p = false -> PROFANITY_SILENT cfg = false ->
   fst r = Raise PostRejected
   ∧ messages (db (snd r)) = messages (db s) ∧ mule (snd r) = mule s)
  ∧ (is_admin p = false -> PROFANITY_SILENT cfg = true -> stored true)
  ∧ (is_admin p = true -> stored false).
Proof.
  intros Hp Hroom Hw Hsig Hwh Hpf Hcp Hrate r stored.
  pose proof (add_post_full cfg user data sig w wm files_ s p row0
                Hp Hroom Hw Hsig Hwh) as H.
  cbv zeta in H. fold r in H. rewrite Hpf, Hcp in H. simpl in H.
  split; [|split].
  - intros Ha Hs. rewrite Ha, Hs in H. simpl in H.
    destruct H as (H1 & H2 & _ & H3). auto.
  - intros Ha Hs. rewrite Ha, Hs in H. rewrite Ha in Hrate. simpl in H.
    destruct (H Hrate) as (wu & msg & H1 & H2 & _ & _ & H3 & _).
    exists msg, (posted_row s user data sig wu wm true (r_message_sequence row0)).
    auto.
  - intros Ha. rewrite Ha in H. rewrite Ha in Hrate. simpl in H.
    destruct (H Hrate) as (wu & msg & H1 & H2 & _ & _ & H3 & _).
    exists msg, (posted_row s user data sig wu wm false (r_message_sequence row0)).
    auto.
Qed.

Lemma profanity_filter_outcomes_witness :
  let r := add_post (scenarios.filtering true) examples.alice
             (Some examples.padded) (Some examples.sig64) None false []
             examples.s0 in
  let stored (flag : bool) :=
    ∃ msg row, fst r = Ok msg
      ∧ messages (db (snd r)) = messages (db examples.s0) ++ [row]
      ∧ m_data row = Some examples.padded ∧ m_filtered row = flag
      ∧ mule (snd r) = mule examples.s0 ++ [message_posted (p_id msg)] in
  (is_admin examples.default_row = false ->
   PROFANITY_SILENT (scenarios.filtering true) = false ->
   fst r = Raise PostRejected
   ∧ messages (db (snd r)) = messages (db examples.s0)
   ∧ mule (snd r) = mule examples.s0)
  ∧ (is_admin examples.default_row = false ->
     PROFANITY_SILENT (scenarios.filtering true) = true -> stored true)
  ∧ (is_admin examples.default_row = true -> stored false).
Proof.
  apply (profanity_filter_outcomes (scenarios.filtering true) examples.alice
           examples.padded examples.sig64 None false [] examples.s0
           examples.default_row examples.lobby_row).
  - reflexivity.
  - reflexivity.
  - reflexivity.
  - reflexivity.
  - simpl. discriminate.
  - reflexivity.
  - reflexivity.
  - right. right. vm_compute. reflexivity.
Defined.

(** X10.  A post that passes every check comes back with the next message
    id, with the moment of the call as its time and with a seqno one above
    the room's counter, which is the room's counter from then on; the body
    comes back as it was sent; the next id moves on by one and the mule is
    told of exactly this message.  (The ids in the table lie below the next
    id, as they do in a table that hands out its ids in sequence.) *)
Theorem add_post_returns
    (cfg : Config) (user : User) (data sig : list byte)
    (w : option whisper_target) (wm : bool) (files_ : list Z) (s : state)
    (p : perm_row) (row0 : room_row) :
  resolved_row s user = Some p ->
  rooms (db s) !! id (self s) = Some row0 ->
  decide_permission p req_write = true ->
  length sig = 64%nat ->
  (truthy_target w || wm = true -> decide_permission p req_moderator = true) ->
  (is_admin p = false -> PROFANITY_FILTER cfg = true ->
   contains_profanity cfg data = true -> PROFANITY_SILENT cfg = true) ->
  (is_admin p = true ∨ rate_limit_size cfg = 0 ∨
   recent_count cfg (id (self s)) (user_id user) (now s) (messages (db s))
     < rate_limit_size cfg) ->
  (∀ m, m ∈ messages (db s) -> m_id m < next_message_id (db s)) ->
  let r := add_post cfg user (Some data) (Some sig) w wm files_ s in
  ∃ msg,
    fst r = Ok msg
    ∧ p_id msg = next_message_id (db s)
    ∧ p_posted msg = now s
    ∧ p_data msg = data
    ∧ p_seqno msg = r_message_sequence row0 + 1
    ∧ (r_message_sequence <$> rooms (db (snd r)) !! id (self s))
        = Some (p_seqno msg)
    ∧ next_message_id (db (snd r)) = p_id msg + 1
    ∧ mule (snd r) = mule s ++ [message_posted (p_id msg)].
Proof.
  intros Hp Hroom Hw Hsig Hwh Hf Hrate Hids r.
  pose proof (add_post_full cfg user data sig w wm files_ s p row0
                Hp Hroom Hw Hsig Hwh) as H.
  cbv zeta in H. fold r in H.
  assert (Hno : PROFANITY_FILTER cfg && negb (is_admin p)
                && contains_profanity cfg data
                && negb (PROFANITY_SILENT cfg) = false).
  { destruct (PROFANITY_FILTER cfg), (is_admin p) eqn:Ha,
      (contains_profanity cfg data); simpl; try reflexivity.
    rewrite Hf by reflexivity. reflexivity. }
  rewrite Hno in H.
  destruct (H Hrate) as (wu & msg & H1 & H2 & H3 & H4 & H5 & H6 & H7 & H8).
  destruct H8 as [H8 H9].
  { intros m Hin. specialize (Hids m Hin). lia. }
  exists msg. rewrite H3, H4, H6, H8.
  rewrite (lookup_bump _ _ _ _ Hroom).
  destruct (decide (id (self s) = id (self s))); [|contradiction].
  rewrite <- H6. auto 10.
Qed.

Lemma add_post_returns_witness :
  let r := add_post default_config examples.alice (Some examples.padded)
             (Some examples.sig64) None false [] examples.s0 in
  ∃ msg,
    fst r = Ok msg
    ∧ p_id msg = next_message_id (db examples.s0)
    ∧ p_posted msg = now examples.s0
    ∧ p_data msg = examples.padded
    ∧ p_seqno msg = r_message_sequence examples.lobby_row + 1
    ∧ (r_message_sequence <$> rooms (db (snd r)) !! id (self examples.s0))
        = Some (p_seqno msg)
    ∧ next_message_id (db (snd r)) = p_id msg + 1
    ∧ mule (snd r) = mule examples.s0 ++ [message_posted (p_id msg)].
Proof.
  apply (add_post_returns default_config examples.alice examples.padded
           examples.sig64 None false [] examples.s0 examples.default_row
           examples.lobby_row).
  - reflexivity.
  - reflexivity.
  - reflexivity.
  - reflexivity.
  - simpl. discriminate.
  - simpl. discriminate.
  - right. right. vm_compute. reflexivity.
  - intros m Hin. vm_compute in Hin.
    repeat (apply elem_of_cons in Hin; destruct Hin as [->|Hin];
            [vm_compute; reflexivity|]).
    apply elem_of_nil in Hin. contradiction.
Defined.

(** ** Computations that keep a relation on the database *)

Section preserving.
Context (R : DB -> DB -> Prop) `{!Reflexive R} `{!Transitive R}.

Lemma preserves_ret {A} (a : A) : preserves R (mret a).
Proof. intros s. reflexivity. Qed.

Lemma preserves_raise {A} (e : exc) : preserves R (raise (A := A) e).
Proof. intros s. reflexivity. Qed.

Lemma preserves_gets {A} (f : state -> A) : preserves R (gets f).
Proof. intros s. reflexivity. Qed.

Lemma preserves_modify_self (f : Room -> Room) : preserves R (modify_self f).
Proof. intros s. reflexivity. Qed.

Lemma preserves_send_mule (m : mule_message) : preserves R (send_mule m).
Proof. intros s. reflexivity. Qed.

Lemma preserves_modify_db (f : DB -> DB) :
  (∀ d, R d (f d)) -> preserves R (modify_db f).
Proof. intros H s. apply H. Qed.

Lemma preserves_bind {A B} (m : M A) (k : A -> M B) :
  preserves R m -> (∀ a, preserves R (k a)) -> preserves R (m ≫= k).
Proof.
  intros Hm Hk s. specialize (Hm s). unfold mbind, M_bind.
  destruct (m s) as [[a|e] s1]; simpl in Hm; [|exact Hm].
  etransitivity; [exact Hm|apply Hk].
Qed.

Lemma preserves_transaction {A} (m : M A) :
  preserves R m -> preserves R (transaction m).
Proof.
  intros Hm s. specialize (Hm s). unfold transaction.
  destruct (m s) as [[a|e] s1]; simpl in *; [exact Hm|reflexivity].
Qed.

Lemma preserves_check_permission (u : option User) (req : requirements) :
  preserves R (check_permission u req).
Proof.
  intros s. destruct (check_permission_same u req s) as (E & _).
  rewrite E. reflexivity.
Qed.

End preserving.

(** the routine cases of a proof that a method keeps a relation *)
Ltac preserve :=
  repeat first
    [ typeclasses eauto
    | solve [auto 1]
    | apply preserves_ret
    | apply preserves_raise
    | apply preserves_gets
    | apply preserves_modify_self
    | apply preserves_send_mule
    | apply preserves_check_permission
    | apply preserves_transaction
    | apply preserves_bind; [..|intros ?]
    | match goal with
      | |- preserves _ (if ?b then _ else _) => destruct b
      | |- preserves _ (match ?x with _ => _ end) => destruct x
      end ].

(** ** Editing and deleting *)

Section rows.

Lemma stamp_rows_Forall2 (hit : message -> bool) (change : message -> message)
    (rows : list message) (rs : gmap Z room_row) :
  Forall2 (fun m m' => if hit m then ∃ n, m' = set_seqno n (change m)
                       else m' = m)
    rows (fst (stamp_rows hit change rows rs)).
Proof.
  revert rs. induction rows as [|m rest IH]; intros rs; simpl; [constructor|].
  destruct (hit m) eqn:Hhit.
  - specialize (IH (bump (m_room m) rs)).
    destruct (stamp_rows hit change rest (bump (m_room m) rs)) as [rest' rs2].
    simpl in *. constructor; [|exact IH]. rewrite Hhit. eexists. reflexivity.
  - specialize (IH rs).
    destruct (stamp_rows hit change rest rs) as [rest' rs2].
    simpl in *. constructor; [|exact IH]. rewrite Hhit. reflexivity.
Qed.

Lemma run_statement_Forall2 (hit : message -> bool)
    (change : message -> message) (d : DB) :
  Forall2 (fun m m' => if hit m then ∃ n, m' = set_seqno n (change m)
                       else m' = m)
    (messages d) (messages (run_statement hit change d)).
Proof.
  pose proof (stamp_rows_Forall2 hit change (messages d) (rooms d)) as H.
  unfold run_statement.
  destruct (stamp_rows hit change (messages d) (rooms d)) as [rows rs].
  exact H.
Qed.

(** every row after a statement comes from a row before it *)
Lemma run_statement_elem (hit : message -> bool)
    (change : message -> message) (d : DB) (m' : message) :
  m' ∈ messages (run_statement hit change d) ->
  ∃ m, m ∈ messages d
       ∧ (if hit m then ∃ n, m' = set_seqno n (change m) else m' = m).
Proof.
  intros Hin. apply list_elem_of_lookup_1 in Hin. destruct Hin as [i Hi].
  destruct (Forall2_lookup_r _ _ _ _ _ (run_statement_Forall2 hit change d) Hi)
    as (m & Hm & Hrel).
  exists m. split; [eapply list_elem_of_lookup_2; exact Hm|exact Hrel].
Qed.

Lemma run_statement_keeps (hit : message -> bool)
    (change : message -> message) (d : DB) (m : message) :
  m ∈ messages d -> hit m = false -> m ∈ messages (run_statement hit change d).
Proof.
  intros Hin Hhit. unfold run_statement.
  pose proof (stamp_rows_keeps hit change m (messages d) (rooms d) Hin Hhit) as H.
  destruct (stamp_rows hit change (messages d) (rooms d)) as [rows rs].
  exact H.
Qed.

#[global] Instance same_posts_refl : Reflexive same_posts.
Proof.
  intros d. unfold same_posts. apply Forall2_same_length_lookup.
  split; [reflexivity|]. intros i x y H1 H2. rewrite H1 in H2.
  injection H2 as <-. auto.
Qed.

#[global] Instance same_posts_trans : Transitive same_posts.
Proof.
  intros d1 d2 d3 H12 H23. unfold same_posts in *.
  eapply Forall2_trans; [|exact H12|exact H23].
  intros x y z (A1 & A2 & A3 & A4) (B1 & B2 & B3 & B4).
  repeat split; congruence.
Qed.

Lemma run_statement_same_posts (hit : message -> bool)
    (change : message -> message) (d : DB) :
  (∀ m, m_id (change m) = m_id m ∧ m_room (change m) = m_room m
        ∧ m_user (change m) = m_user m ∧ m_posted (change m) = m_posted m) ->
  same_posts d (run_statement hit change d).
Proof.
  intros Hch. unfold same_posts.
  eapply Forall2_impl; [apply run_statement_Forall2|].
  intros m m' H. simpl in H. destruct (hit m).
  - destruct H as [n ->]. simpl. apply Hch.
  - subst m'. auto.
Qed.

Lemma same_posts_other_tables (d d' : DB) :
  messages d' = messages d -> same_posts d d'.
Proof.
  intros H. unfold same_posts. rewrite H. apply (same_posts_refl d).
Qed.

Lemma same_posts_recent_count (cfg : Config) (r u t : Z) (d d' : DB) :
  same_posts d d' ->
  recent_count cfg r u t (messages d') = recent_count cfg r u t (messages d).
Proof.
  unfold same_posts, recent_count. intros H. apply (f_equal Z.of_nat).
  induction H as [|m m' l l' (H1 & H2 & H3 & H4) _ IH]; [reflexivity|].
  rewrite !filter_cons, H2, H3, H4.
  destruct (decide _); simpl; rewrite IH; reflexivity.
Qed.

End rows.

Section keeping_posts.

Lemma preserves_should_filter (R : DB -> DB -> Prop) `{!Reflexive R}
    `{!Transitive R} (cfg : Config) (u : User) (data : list byte) :
  preserves R (should_filter cfg u data).
Proof. unfold should_filter, check_admin. preserve. Qed.

Lemma same_posts_update_message (msg_id : Z) (data : list byte) (size : nat)
    (sig : list byte) :
  preserves same_posts (update_message msg_id data size sig).
Proof.
  unfold update_message. apply preserves_modify_db. intros d.
  apply run_statement_same_posts. intros m. simpl. auto.
Qed.

Lemma same_posts_own_files (cfg : Config) (msg_id : Z) (fs : list Z)
    (u : User) :
  preserves same_posts (_own_files cfg msg_id fs u).
Proof. intros s. apply same_posts_other_tables. reflexivity. Qed.

Lemma same_posts_delete_details_by_ids (ids : list Z) :
  preserves same_posts (delete_details_by_ids ids).
Proof.
  apply preserves_modify_db. intros d.
  apply run_statement_same_posts. intros m. simpl. auto.
Qed.

Lemma same_posts_delete_details_by_user (r u : Z) :
  preserves same_posts (delete_details_by_user r u).
Proof.
  apply preserves_modify_db. intros d.
  apply run_statement_same_posts. intros m. simpl. auto.
Qed.

Lemma same_posts_edit_post (cfg : Config) (user : User) (msg_id : Z)
    (data sig : option (list byte)) (fs : list Z) :
  preserves same_posts (edit_post cfg user msg_id data sig fs).
Proof.
  unfold edit_post, check_write. cbv zeta.
  pose proof (preserves_should_filter same_posts).
  pose proof same_posts_update_message. pose proof same_posts_own_files.
  preserve.
Qed.

Lemma same_posts_delete_posts_loop (ids : list Z) (deleter : User)
    (fuel : nat) :
  ∀ (i : nat) (deleted : list Z),
    preserves same_posts (delete_posts_loop fuel ids deleter i deleted).
Proof.
  induction fuel as [|fuel IH]; intros i deleted; cbn [delete_posts_loop].
  - preserve.
  - unfold check_moderator.
    pose proof same_posts_delete_details_by_ids.
    preserve.
Qed.

Lemma same_posts_delete_posts (ids : list Z) (deleter : User) :
  preserves same_posts (delete_posts ids deleter).
Proof.
  pose proof same_posts_delete_posts_loop. unfold delete_posts. preserve.
Qed.

Lemma same_posts_delete_all_posts (poster deleter : User) :
  preserves same_posts (delete_all_posts poster deleter).
Proof.
  unfold delete_all_posts, image, check_moderator, check_admin. cbv zeta.
  pose proof same_posts_delete_details_by_user.
  preserve.
  apply preserves_modify_db. intros d.
  apply same_posts_other_tables. reflexivity.
Qed.

End keeping_posts.

(** X11.  Editing and deleting do not buy back the rate limit: the count of
    a user's recent messages, which [add_post] holds against
    [rate_limit_size], is the same after [edit_post], [delete_posts] or
    [delete_all_posts] as before, whatever the call did.  Deleted messages
    keep counting until their posting time leaves the window. *)
Theorem deleting_keeps_the_rate_count (cfg : Config) (r u t : Z) :
  let count (s : state) := recent_count cfg r u t (messages (db s)) in
  (∀ cfg' user msg_id data sig files_ s,
     count (snd (edit_post cfg' user msg_id data sig files_ s)) = count s)
  ∧ (∀ message_ids deleter s,
       count (snd (delete_posts message_ids deleter s)) = count s)
  ∧ (∀ poster deleter s,
       count (snd (delete_all_posts poster deleter s)) = count s).
Proof.
  cbv zeta. split; [|split]; intros; apply same_posts_recent_count.
  - apply same_posts_edit_post.
  - apply same_posts_delete_posts.
  - apply same_posts_delete_all_posts.
Qed.

Section editing.

Lemma should_filter_same (cfg : Config) (u : User) (data : list byte)
    (s : state) :
  same_but_cache s (snd (should_filter cfg u data s)).
Proof.
  unfold should_filter, check_admin.
  destruct (PROFANITY_FILTER cfg); [|apply same_but_cache_refl].
  pose proof (check_permission_same (Some u) req_admin s) as F.
  unfold mbind, M_bind.
  destruct (check_permission (Some u) req_admin s) as [[b|e] s1];
    simpl in *; [|exact F].
  destruct b; simpl; [exact F|].
  destruct (contains_profanity cfg data); [|exact F].
  destruct (PROFANITY_SILENT cfg); exact F.
Qed.

End editing.

(** X12.  Only the author edits a post: when the room has no undeleted
    message with the given id that the caller wrote, [edit_post] raises and
    the database is what it was, whoever the caller is, moderators and
    admins included. *)
Theorem edit_post_only_by_author
    (cfg : Config) (user : User) (msg_id : Z) (data sig : option (list byte))
    (files_ : list Z) (s : state) :
  (∀ m, m ∈ messages (db s) -> m_id m = msg_id -> m_room m = id (self s) ->
        m_data m ≠ None -> m_user m ≠ user_id user) ->
  let r := edit_post cfg user msg_id data sig files_ s in
  (∃ e, fst r = Raise e) ∧ db (snd r) = db s.
Proof.
  intros Hnot r.
  assert (H : ∃ e s', edit_post cfg user msg_id data sig files_ s
                        = (Raise e, s') ∧ db s' = db s).
  { unfold edit_post, check_write.
    pose proof (check_permission_same (Some user) req_write s) as F1.
    unfold mbind at 1, M_bind at 1.
    destruct (check_permission (Some user) req_write s) as [[ok|e] s1];
      simpl in F1; destruct F1 as (Fdb1 & _ & _ & _ & Fid1 & _);
      [|eexists _, _; split; [reflexivity|exact Fdb1]].
    destruct ok; simpl; [|eexists _, _; split; [reflexivity|exact Fdb1]].
    destruct data as [data|]; [|eexists _, _; split; [reflexivity|exact Fdb1]].
    destruct sig as [sig|]; [|eexists _, _; split; [reflexivity|exact Fdb1]].
    destruct (decide (length sig ≠ 64%nat));
      [eexists _, _; split; [reflexivity|exact Fdb1]|].
    pose proof (should_filter_same cfg user data s1) as F2.
    unfold mbind at 1, M_bind at 1.
    destruct (should_filter cfg user data s1) as [[filtered|e] s2];
      simpl in F2; destruct F2 as (Fdb2 & _ & _ & _ & Fid2 & _);
      [|eexists _, _; split; [reflexivity|congruence]].
    unfold mbind at 1, M_bind at 1. unfold transaction.
    unfold mbind at 1, M_bind at 1, gets at 1. cbn beta iota.
    unfold mbind at 1, M_bind at 1, gets at 1. cbn beta iota.
    destruct (list_find _ (messages (db s2))) as [[i row]|] eqn:Hfind.
    - apply list_find_Some in Hfind.
      destruct Hfind as (Hi & (Hid & Hroom & Hlive) & _).
      apply list_elem_of_lookup_2 in Hi.
      rewrite Fdb2, Fdb1 in Hi. rewrite Fid2, Fid1 in Hroom.
      destruct (decide (m_user row ≠ user_id user)) as [_|N].
      + simpl. eexists _, _; split; [reflexivity|simpl; congruence].
      + exfalso. apply N. exact (Hnot row Hi Hid Hroom Hlive).
    - simpl. eexists _, _; split; [reflexivity|simpl; congruence]. }
  destruct H as (e & s' & Hrun & Hdb). subst r. rewrite Hrun.
  split; [exists e; reflexivity|exact Hdb].
Qed.

Lemma edit_post_only_by_author_witness :
  let r := edit_post default_config examples.dave 2 (Some examples.padded)
             (Some examples.sig64) [] examples.s0 in
  (∃ e, fst r = Raise e) ∧ db (snd r) = db examples.s0.
Proof.
  apply (edit_post_only_by_author default_config examples.dave 2
           (Some examples.padded) (Some examples.sig64) [] examples.s0).
  intros m Hin Hid _ _. vm_compute in Hin.
  repeat (apply elem_of_cons in Hin; destruct Hin as [->|Hin];
          [vm_compute; congruence|]).
  apply elem_of_nil in Hin. contradiction.
Defined.

Section editing_runs.

(** [edit_post] by the author of an undeleted message of the room, with
    write permission and a valid body and signature *)
Lemma edit_post_run (cfg : Config) (user : User) (msg_id : Z)
    (data sig : list byte) (files_ : list Z) (s : state) (p : perm_row)
    (i : nat) (row : message) :
  resolved_row s user = Some p ->
  decide_permission p req_write = true ->
  length sig = 64%nat ->
  list_find (fun m => m_id m = msg_id ∧ m_room m = id (self s)
                      ∧ m_data m ≠ None) (messages (db s)) = Some (i, row) ->
  m_user row = user_id user ->
  let r := edit_post cfg user msg_id (Some data) (Some sig) files_ s in
  let profane := PROFANITY_FILTER cfg && negb (is_admin p)
                 && contains_profanity cfg data in
  if profane then
    if PROFANITY_SILENT cfg
    then fst r = Ok tt ∧ db (snd r) = db s ∧ mule (snd r) = mule s
    else fst r = Raise PostRejected ∧ db (snd r) = db s
         ∧ mule (snd r) = mule s
  else
    fst r = Ok tt
    ∧ messages (db (snd r)) =
        messages (run_statement (fun m => bool_decide (m_id m = msg_id))
                    (fun m => set_content (Some data) (length data)
                                (Some sig) (m_edited m) m) (db s))
    ∧ mule (snd r) = mule s ++ [message_edited msg_id].
Proof.
  intros Hp Hw Hsig Hfind Hauthor r profane.
  pose proof (after_resolve_cached s user p Hp) as Hc.
  pose proof (after_resolve_db s user) as Hdb.
  pose proof (after_resolve_id s user) as Hid.
  pose proof (after_resolve_mule s user) as Hmu.
  pose proof (after_resolve_now s user) as Hnow.
  set (s1 := after_resolve s user) in *.
  pose proof (should_filter_run cfg user data s1 p Hc) as Hsf.
  fold profane in Hsf.
  assert (Hstart : ∀ k : bool -> M unit,
    edit_post cfg user msg_id (Some data) (Some sig) files_ s
    = (filtered ← should_filter cfg user data;
       returned ← @transaction bool (
         me ← gets self;
         d ← gets db;
         match list_find
                 (fun m => m_id m = msg_id ∧ m_room m = id me
                           ∧ m_data m ≠ None) (messages d) with
         | None => raise NoSuchPost
         | Some (_, row) =>
             let author := m_user row in
             if decide (author ≠ user_id user) then raise BadPermission
             else if (filtered : bool) then mret true
             else
               update_message msg_id
                 (utils.remove_session_message_padding data)
                 (length data) sig;;
               (if files_ is [] then mret tt
                else _own_files cfg msg_id files_ user);;
               mret false
         end);
       if (returned : bool) then mret tt
       else send_mule (message_edited msg_id)) s1).
  { intros _. unfold edit_post, check_write.
    erewrite bind_ok by (rewrite check_permission_run, Hp; reflexivity).
    rewrite Hw. simpl.
    destruct (decide (length sig ≠ 64%nat)); [contradiction|]. reflexivity. }
  subst r. rewrite (Hstart (fun _ => mret tt)). clear Hstart.
  assert (Hbody : ∀ filtered : bool,
    (me ← gets self;
     d ← gets db;
     match list_find
             (fun m => m_id m = msg_id ∧ m_room m = id me
                       ∧ m_data m ≠ None) (messages d) with
     | None => raise NoSuchPost
     | Some (_, row) =>
         let author := m_user row in
         if decide (author ≠ user_id user) then raise BadPermission
         else if (filtered : bool) then mret true
         else
           update_message msg_id
             (utils.remove_session_message_padding data)
             (length data) sig;;
           (if files_ is [] then mret tt
            else _own_files cfg msg_id files_ user);;
           mret false
     end) s1
    = (if filtered then mret true
       else
         update_message msg_id data (length data) sig;;
         (if files_ is [] then mret tt
          else _own_files cfg msg_id files_ user);;
         mret false) s1).
  { intros filtered. unfold mbind at 1, M_bind at 1, gets at 1. cbn beta iota.
    unfold mbind at 1, M_bind at 1, gets at 1. cbn beta iota.
    rewrite Hdb, Hid, Hfind. cbv zeta.
    destruct (decide (m_user row ≠ user_id user)); [contradiction|].
    rewrite remove_padding_id. reflexivity. }
  destruct profane; simpl in Hsf.
  - destruct (PROFANITY_SILENT cfg).
    + erewrite bind_ok by exact Hsf.
      erewrite bind_ok; cycle 1.
      { apply transaction_ok.
        etransitivity; [exact (Hbody true)|reflexivity]. }
      simpl. auto.
    + erewrite bind_raise by exact Hsf. simpl. auto.
  - erewrite bind_ok by exact Hsf.
    destruct files_.
    + erewrite bind_ok; cycle 1.
      { apply transaction_ok.
        etransitivity; [exact (Hbody false)|].
        unfold update_message, _own_files, mbind, M_bind, gets, modify_db,
          modify, mret, M_ret. reflexivity. }
      unfold send_mule, modify. simpl.
      rewrite Hdb, Hmu. auto.
    + erewrite bind_ok; cycle 1.
      { apply transaction_ok.
        etransitivity; [exact (Hbody false)|].
        unfold update_message, _own_files, mbind, M_bind, gets, modify_db,
          modify, mret, M_ret. reflexivity. }
      unfold send_mule, modify. simpl.
      rewrite Hdb, Hmu. auto.
Qed.

End editing_runs.

(** X13.  An edit that the silent profanity filter catches is accepted and
    dropped: [edit_post] returns normally, the message keeps its old body,
    the database is unchanged and the mule is not told of an edit. *)
Theorem silently_filtered_edit_is_dropped
    (cfg : Config) (user : User) (msg_id : Z) (data sig : list byte)
    (files_ : list Z) (s : state) (p : perm_row) (i : nat) (row : message) :
  resolved_row s user = Some p ->
  decide_permission p req_write = true ->
  length sig = 64%nat ->
  list_find (fun m => m_id m = msg_id ∧ m_room m = id (self s)
                      ∧ m_data m ≠ None) (messages (db s)) = Some (i, row) ->
  m_user row = user_id user ->
  is_admin p = false ->
  PROFANITY_FILTER cfg = true ->
  contains_profanity cfg data = true ->
  PROFANITY_SILENT cfg = true ->
  let r := edit_post cfg user msg_id (Some data) (Some sig) files_ s in
  fst r = Ok tt ∧ db (snd r) = db s ∧ mule (snd r) = mule s.
Proof.
  intros Hp Hw Hsig Hfind Hauthor Ha Hpf Hcp Hsil.
  pose proof (edit_post_run cfg user msg_id data sig files_ s p i row
                Hp Hw Hsig Hfind Hauthor) as H.
  cbv zeta in H. rewrite Ha, Hpf, Hcp, Hsil in H. exact H.
Qed.

Lemma silently_filtered_edit_is_dropped_witness :
  let r := edit_post (scenarios.filtering true) examples.alice 1
             (Some examples.padded) (Some examples.sig64) [] examples.s0 in
  fst r = Ok tt ∧ db (snd r) = db examples.s0
  ∧ mule (snd r) = mule examples.s0.
Proof.
  apply (silently_filtered_edit_is_dropped (scenarios.filtering true)
           examples.alice 1 examples.padded examples.sig64 [] examples.s0
           examples.default_row 0%nat (examples.post 1 1 100 6));
    reflexivity.
Defined.

(** X14.  An edit by the author that passes the checks replaces the body
    as given, padding included, with its full length and the new signature,
    the three columns the UPDATE names; every message with another id is
    left exactly as it was; and the mule is told of the edit. *)
Theorem edit_post_replaces_the_body
    (cfg : Config) (user : User) (msg_id : Z) (data sig : list byte)
    (files_ : list Z) (s : state) (p : perm_row) (i : nat) (row : message) :
  resolved_row s user = Some p ->
  decide_permission p req_write = true ->
  length sig = 64%nat ->
  list_find (fun m => m_id m = msg_id ∧ m_room m = id (self s)
                      ∧ m_data m ≠ None) (messages (db s)) = Some (i, row) ->
  m_user row = user_id user ->
  PROFANITY_FILTER cfg && negb (is_admin p) && contains_profanity cfg data
    = false ->
  let r := edit_post cfg user msg_id (Some data) (Some sig) files_ s in
  fst r = Ok tt
  ∧ (∃ m', messages (db (snd r)) !! i = Some m' ∧ m_id m' = msg_id)
  ∧ (∀ m', m' ∈ messages (db (snd r)) -> m_id m' = msg_id ->
       m_data m' = Some data ∧ m_data_size m' = length data
       ∧ m_signature m' = Some sig)
  ∧ (∀ m, m ∈ messages (db s) -> m_id m ≠ msg_id ->
       m ∈ messages (db (snd r)))
  ∧ mule (snd r) = mule s ++ [message_edited msg_id].
Proof.
  intros Hp Hw Hsig Hfind Hauthor Hclean.
  pose proof (edit_post_run cfg user msg_id data sig files_ s p i row
                Hp Hw Hsig Hfind Hauthor) as H.
  cbv zeta in H. rewrite Hclean in H. destruct H as (Hok & Hm & Hmu).
  cbv zeta. rewrite Hm.
  set (hit := fun m => bool_decide (m_id m = msg_id)).
  set (change := fun m => set_content (Some data) (length data) (Some sig)
                          (m_edited m) m).
  split; [exact Hok|]. split; [|split; [|split]].
  - apply list_find_Some in Hfind. destruct Hfind as (Hi & (Hid & _) & _).
    destruct (Forall2_lookup_l _ _ _ _ _
                (run_statement_Forall2 hit change (db s)) Hi)
      as (m' & Hm' & Hrel).
    exists m'. split; [exact Hm'|].
    unfold hit in Hrel. rewrite bool_decide_eq_true_2 in Hrel by exact Hid.
    destruct Hrel as [n ->]. exact Hid.
  - intros m' Hin Hid.
    destruct (run_statement_elem hit change (db s) m' Hin) as (m & Hmin & Hrel).
    destruct (hit m) eqn:Hhit.
    + destruct Hrel as [n ->]. simpl. auto.
    + subst m'. unfold hit in Hhit. apply bool_decide_eq_false in Hhit.
      contradiction.
  - intros m Hin Hne. apply run_statement_keeps; [exact Hin|].
    unfold hit. apply bool_decide_eq_false_2. exact Hne.
  - exact Hmu.
Qed.

Lemma edit_post_replaces_the_body_witness :
  let r := edit_post default_config examples.alice 1 (Some examples.padded)
             (Some examples.sig64) [] examples.s0 in
  fst r = Ok tt
  ∧ (∃ m', messages (db (snd r)) !! 0%nat = Some m' ∧ m_id m' = 1)
  ∧ (∀ m', m' ∈ messages (db (snd r)) -> m_id m' = 1 ->
       m_data m' = Some examples.padded
       ∧ m_data_size m' = length examples.padded
       ∧ m_signature m' = Some examples.sig64)
  ∧ (∀ m, m ∈ messages (db examples.s0) -> m_id m ≠ 1 ->
       m ∈ messages (db (snd r)))
  ∧ mule (snd r) = mule examples.s0 ++ [message_edited 1].
Proof.
  apply (edit_post_replaces_the_body default_config examples.alice 1
           examples.padded examples.sig64 [] examples.s0
           examples.default_row 0%nat (examples.post 1 1 100 6));
    reflexivity.
Defined.

(** ** What [delete_posts] deletes *)

Section deleted_posts.

Lemma slice_subset (ids : list Z) (i : nat) (x : Z) :
  x ∈ take 50 (drop i ids) -> x ∈ ids.
Proof.
  intros H. apply elem_of_take in H. destruct H as (j & Hj & _).
  rewrite lookup_drop in Hj. eapply list_elem_of_lookup_2. exact Hj.
Qed.

Lemma select_live_ids_inv (r : Z) (slice : list Z) (d : DB) (x : Z) :
  x ∈ select_live_ids r slice d ->
  ∃ m, m ∈ messages d ∧ m_id m = x ∧ m_room m = r ∧ m_data m ≠ None
       ∧ x ∈ slice.
Proof.
  unfold select_live_ids. intros H. apply list_elem_of_fmap in H.
  destruct H as (m & -> & Hm). apply list_elem_of_filter in Hm.
  destruct Hm as ((Hr & Hd & Hs) & Hin). exists m. auto.
Qed.

(** ids that name no undeleted message of the room: the loop runs through
    without a query for permission and without a change *)
Lemma delete_posts_loop_idle (ids : list Z) (deleter : User) (s : state) :
  (∀ m, m ∈ messages (db s) -> m_room m = id (self s) -> m_data m ≠ None ->
        m_id m ∉ ids) ->
  ∀ (fuel i : nat) (deleted : list Z),
    delete_posts_loop fuel ids deleter i deleted s = (Ok deleted, s).
Proof.
  intros Hnone. induction fuel as [|fuel IH]; intros i deleted; [reflexivity|].
  destruct (decide (i < length ids)%nat) as [Hlt|Hge].
  - rewrite delete_posts_loop_step by exact Hlt. cbv zeta.
    rewrite (elem_of_nil_inv (select_live_ids _ _ _)); [apply IH|].
    intros x Hx. apply select_live_ids_inv in Hx.
    destruct Hx as (m & Hin & <- & Hr & Hd & Hs).
    apply (Hnone m Hin Hr Hd). eapply slice_subset. exact Hs.
  - cbn [delete_posts_loop].
    destruct (decide (i < length ids)%nat); [contradiction|reflexivity].
Qed.

(** after a run of the loop that returns, the named messages of the room
    are deleted and the messages not named are as they were *)
Lemma delete_posts_loop_ok (ids : list Z) (deleter : User) (rid : Z) :
  ∀ (fuel i : nat) (deleted : list Z) (s s' : state) (out : list Z),
    (length ids ≤ i + fuel)%nat ->
    id (self s) = rid ->
    (∀ m, m ∈ messages (db s) -> m_room m = rid -> m_id m ∈ take i ids ->
          m_data m = None) ->
    delete_posts_loop fuel ids deleter i deleted s = (Ok out, s') ->
    (∀ m, m ∈ messages (db s') -> m_room m = rid -> m_id m ∈ ids ->
          m_data m = None)
    ∧ (∀ m, m ∈ messages (db s) -> m_id m ∉ ids -> m ∈ messages (db s')).
Proof.
  induction fuel as [|fuel IH]; intros i deleted s s' out Hfuel Hid Hinv Hrun.
  - simpl in Hrun. injection Hrun as <- <-.
    rewrite take_ge in Hinv by lia. auto.
  - destruct (decide (i < length ids)%nat) as [Hlt|Hge]; cycle 1.
    { cbn [delete_posts_loop] in Hrun.
      destruct (decide (i < length ids)%nat); [contradiction|].
      injection Hrun as <- <-. rewrite take_ge in Hinv by lia. auto. }
    rewrite delete_posts_loop_step in Hrun by exact Hlt. cbv zeta in Hrun.
    rewrite Hid in Hrun.
    set (slice := take 50 (drop i ids)) in *.
    assert (Hnext : ∀ d' : DB,
      (∀ m, m ∈ messages d' -> m_room m = rid -> m_id m ∈ take i ids ->
            m_data m = None) ->
      (∀ m, m ∈ messages d' -> m_room m = rid -> m_id m ∈ slice ->
            m_data m = None) ->
      ∀ m, m ∈ messages d' -> m_room m = rid ->
           m_id m ∈ take (i + 50) ids -> m_data m = None).
    { intros d' H1 H2 m Hin Hr Ht.
      rewrite <- take_take_drop in Ht. apply elem_of_app in Ht.
      destruct Ht as [Ht|Ht]; [exact (H1 m Hin Hr Ht)|exact (H2 m Hin Hr Ht)]. }
    destruct (select_live_ids rid slice (db s)) as [|x xs] eqn:Hsel.
    + apply (IH (i + 50)%nat deleted s s' out); [lia|exact Hid| |exact Hrun].
      apply Hnext; [exact Hinv|].
      intros m Hin Hr Hs. destruct (m_data m) as [b|] eqn:Hd; [|reflexivity].
      exfalso.
      assert (Hx : m_id m ∈ select_live_ids rid slice (db s)).
      { apply select_live_ids_elem; try assumption. congruence. }
      rewrite Hsel in Hx. apply elem_of_nil in Hx. exact Hx.
    + rewrite <- Hsel in Hrun. set (sel := select_live_ids rid slice (db s)) in *.
      unfold check_moderator in Hrun.
      pose proof (check_permission_same (Some deleter) req_moderator s) as F.
      unfold mbind at 1 2 3, M_bind at 1 2 3 in Hrun.
      destruct (check_permission (Some deleter) req_moderator s)
        as [[b|e] s1]; simpl in F; [|discriminate].
      destruct F as (Fdb & _ & _ & _ & Fid & _).
      assert (Hrest :
        delete_posts_loop fuel ids deleter (i + 50)%nat (deleted ++ sel)
          (set_db (run_statement
                     (fun m => bool_decide (m_id m ∈ sel) && is_live m)
                     soft_delete (db s)) s1) = (Ok out, s')).
      { destruct b; simpl in Hrun.
        - unfold delete_details_by_ids, mbind, M_bind, modify_db, modify,
            mret, M_ret in Hrun. simpl in Hrun. rewrite Fdb in Hrun.
          exact Hrun.
        - unfold mbind at 1, M_bind at 1, gets at 1 in Hrun.
          cbn beta iota in Hrun.
          destruct (exists_foreign (user_id deleter) sel (db s1));
            [discriminate|].
          unfold delete_details_by_ids, mbind, M_bind, modify_db, modify,
            mret, M_ret in Hrun. simpl in Hrun. rewrite Fdb in Hrun.
          exact Hrun. }
      clear Hrun.
      set (hit := fun m => bool_decide (m_id m ∈ sel) && is_live m) in *.
      assert (Hfuel' : (length ids ≤ i + 50 + fuel)%nat) by lia.
      assert (Hid' : id (self (set_db (run_statement hit soft_delete (db s))
                                 s1)) = rid) by (simpl; congruence).
      destruct (fun Hinv' =>
                  IH (i + 50)%nat (deleted ++ sel) _ s' out Hfuel' Hid' Hinv'
                     Hrest) as [Hdead Hkept].
      * simpl. apply Hnext.
        -- intros m' Hin Hr Ht.
           destruct (run_statement_elem hit soft_delete (db s) m' Hin)
             as (m & Hmin & Hrel).
           destruct (hit m); [destruct Hrel as [n ->]; reflexivity|].
           subst m'. exact (Hinv m Hmin Hr Ht).
        -- intros m' Hin Hr Hs.
           destruct (run_statement_elem hit soft_delete (db s) m' Hin)
             as (m & Hmin & Hrel).
           destruct (hit m) eqn:Hhit; [destruct Hrel as [n ->]; reflexivity|].
           subst m'. destruct (m_data m) as [bd|] eqn:Hd; [|reflexivity].
           exfalso.
           assert (Hx : m_id m ∈ sel).
           { apply select_live_ids_elem; try assumption. congruence. }
           unfold hit, is_live in Hhit.
           rewrite bool_decide_eq_true_2 in Hhit by exact Hx.
           rewrite bool_decide_eq_true_2 in Hhit by congruence.
           discriminate.
      * split; [exact Hdead|].
        intros m Hin Hnot. apply Hkept; [|exact Hnot].
        simpl. apply run_statement_keeps; [exact Hin|].
        unfold hit. rewrite bool_decide_eq_false_2; [reflexivity|].
        intros Hx. apply select_live_ids_inv in Hx.
        destruct Hx as (m0 & _ & _ & _ & _ & Hs).
        apply Hnot. eapply slice_subset. exact Hs.
Qed.

End deleted_posts.

(** X15.  When [delete_posts] returns, every message of the room whose id
    was given is deleted (its data is null), whichever slice of 50 it fell
    in, and every message whose id was not given is exactly as it was. *)
Theorem delete_posts_deletes_the_named
    (ids : list Z) (deleter : User) (s s' : state) (deleted : list Z) :
  delete_posts ids deleter s = (Ok deleted, s') ->
  (∀ m, m ∈ messages (db s') -> m_room m = id (self s) -> m_id m ∈ ids ->
        m_data m = None)
  ∧ (∀ m, m ∈ messages (db s) -> m_id m ∉ ids -> m ∈ messages (db s')).
Proof.
  unfold delete_posts, transaction. intros Hrun.
  destruct (delete_posts_loop (length ids) ids deleter 0 [] s)
    as [[out|e] s1] eqn:Hloop; [|discriminate].
  injection Hrun as <- <-.
  apply (delete_posts_loop_ok ids deleter (id (self s)) (length ids) 0%nat []
           s s1 out); [lia|reflexivity| |exact Hloop].
  intros m _ _ H. rewrite take_0 in H. apply elem_of_nil in H. contradiction.
Qed.

Lemma delete_posts_deletes_the_named_witness :
  let s' := snd (delete_posts examples.mixed_ids examples.carol examples.s0) in
  (∀ m, m ∈ messages (db s') -> m_room m = id (self examples.s0) ->
        m_id m ∈ examples.mixed_ids -> m_data m = None)
  ∧ (∀ m, m ∈ messages (db examples.s0) -> m_id m ∉ examples.mixed_ids ->
        m ∈ messages (db s')).
Proof.
  eapply (delete_posts_deletes_the_named examples.mixed_ids examples.carol
            examples.s0).
  vm_compute. reflexivity.
Defined.

(** X16.  Ids that name no undeleted message of the room (an empty list,
    ids of other rooms, ids already deleted) make [delete_posts] return the
    empty list and change nothing at all; the deleter's permission is not
    even looked up, so this holds for every caller. *)
Theorem delete_posts_of_nothing
    (ids : list Z) (deleter : User) (s : state) :
  (∀ m, m ∈ messages (db s) -> m_room m = id (self s) -> m_data m ≠ None ->
        m_id m ∉ ids) ->
  delete_posts ids deleter s = (Ok [], s).
Proof.
  intros H. unfold delete_posts.
  apply transaction_ok. apply delete_posts_loop_idle. exact H.
Qed.

Lemma delete_posts_of_nothing_witness :
  delete_posts [7; 8; 9] examples.bob examples.s_busy_banned
    = (Ok [], examples.s_busy_banned).
Proof.
  apply (delete_posts_of_nothing [7; 8; 9] examples.bob
           examples.s_busy_banned).
  intros m Hin _ _. vm_compute in Hin.
  repeat (apply elem_of_cons in Hin; destruct Hin as [->|Hin];
          [vm_compute; intros H;
           repeat (apply elem_of_cons in H; destruct H as [H|H];
                   [discriminate|]);
           apply elem_of_nil in H; contradiction|]).
  apply elem_of_nil in Hin. contradiction.
Defined.

(** ** The sweeper *)

Section sweeping.
Import cleanup.

Lemma set_db_eta (s : state) : set_db (db s) s = s.
Proof. destruct s; reflexivity. Qed.

Lemma set_overrides_eta (d : DB) :
  set_overrides (user_permission_overrides d) d = d.
Proof. destruct d; reflexivity. Qed.

Lemma set_permission_futures_eta (d : DB) :
  set_permission_futures (user_permission_futures d) d = d.
Proof. destruct d; reflexivity. Qed.

Lemma filter_all {A} (P : A -> Prop) `{!∀ x, Decision (P x)} (l : list A) :
  (∀ x, x ∈ l -> P x) -> filter P l = l.
Proof.
  induction l as [|x l IH]; intros Hall; [reflexivity|].
  rewrite filter_cons_True by (apply Hall; left).
  rewrite IH; [reflexivity|]. intros y Hy. apply Hall. right. exact Hy.
Qed.

Lemma filter_none {A} (P : A -> Prop) `{!∀ x, Decision (P x)} (l : list A) :
  (∀ x, x ∈ l -> ¬ P x) -> filter P l = [].
Proof.
  intros Hall. apply elem_of_nil_inv. intros x Hx.
  apply list_elem_of_filter in Hx. destruct Hx as [HP Hin].
  exact (Hall x Hin HP).
Qed.

(** one run of [apply_permission_updates], whether it finds due rows or
    not *)
Lemma apply_permission_updates_run (s : state) :
  let due := filter (fun f => pf_at f ≤ now s)
               (user_permission_futures (db s)) in
  apply_permission_updates s =
    (Ok (length due),
     set_db (set_permission_futures
               (filter (fun f => ¬ (pf_at f ≤ now s))
                  (user_permission_futures (db s)))
               (set_overrides
                  (foldl apply_future (user_permission_overrides (db s)) due)
                  (db s))) s).
Proof.
  intros due. unfold apply_permission_updates, transaction, mbind, M_bind,
    gets, modify_db, modify, mret, M_ret. simpl. fold due.
  destruct (decide (length due = 0%nat)) as [E|N]; simpl; [|reflexivity].
  rewrite E. do 2 f_equal. pose proof E as Hnil.
  apply length_zero_iff_nil in Hnil.
  rewrite filter_all.
  - rewrite Hnil. simpl. rewrite set_overrides_eta.
    rewrite set_permission_futures_eta. reflexivity.
  - intros f Hf Hd.
    assert (Hin : f ∈ due) by (apply list_elem_of_filter; auto).
    rewrite Hnil in Hin. apply elem_of_nil in Hin. exact Hin.
Qed.

Lemma apply_future_other (ov : gmap (Z * Z) override) (f : perm_future)
    (key : Z * Z) :
  (pf_room f, pf_user f) ≠ key -> apply_future ov f !! key = ov !! key.
Proof.
  intros N. unfold apply_future.
  destruct (ov !! (pf_room f, pf_user f));
    rewrite lookup_insert_ne by exact N; reflexivity.
Qed.

Lemma apply_futures_other (due : list perm_future)
    (ov : gmap (Z * Z) override) (key : Z * Z) :
  (∀ g, g ∈ due -> (pf_room g, pf_user g) ≠ key) ->
  foldl apply_future ov due !! key = ov !! key.
Proof.
  revert ov. induction due as [|f rest IH]; intros ov H; [reflexivity|].
  simpl. rewrite IH by (intros g Hg; apply H; right; exact Hg).
  apply apply_future_other. apply H. left.
Qed.

Lemma apply_future_rank (ov : gmap (Z * Z) override) (f : perm_future)
    (key : Z * Z) (o : override) :
  ov !! key = Some o ->
  ∃ o', apply_future ov f !! key = Some o' ∧ same_rank o o'.
Proof.
  intros Ho. destruct (decide ((pf_room f, pf_user f) = key)) as [E|N].
  - unfold apply_future. rewrite E, Ho. rewrite lookup_insert_eq.
    eexists. split; [reflexivity|]. repeat split.
  - rewrite apply_future_other by exact N. exists o. split; [exact Ho|].
    repeat split.
Qed.

Lemma apply_futures_rank (due : list perm_future)
    (ov : gmap (Z * Z) override) (key : Z * Z) (o : override) :
  ov !! key = Some o ->
  ∃ o', foldl apply_future ov due !! key = Some o' ∧ same_rank o o'.
Proof.
  revert ov o. induction due as [|f rest IH]; intros ov o Ho.
  - exists o. split; [exact Ho|]. repeat split.
  - simpl. destruct (apply_future_rank ov f key o Ho) as (o1 & H1 & R1).
    destruct (IH _ _ H1) as (o2 & H2 & R2). exists o2. split; [exact H2|].
    destruct R1 as (?&?&?&?&?), R2 as (?&?&?&?&?).
    repeat split; congruence.
Qed.

(** the row of [f]'s key once [f] has been applied *)
Lemma apply_future_self (ov : gmap (Z * Z) override) (f : perm_future) :
  let old := ov !! (pf_room f, pf_user f) in
  ∃ o, apply_future ov f !! (pf_room f, pf_user f) = Some o
       ∧ o_read o = coalesce (pf_read f) (old ≫= o_read)
       ∧ o_write o = coalesce (pf_write f) (old ≫= o_write)
       ∧ o_upload o = coalesce (pf_upload f) (old ≫= o_upload).
Proof.
  intros old. subst old. unfold apply_future.
  destruct (ov !! (pf_room f, pf_user f)) as [o|];
    rewrite lookup_insert_eq; eexists; (split; [reflexivity|]); simpl.
  - auto.
  - destruct (pf_read f), (pf_write f), (pf_upload f); auto.
Qed.

End sweeping.

(** X17.  One run of [apply_permission_updates] returns the number of
    scheduled rows that are due ([at <= now]) and leaves exactly the rows
    that are not; a second run at the same moment applies nothing, returns 0
    and changes nothing. *)
Theorem apply_permission_updates_schedule (s : state) :
  let r := cleanup.apply_permission_updates s in
  fst r = Ok (length (filter (fun f => pf_at f ≤ now s)
                        (user_permission_futures (db s))))
  ∧ (∀ f, f ∈ user_permission_futures (db (snd r))
          ↔ f ∈ user_permission_futures (db s) ∧ now s < pf_at f)
  ∧ cleanup.apply_permission_updates (snd r) = (Ok 0%nat, snd r).
Proof.
  cbv zeta. rewrite (apply_permission_updates_run s). cbn [fst snd].
  split; [reflexivity|]. split.
  - intros f. simpl. rewrite list_elem_of_filter. split.
    + intros [H1 H2]. split; [exact H2|lia].
    + intros [H1 H2]. split; [lia|exact H1].
  - rewrite apply_permission_updates_run. simpl.
    rewrite (filter_none (fun f => pf_at f ≤ now s)
               (filter _ (user_permission_futures (db s)))).
    + simpl. rewrite filter_all; [reflexivity|].
      intros f Hf. apply list_elem_of_filter in Hf. tauto.
    + intros f Hf. apply list_elem_of_filter in Hf. tauto.
Qed.

Section sole_row.
Import cleanup.

Lemma apply_future_at_key (ov1 ov2 : gmap (Z * Z) override) (f : perm_future) :
  ov1 !! (pf_room f, pf_user f) = ov2 !! (pf_room f, pf_user f) ->
  apply_future ov1 f !! (pf_room f, pf_user f)
  = apply_future ov2 f !! (pf_room f, pf_user f).
Proof.
  intros E. unfold apply_future. rewrite E.
  destruct (ov2 !! (pf_room f, pf_user f)); rewrite !lookup_insert_eq;
    reflexivity.
Qed.

(** where [f] is the only row of [l] for its room and user, the rows of
    [l] leave at that key what [f] alone leaves there, wherever in [l] it
    stands *)
Lemma apply_futures_sole (l : list perm_future) (f : perm_future)
    (ov : gmap (Z * Z) override) :
  filter (fun g => (pf_room g, pf_user g) = (pf_room f, pf_user f)) l = [f] ->
  foldl apply_future ov l !! (pf_room f, pf_user f)
  = apply_future ov f !! (pf_room f, pf_user f).
Proof.
  revert ov. induction l as [|g l IH]; intros ov Hsole; [discriminate|].
  cbn [foldl].
  destruct (decide ((pf_room g, pf_user g) = (pf_room f, pf_user f)))
    as [E|N].
  - rewrite filter_cons_True in Hsole by exact E.
    injection Hsole as -> Hrest.
    apply apply_futures_other. intros h Hh Hk.
    assert (Hin : h ∈ filter (fun g => (pf_room g, pf_user g)
                                       = (pf_room f, pf_user f)) l)
      by (apply list_elem_of_filter; auto).
    rewrite Hrest in Hin. apply elem_of_nil in Hin. exact Hin.
  - rewrite filter_cons_False in Hsole by exact N.
    rewrite (IH _ Hsole). apply apply_future_at_key.
    apply apply_future_other. exact N.
Qed.

End sole_row.

(** X18.  A due row of user_permission_futures that is the only due row
    for its room and user takes effect on their override: read, write and
    upload are what the row gives, and a column the row leaves null keeps
    the value the override had, or is null in an override newly made.  The
    [INSERT ... SELECT] has no [ORDER BY]; the outcome for this room and
    user is the same in whatever order the due rows are applied. *)
Theorem due_future_takes_effect (s : state) (f : perm_future) :
  let due := filter (fun g => pf_at g ≤ now s)
               (user_permission_futures (db s)) in
  let key := (pf_room f, pf_user f) in
  let old := user_permission_overrides (db s) !! key in
  filter (fun g => (pf_room g, pf_user g) = key) due = [f] ->
  ∃ o,
    user_permission_overrides (db (snd (cleanup.apply_permission_updates s)))
      !! key = Some o
    ∧ o_read o = cleanup.coalesce (pf_read f) (old ≫= o_read)
    ∧ o_write o = cleanup.coalesce (pf_write f) (old ≫= o_write)
    ∧ o_upload o = cleanup.coalesce (pf_upload f) (old ≫= o_upload)
    ∧ ∀ order, order ≡ₚ due ->
        foldl cleanup.apply_future (user_permission_overrides (db s)) order
          !! key = Some o.
Proof.
  intros due key old Hsole.
  destruct (apply_future_self (user_permission_overrides (db s)) f)
    as (o & Ho & Hr & Hw & Hu).
  exists o. split; [|split; [exact Hr|split; [exact Hw|split; [exact Hu|]]]].
  - rewrite (apply_permission_updates_run s). cbn [snd]. simpl.
    fold due. subst key. rewrite (apply_futures_sole due f _ Hsole).
    exact Ho.
  - intros order Hperm. subst key.
    rewrite (apply_futures_sole order f); [exact Ho|].
    apply Permutation_singleton_r. rewrite Hperm. rewrite Hsole.
    reflexivity.
Qed.

Lemma due_future_takes_effect_witness :
  ∃ o,
    user_permission_overrides
      (db (snd (cleanup.apply_permission_updates scenarios.s_swept)))
      !! (10, 1) = Some o
    ∧ o_read o = Some false ∧ o_write o = None.
Proof.
  destruct (due_future_takes_effect scenarios.s_swept
              (scenarios.future 1 950 (Some false) None))
    as (o & Ho & Hr & Hw & _).
  - vm_compute. reflexivity.
  - exists o. split; [exact Ho|]. split; [exact Hr|exact Hw].
Defined.

(** X19.  [apply_permission_updates] names read, write and upload only: an
    override that exists keeps its accessible, banned, moderator, admin and
    visible_mod columns whatever rows are due, and the override of a room
    and user for which no row is due is left as it is, or left absent. *)
Theorem apply_permission_updates_keeps_rank (s : state) (key : Z * Z) :
  let ov := user_permission_overrides (db s) in
  let ov' :=
    user_permission_overrides
      (db (snd (cleanup.apply_permission_updates s))) in
  (∀ o, ov !! key = Some o -> ∃ o', ov' !! key = Some o' ∧ same_rank o o')
  ∧ ((∀ g, g ∈ user_permission_futures (db s) -> pf_at g ≤ now s ->
           (pf_room g, pf_user g) ≠ key) ->
     ov' !! key = ov !! key).
Proof.
  cbv zeta. rewrite (apply_permission_updates_run s). cbn [snd]. simpl.
  split.
  - intros o Ho. apply apply_futures_rank. exact Ho.
  - intros H. apply apply_futures_other. intros g Hg.
    apply list_elem_of_filter in Hg. destruct Hg as [Hd Hin]. auto.
Qed.

Lemma apply_permission_updates_keeps_rank_witness :
  let ov' :=
    user_permission_overrides
      (db (snd (cleanup.apply_permission_updates scenarios.s_swept))) in
  (∃ o', ov' !! (10, 3) = Some o'
         ∧ same_rank examples.moderator_override o')
  ∧ ov' !! (10, 3) = Some examples.moderator_override.
Proof.
  destruct (apply_permission_updates_keeps_rank scenarios.s_swept (10, 3))
    as [H1 H2].
  split.
  - apply H1. vm_compute. reflexivity.
  - cbv zeta in H2. rewrite H2; [vm_compute; reflexivity|].
    intros g Hg _. vm_compute in Hg.
    repeat (apply elem_of_cons in Hg; destruct Hg as [->|Hg];
            [vm_compute; discriminate|]).
    apply elem_of_nil in Hg. contradiction.
Defined.

Section pruning.
Import cleanup accessors.

Lemma unlink_all_run (cfg : Config) (paths : list string) (s : state) :
  ∃ s', unlink_all cfg paths s = (Ok tt, s')
        ∧ self s' = self s ∧ db s' = db s ∧ now s' = now s
        ∧ mule s' = mule s
        ∧ ∀ p, p ∈ disk s'
               ↔ p ∈ disk s ∧ (p ∉ paths ∨ unlink_fails cfg p = true).
Proof.
  revert s. induction paths as [|q rest IH]; intros s.
  - exists s. repeat (split; [reflexivity|]). intros p.
    split; [intros H; split; [exact H|left; apply not_elem_of_nil]|tauto].
  - destruct (unlink_fails cfg q) eqn:Hq.
    + destruct (IH s) as (s' & Hrun & Hself & Hdb & Hnow & Hmule & Hdisk).
      exists s'. split.
      { cbn [unlink_all]. unfold mbind, M_bind, unlink. rewrite Hq.
        exact Hrun. }
      repeat (split; [assumption|]). intros p. rewrite Hdisk.
      rewrite not_elem_of_cons.
      destruct (decide (p = q)) as [->|N]; [|tauto].
      rewrite Hq. tauto.
    + destruct (IH (set_disk (filter (fun p => p ≠ q) (disk s)) s))
        as (s' & Hrun & Hself & Hdb & Hnow & Hmule & Hdisk).
      exists s'. split.
      { cbn [unlink_all]. unfold mbind, M_bind, unlink, modify. rewrite Hq.
        cbn beta iota. exact Hrun. }
      repeat (split; [assumption|]). intros p. rewrite Hdisk. simpl.
      rewrite list_elem_of_filter, not_elem_of_cons.
      destruct (decide (p = q)) as [->|N]; [|tauto].
      rewrite Hq. split; [tauto|]. intros [_ [[H _]|H]]; [tauto|discriminate].
Qed.

(** one run of [prune_files] that finds something to remove *)
Lemma prune_files_run (cfg : Config) (s : state) :
  let expired := filter (expired_before (now s)) (files (db s)) in
  if expired is [] then prune_files cfg s = (Ok 0%nat, s)
  else
    ∃ s', prune_files cfg s = (Ok (length expired), s')
          ∧ files (db s')
            = filter (fun f => ¬ expired_by (now s) f) (files (db s))
          ∧ (∀ p, p ∈ disk s'
                  ↔ p ∈ disk s ∧ (p ∉ f_path <$> expired
                                  ∨ unlink_fails cfg p = true))
          ∧ self s' = self s ∧ now s' = now s.
Proof.
  intros expired. subst expired.
  unfold prune_files, transaction, mbind, M_bind, gets, modify_db, modify,
    mret, M_ret. simpl.
  destruct (filter (expired_before (now s)) (files (db s)))
    as [|f rest] eqn:He; simpl; [reflexivity|].
  match goal with
  | |- context [(?m ≫= ?k) ?st] =>
      change ((m ≫= k) st)
        with (unlink_all cfg
                (f_path f :: list_fmap File string f_path rest) st);
      destruct (unlink_all_run cfg
                  (f_path f :: list_fmap File string f_path rest) st)
        as (s' & Hrun & Hself & Hdb & Hnow & Hmule & Hdisk)
  end.
  exists s'. rewrite Hrun. cbv beta iota.
  split; [rewrite length_fmap; reflexivity|].
  split; [rewrite Hdb; reflexivity|]. split; [exact Hdisk|].
  split; assumption.
Qed.

Lemma list_find_filter {A} (P Q : A -> Prop) `{!∀ x, Decision (P x)}
    `{!∀ x, Decision (Q x)} (l : list A) (i : nat) (x : A) :
  list_find P l = Some (i, x) -> Q x ->
  ∃ j, list_find P (filter Q l) = Some (j, x).
Proof.
  revert i. induction l as [|y l IH]; intros i Hfind HQ; [discriminate|].
  cbn in Hfind. destruct (decide (P y)) as [HP|HP].
  - injection Hfind as <- <-. rewrite filter_cons_True by exact HQ.
    exists 0%nat. cbn. rewrite decide_True by exact HP. reflexivity.
  - destruct (list_find P l) as [[i' x']|] eqn:Hl; [|discriminate].
    cbn in Hfind. injection Hfind as <- <-.
    destruct (IH i' eq_refl HQ) as (j & Hj).
    destruct (decide (Q y)) as [Hy|Hy].
    + rewrite filter_cons_True by exact Hy. exists (S j). cbn.
      rewrite decide_False by exact HP. rewrite Hj. reflexivity.
    + rewrite filter_cons_False by exact Hy. exists j. exact Hj.
Qed.

Lemma NoDup_fmap_inj {A B} (h : A -> B) (l : list A) (x y : A) :
  NoDup (h <$> l) -> x ∈ l -> y ∈ l -> h x = h y -> x = y.
Proof.
  induction l as [|a l IH]; intros Hnd Hx Hy E.
  - apply elem_of_nil in Hx. contradiction.
  - rewrite fmap_cons in Hnd. apply NoDup_cons in Hnd.
    destruct Hnd as [Hna Hnd].
    apply elem_of_cons in Hx. apply elem_of_cons in Hy.
    destruct Hx as [->|Hx], Hy as [->|Hy].
    + reflexivity.
    + exfalso. apply Hna. rewrite E. apply list_elem_of_fmap. eauto.
    + exfalso. apply Hna. rewrite <- E. apply list_elem_of_fmap. eauto.
    + auto.
Qed.

(** [get_file] where the table of id hacks is not consulted *)
Lemma get_file_plain (hacks : list (Z * Z * Z)) (fid : Z) (s : state) :
  get_file false hacks fid s =
    (Ok (match snd <$> list_find
                 (fun f => f_room f = id (self s) ∧ f_id f = fid)
                 (files (db s)) with
         | Some f =>
             match f_expiry f with
             | None => Some f
             | Some e => if decide (now s < e) then Some f else None
             end
         | None => None
         end), s).
Proof.
  unfold get_file, mbind, M_bind, gets, mret, M_ret. simpl.
  destruct (list_find _ (files (db s))) as [[i f]|]; simpl; [|reflexivity].
  destruct (f_expiry f) as [e|]; [|reflexivity].
  destruct (decide (now s < e)); reflexivity.
Qed.

Lemma expired_before_by (t : Z) (f : File) :
  expired_before t f -> expired_by t f.
Proof. unfold expired_before, expired_by. destruct (f_expiry f); [lia|tauto]. Qed.

End pruning.

(** X20.  [prune_files] returns the number of files whose expiry lies
    strictly before now, whether or not their unlinking succeeds; none of
    these is in the table afterwards, no file is added, and a file without
    expiry or with an expiry after now is kept.  On the disk, the paths of
    the expired files are gone except those on which [os.unlink] failed,
    which stay where they are; no other path is removed.  When no file has
    expired strictly, nothing changes at all. *)
Theorem prune_files_removes_the_expired (cfg : Config) (s : state) :
  let r := cleanup.prune_files cfg s in
  let expired := filter (cleanup.expired_before (now s)) (files (db s)) in
  fst r = Ok (length expired)
  ∧ (∀ f, f ∈ files (db (snd r)) ->
          f ∈ files (db s) ∧ ¬ cleanup.expired_before (now s) f)
  ∧ (∀ f, f ∈ files (db s) -> ¬ cleanup.expired_by (now s) f ->
          f ∈ files (db (snd r)))
  ∧ (∀ p, p ∈ disk (snd r)
          ↔ p ∈ disk s ∧ (p ∉ f_path <$> expired
                          ∨ unlink_fails cfg p = true))
  ∧ (expired = [] -> snd r = s).
Proof.
  intros r expired. subst r expired. pose proof (prune_files_run cfg s) as H.
  cbv zeta in H.
  destruct (filter (cleanup.expired_before (now s)) (files (db s)))
    as [|f0 rest] eqn:He.
  - rewrite H. cbn [fst snd length]. split; [reflexivity|].
    split.
    { intros f Hf. split; [exact Hf|]. intros Hx.
      assert (Hin : f ∈ filter (cleanup.expired_before (now s))
                          (files (db s)))
        by (apply list_elem_of_filter; auto).
      rewrite He in Hin. apply elem_of_nil in Hin. exact Hin. }
    split; [auto|].
    split; [|reflexivity].
    intros p. cbn [fmap list_fmap].
    split; [intros Hp; split; [exact Hp|left; apply not_elem_of_nil]|tauto].
  - destruct H as (s' & Hrun & Hfiles & Hdisk & _). rewrite Hrun.
    cbn [fst snd].
    split; [reflexivity|]. split.
    { intros f Hf. rewrite Hfiles in Hf. apply list_elem_of_filter in Hf.
      destruct Hf as [Hn Hin]. split; [exact Hin|].
      intros Hx. apply Hn. apply expired_before_by. exact Hx. }
    split.
    { intros f Hin Hn. rewrite Hfiles. apply list_elem_of_filter. auto. }
    split; [exact Hdisk|discriminate].
Qed.

(** X21.  The table and the disk part ways at the boundary.  [prune_files]
    selects the files to unlink with [expiry < now] and deletes rows with
    [expiry <= now]: when some file has expired strictly, a file whose
    expiry is exactly now loses its row, but its path, unless an expired
    file has the same, stays on the disk, where no row names it any more. *)
Theorem prune_files_orphans_the_boundary
    (cfg : Config) (s : state) (f g : File) :
  f ∈ files (db s) -> f_expiry f = Some (now s) ->
  g ∈ files (db s) -> cleanup.expired_before (now s) g ->
  f_path f ∈ disk s ->
  (∀ h, h ∈ files (db s) -> cleanup.expired_before (now s) h ->
        f_path h ≠ f_path f) ->
  let s' := snd (cleanup.prune_files cfg s) in
  (f ∉ files (db s')) ∧ f_path f ∈ disk s'.
Proof.
  intros Hf Hexp Hg Hgx Hdisk Hpath s'. subst s'.
  pose proof (prune_files_run cfg s) as H. cbv zeta in H.
  assert (Hin : g ∈ filter (cleanup.expired_before (now s)) (files (db s)))
    by (apply list_elem_of_filter; auto).
  destruct (filter (cleanup.expired_before (now s)) (files (db s)))
    as [|f0 rest] eqn:He; [apply elem_of_nil in Hin; contradiction|].
  destruct H as (s' & Hrun & Hfiles & Hd & _). rewrite Hrun. cbn [snd].
  split.
  - rewrite Hfiles. intros Hx. apply list_elem_of_filter in Hx.
    destruct Hx as [Hn _]. apply Hn. unfold cleanup.expired_by.
    rewrite Hexp. lia.
  - apply Hd. split; [exact Hdisk|]. left. intros Hx.
    apply list_elem_of_fmap in Hx. destruct Hx as (h & Hp & Hh).
    rewrite <- He in Hh. apply list_elem_of_filter in Hh.
    destruct Hh as [Hhx Hhin]. exact (Hpath h Hhin Hhx (eq_sym Hp)).
Qed.

Lemma prune_files_orphans_the_boundary_witness :
  let s' := snd (cleanup.prune_files default_config scenarios.s_swept) in
  (scenarios.upload 2 (Some 1000) "up/2" ∉ files (db s'))
  ∧ "up/2" ∈ disk s'.
Proof.
  apply (prune_files_orphans_the_boundary default_config scenarios.s_swept
           (scenarios.upload 2 (Some 1000) "up/2")
           (scenarios.upload 1 (Some 400) "up/1")).
  - apply (list_elem_of_lookup_2 _ 1%nat). reflexivity.
  - reflexivity.
  - apply (list_elem_of_lookup_2 _ 0%nat). reflexivity.
  - vm_compute. reflexivity.
  - apply (list_elem_of_lookup_2 _ 1%nat). reflexivity.
  - intros h Hh Hx. vm_compute in Hh.
    repeat (apply elem_of_cons in Hh; destruct Hh as [->|Hh];
            [first [discriminate
                   |exfalso; vm_compute in Hx; first [discriminate|tauto]]|]).
    apply elem_of_nil in Hh. contradiction.
Defined.

(** X22.  Pruning takes no file away from a reader.  With file ids unique,
    as in a table keyed by id, and the table of id hacks not in use,
    [get_file] answers every id after [prune_files] as it did before: what
    the sweeper deletes, [get_file] had already stopped returning. *)
Theorem pruning_hides_no_file
    (cfg : Config) (hacks : list (Z * Z * Z)) (file_id : Z) (s : state) :
  NoDup (f_id <$> files (db s)) ->
  fst (get_file false hacks file_id (snd (cleanup.prune_files cfg s)))
  = fst (get_file false hacks file_id s).
Proof.
  intros Hnd. pose proof (prune_files_run cfg s) as H. cbv zeta in H.
  destruct (filter (cleanup.expired_before (now s)) (files (db s)))
    as [|f0 rest]; [rewrite H; reflexivity|].
  destruct H as (s' & Hrun & Hfiles & _ & Hself & Hnow).
  rewrite Hrun. cbn [snd]. rewrite !get_file_plain. cbn [fst].
  rewrite Hfiles, Hself, Hnow. f_equal.
  set (P := fun f => f_room f = id (self s) ∧ f_id f = file_id).
  set (Q := fun f => ¬ cleanup.expired_by (now s) f).
  destruct (list_find P (files (db s))) as [[i f]|] eqn:Hfind.
  - pose proof Hfind as Hf. apply list_find_Some in Hf.
    destruct Hf as (Hi & HP & _).
    assert (Hin : f ∈ files (db s)) by (eapply list_elem_of_lookup_2; eauto).
    destruct (decide (Q f)) as [HQ|HQ].
    + destruct (list_find_filter P Q _ _ _ Hfind HQ) as (j & ->).
      reflexivity.
    + assert (Hnone : list_find P (filter Q (files (db s))) = None).
      { destruct (list_find P (filter Q (files (db s)))) as [[j g]|] eqn:Hg;
          [|reflexivity].
        exfalso. apply list_find_Some in Hg. destruct Hg as (Hj & HPg & _).
        apply list_elem_of_lookup_2 in Hj. apply list_elem_of_filter in Hj.
        destruct Hj as [HQg Hgin].
        assert (g = f).
        { apply (NoDup_fmap_inj f_id (files (db s))); try assumption.
          destruct HP as [_ ->], HPg as [_ ->]. reflexivity. }
        subst g. contradiction. }
      rewrite Hnone. cbn [fmap option_fmap option_map snd].
      unfold Q, cleanup.expired_by in HQ.
      destruct (f_expiry f) as [e|]; [|tauto].
      destruct (decide (now s < e)); [lia|reflexivity].
  - assert (Hnone : list_find P (filter Q (files (db s))) = None).
    { apply list_find_None. apply list_find_None in Hfind.
      rewrite Forall_forall in Hfind |- *. intros g Hg.
      apply list_elem_of_filter in Hg. apply Hfind. tauto. }
    rewrite Hnone. reflexivity.
Qed.

Lemma pruning_hides_no_file_witness :
  fst (get_file false [] 3
         (snd (cleanup.prune_files default_config scenarios.s_swept)))
  = fst (get_file false [] 3 scenarios.s_swept).
Proof.
  apply (pruning_hides_no_file default_config [] 3 scenarios.s_swept).
  vm_compute. repeat constructor; intros H;
    repeat (apply elem_of_cons in H; destruct H as [H|H];
            [discriminate|]);
    apply elem_of_nil in H; exact H.
Defined.

(** X23.  [prune_room_activity] removes no row that [active_users] counts,
    as long as the cutoff asked for does not reach back beyond
    ROOM_ACTIVE_PRUNE_THRESHOLD days: the count is the same after pruning
    as before. *)
Theorem pruning_keeps_recent_activity (cfg : Config) (cutoff : Z) (s : state) :
  cutoff ≤ ROOM_ACTIVE_PRUNE_THRESHOLD cfg * 86400 ->
  fst (active_users cutoff (snd (cleanup.prune_room_activity cfg s)))
  = fst (active_users cutoff s).
Proof.
  intros Hc. unfold active_users, cleanup.prune_room_activity, transaction,
    mbind, M_bind, gets, modify_db, modify, mret, M_ret. simpl.
  do 2 f_equal. apply list_filter_filter_l.
  intros [[r u] t] [H1 H2]. simpl in *. lia.
Qed.

Lemma pruning_keeps_recent_activity_witness :
  fst (active_users 3600
         (snd (cleanup.prune_room_activity default_config scenarios.s_swept)))
  = fst (active_users 3600 scenarios.s_swept).
Proof.
  apply (pruning_keeps_recent_activity default_config 3600 scenarios.s_swept).
  vm_compute. discriminate.
Defined.

(** X24.  [get_file] only reads, and never hands out a file that has
    expired: a file it returns is a row of the table whose expiry is null or
    after now.  The file is the room's own file of the id asked for, unless
    it was reached through the table of id hacks; then it is the file the
    hack row of this room names, whichever room that file belongs to. *)
Theorem get_file_returns
    (have_file_id_hacks : bool) (file_id_hacks : list (Z * Z * Z))
    (file_id : Z) (s : state) :
  ∃ r,
    get_file have_file_id_hacks file_id_hacks file_id s = (Ok r, s)
    ∧ ∀ f, r = Some f ->
        f ∈ files (db s)
        ∧ ¬ cleanup.expired_by (now s) f
        ∧ ((f_room f = id (self s) ∧ f_id f = file_id)
           ∨ (have_file_id_hacks = true
              ∧ ∃ h, h ∈ file_id_hacks ∧ h.1.1 = id (self s)
                     ∧ h.1.2 = file_id ∧ f_id f = h.2)).
Proof.
  unfold get_file, mbind, M_bind, gets, mret, M_ret. simpl.
  set (P := fun f => f_room f = id (self s) ∧ f_id f = file_id).
  assert (Hvis : ∀ f (origin : Prop),
    f ∈ files (db s) -> origin ->
    ∃ r,
      match f_expiry f with
      | Some e => if decide (now s < e)
                  then fun s0 : state => (Ok (Some f), s0)
                  else fun s0 : state => (Ok None, s0)
      | None => fun s0 : state => (Ok (Some f), s0)
      end s = (Ok r, s)
      ∧ ∀ g, r = Some g ->
          g ∈ files (db s) ∧ ¬ cleanup.expired_by (now s) g
          ∧ (g = f ∧ origin)).
  { intros f origin Hin Ho. unfold cleanup.expired_by.
    destruct (f_expiry f) as [e|] eqn:He.
    - destruct (decide (now s < e)).
      + eexists. split; [reflexivity|]. intros g [= <-]. rewrite He.
        repeat split; [assumption|lia|assumption].
      + eexists. split; [reflexivity|]. discriminate.
    - eexists. split; [reflexivity|]. intros g [= <-]. rewrite He.
      repeat split; [assumption|tauto|assumption]. }
  destruct (list_find P (files (db s))) as [[i f]|] eqn:Hfind; simpl.
  - apply list_find_Some in Hfind. destruct Hfind as (Hi & HP & _).
    apply list_elem_of_lookup_2 in Hi.
    destruct (Hvis f (P f) Hi HP) as (r & Hr & Hall).
    exists r. split; [exact Hr|]. intros g Hg.
    destruct (Hall g Hg) as (H1 & H2 & -> & H3). auto.
  - destruct have_file_id_hacks; simpl;
      [|exists None; split; [reflexivity|discriminate]].
    destruct (list_find _ file_id_hacks) as [[j h]|] eqn:Hh; simpl;
      [|exists None; split; [reflexivity|discriminate]].
    apply list_find_Some in Hh. destruct Hh as (Hj & [Hh1 Hh2] & _).
    apply list_elem_of_lookup_2 in Hj.
    destruct (list_find (fun f => f_id f = h.2) (files (db s)))
      as [[k f]|] eqn:Hf; simpl;
      [|exists None; split; [reflexivity|discriminate]].
    apply list_find_Some in Hf. destruct Hf as (Hk & Hid & _).
    apply list_elem_of_lookup_2 in Hk.
    destruct (Hvis f (f_id f = h.2) Hk Hid) as (r & Hr & Hall).
    exists r. split; [exact Hr|]. intros g Hg.
    destruct (Hall g Hg) as (H1 & H2 & -> & H3).
    split; [assumption|]. split; [assumption|]. right.
    split; [reflexivity|]. exists h. auto.
Qed.

(** ** Granting and revoking *)

Section granting.

Lemma fresh_row (s : state) (u : User) :
  _perm_cache (self s) !! user_id u = None ->
  resolved_row s u = user_permissions (db s) (id (self s)) (user_id u).
Proof. unfold resolved_row. intros ->. reflexivity. Qed.

(** a call of [set_permissions] that passes its checks *)
Lemma set_permissions_state (cfg : Config) (user mod_ : User) (k : perms)
    (s : state) (pm : perm_row) :
  let target := fst (check_blinding cfg (db s) user) in
  let key := (id (self s), user_id target) in
  no_perms k = false ->
  resolved_row s mod_ = Some pm ->
  decide_permission pm req_moderator = true ->
  ∃ s', set_permissions cfg user mod_ k s = (Ok tt, s')
    ∧ id (self s') = id (self s)
    ∧ rooms (db s') = rooms (db s)
    ∧ user_permission_overrides (db s') =
        <[key := set_perms k
                   (default empty_override
                      (user_permission_overrides (db s) !! key))]>
          (user_permission_overrides (db s))
    ∧ _perm_cache (self s') !! user_id target = None.
Proof.
  intros target key Hk Hpm Hmod. subst key target.
  unfold set_permissions, check_moderator. rewrite Hk.
  destruct (check_permission_grows mod_ req_moderator s pm Hpm)
    as (s1 & R1 & (Fdb & _ & _ & _ & Fid & _) & _ & _).
  erewrite bind_ok by exact R1. rewrite Hmod. simpl.
  unfold transaction, mbind, M_bind, gets, modify_db, modify, mret, M_ret,
    record_needs_blinding, evict, modify_self.
  destruct s1 as [me1 d1 t1 mu1 dk1]. simpl in *. subst d1.
  destruct (check_blinding cfg (db s) user) as [tb need].
  destruct need; simpl; (eexists; split; [reflexivity|]); simpl;
    rewrite ?Fid, lookup_delete_eq; auto.
Qed.

(** a call of [set_moderator] by an admin *)
Lemma set_moderator_state (cfg : Config) (user added_by : User)
    (admin_ : option bool) (visible : bool) (s : state) (pa : perm_row) :
  let target := fst (check_blinding cfg (db s) user) in
  let key := (id (self s), user_id target) in
  resolved_row s added_by = Some pa ->
  is_admin pa = true ->
  ∃ s', set_moderator cfg user added_by admin_ visible s = (Ok tt, s')
    ∧ id (self s') = id (self s)
    ∧ rooms (db s') = rooms (db s)
    ∧ user_permission_overrides (db s') =
        (let o := default empty_override
                    (user_permission_overrides (db s) !! key) in
         <[key := set_mod (Some true)
                    (if admin_ is Some a then Some a else o_admin o)
                    (Some visible) o]>
           (user_permission_overrides (db s)))
    ∧ _perm_cache (self s') !! user_id target = None.
Proof.
  intros target key Hpa Hadm. subst key target.
  unfold set_moderator, check_admin.
  destruct (check_permission_grows added_by req_admin s pa Hpa)
    as (s1 & R1 & (Fdb & _ & _ & _ & Fid & _) & _ & _).
  erewrite bind_ok by exact R1.
  rewrite decide_permission_req_admin, Hadm. simpl.
  unfold transaction, mbind, M_bind, gets, modify_db, modify, mret, M_ret,
    record_needs_blinding, evict, modify_self.
  destruct s1 as [me1 d1 t1 mu1 dk1]. simpl in *. subst d1.
  destruct (check_blinding cfg (db s) user) as [tb need].
  destruct need; simpl; (eexists; split; [reflexivity|]); simpl;
    rewrite ?Fid, lookup_delete_eq; auto.
Qed.

(** a call of [remove_moderator] by an admin *)
Lemma remove_moderator_state (user removed_by : User)
    (remove_admin_only : bool) (s : state) (pa : perm_row) :
  let key := (id (self s), user_id user) in
  resolved_row s removed_by = Some pa ->
  is_admin pa = true ->
  ∃ s', remove_moderator user removed_by remove_admin_only s = (Ok tt, s')
    ∧ id (self s') = id (self s)
    ∧ rooms (db s') = rooms (db s)
    ∧ user_permission_overrides (db s') =
        alter (fun o =>
                 if remove_admin_only
                 then set_mod (o_moderator o) (Some false) (o_visible_mod o) o
                 else set_mod (Some false) (Some false) (Some true) o)
          key (user_permission_overrides (db s))
    ∧ _perm_cache (self s') !! user_id user = None.
Proof.
  intros key Hpa Hadm. subst key.
  unfold remove_moderator, check_admin.
  destruct (check_permission_grows removed_by req_admin s pa Hpa)
    as (s1 & R1 & (Fdb & _ & _ & _ & Fid & _) & _ & _).
  erewrite bind_ok by exact R1.
  rewrite decide_permission_req_admin, Hadm. simpl.
  unfold mbind, M_bind, gets, modify_db, modify, mret, M_ret,
    evict, modify_self.
  destruct s1 as [me1 d1 t1 mu1 dk1]. simpl in *. subst d1.
  eexists. split; [reflexivity|]. simpl.
  rewrite ?Fid, lookup_delete_eq. auto.
Qed.

(** a check that is refused before anything is written *)
Lemma refused (u : User) (req : requirements) (s : state) (p : perm_row)
    (k : bool -> M unit) :
  resolved_row s u = Some p ->
  decide_permission p req = false ->
  (∀ s1, k false s1 = (Raise BadPermission, s1)) ->
  let r := (ok ← check_permission (Some u) req; k ok) s in
  fst r = Raise BadPermission ∧ db (snd r) = db s.
Proof.
  intros Hp Hd Hk r. subst r.
  destruct (check_permission_grows u req s p Hp)
    as (s1 & R1 & (Fdb & _) & _ & _).
  erewrite bind_ok by exact R1. rewrite Hd, Hk. simpl. auto.
Qed.

End granting.

(** X25.  [set_permissions] by a moderator takes effect on the very next
    check of the same instance: each permission named in the call is the
    value given, or the room default where it is given as None; each
    permission not named, and the ban and the rank, are as the database had
    them.  The override of every other room and user is untouched. *)
Theorem set_permissions_takes_effect
    (cfg : Config) (user mod_ : User) (k : perms) (s : state)
    (pm : perm_row) (row : room_row) (req : requirements) :
  let target := fst (check_blinding cfg (db s) user) in
  let key := (id (self s), user_id target) in
  let o := default empty_override (user_permission_overrides (db s) !! key) in
  no_perms k = false ->
  resolved_row s mod_ = Some pm ->
  decide_permission pm req_moderator = true ->
  rooms (db s) !! id (self s) = Some row ->
  let r := set_permissions cfg user mod_ k s in
  fst r = Ok tt
  ∧ fst (check_permission (Some target) req (snd r)) =
      Ok (decide_permission
            {| is_banned := default false (o_banned o);
               can_read := default (r_read row)
                             (default (o_read o) (kw_read k));
               can_access := default (r_accessible row)
                               (default (o_accessible o) (kw_accessible k));
               can_write := default (r_write row)
                              (default (o_write o) (kw_write k));
               can_upload := default (r_upload row)
                               (default (o_upload o) (kw_upload k));
               is_mod := default false (o_moderator o);
               is_admin := default false (o_admin o) |} req)
  ∧ ∀ key', key' ≠ key ->
      user_permission_overrides (db (snd r)) !! key'
      = user_permission_overrides (db s) !! key'.
Proof.
  intros target key o Hk Hpm Hmod Hroom r. subst r o key target.
  destruct (set_permissions_state cfg user mod_ k s pm Hk Hpm Hmod)
    as (s' & Hrun & Hid & Hrooms & Hov & Hcache).
  rewrite Hrun. cbn [fst snd]. split; [reflexivity|]. split.
  - rewrite check_permission_run, (fresh_row s' _ Hcache).
    unfold user_permissions. rewrite Hid, Hrooms, Hroom, Hov. simpl.
    rewrite lookup_insert_eq. reflexivity.
  - intros key' Hne. rewrite Hov. apply lookup_insert_ne. congruence.
Qed.

Lemma set_permissions_takes_effect_witness :
  let revoke := {| kw_read := None; kw_accessible := None;
                   kw_write := Some (Some false); kw_upload := None |} in
  let r := set_permissions default_config examples.bob examples.carol revoke
             examples.s0 in
  fst r = Ok tt
  ∧ fst (check_write (Some examples.bob) (snd r)) = Ok false
  ∧ fst (check_read (Some examples.bob) (snd r)) = Ok true.
Proof.
  intros revoke r.
  destruct (set_permissions_takes_effect default_config examples.bob
              examples.carol revoke examples.s0 examples.moderator_row
              examples.lobby_row req_write) as (H1 & H2 & _);
    [reflexivity|vm_compute; reflexivity|reflexivity|reflexivity|].
  destruct (set_permissions_takes_effect default_config examples.bob
              examples.carol revoke examples.s0 examples.moderator_row
              examples.lobby_row req_read) as (_ & H3 & _);
    [reflexivity|vm_compute; reflexivity|reflexivity|reflexivity|].
  split; [exact H1|]. split; [exact H2|exact H3].
Defined.

(** X26.  Changes of permission are refused before anything is written:
    [set_permissions] without a permission key raises [ValueError], whoever
    calls, and with one raises [BadPermission] for a caller who is not a
    moderator; [set_moderator] and [remove_moderator] raise [BadPermission]
    for a caller who is not an admin, a moderator included.  The database is
    unchanged in each case. *)
Theorem permission_changes_refused
    (cfg : Config) (user by_ : User) (s : state) (p : perm_row) :
  resolved_row s by_ = Some p ->
  (∀ k, no_perms k = true ->
        set_permissions cfg user by_ k s = (Raise ValueError, s))
  ∧ (∀ k, no_perms k = false -> decide_permission p req_moderator = false ->
          let r := set_permissions cfg user by_ k s in
          fst r = Raise BadPermission ∧ db (snd r) = db s)
  ∧ (∀ admin_ visible, is_admin p = false ->
       let r := set_moderator cfg user by_ admin_ visible s in
       fst r = Raise BadPermission ∧ db (snd r) = db s)
  ∧ (∀ remove_admin_only, is_admin p = false ->
       let r := remove_moderator user by_ remove_admin_only s in
       fst r = Raise BadPermission ∧ db (snd r) = db s).
Proof.
  intros Hp. split; [|split; [|split]].
  - intros k Hk. unfold set_permissions. rewrite Hk. reflexivity.
  - intros k Hk Hd. unfold set_permissions, check_moderator. rewrite Hk.
    apply (refused by_ req_moderator s p); auto.
  - intros admin_ visible Ha. unfold set_moderator, check_admin.
    apply (refused by_ req_admin s p); auto.
    rewrite decide_permission_req_admin. exact Ha.
  - intros remove_admin_only Ha. unfold remove_moderator, check_admin.
    apply (refused by_ req_admin s p); auto.
    rewrite decide_permission_req_admin. exact Ha.
Qed.

Lemma permission_changes_refused_witness :
  fst (set_moderator default_config examples.bob examples.carol (Some false)
         true examples.s0) = Raise BadPermission
  ∧ fst (remove_moderator examples.dave examples.carol false examples.s0)
    = Raise BadPermission.
Proof.
  destruct (permission_changes_refused default_config examples.bob
              examples.carol examples.s0 examples.moderator_row)
    as (_ & _ & H3 & _); [vm_compute; reflexivity|].
  destruct (permission_changes_refused default_config examples.dave
              examples.carol examples.s0 examples.moderator_row)
    as (_ & _ & _ & H4); [vm_compute; reflexivity|].
  split.
  - apply (H3 (Some false) true). reflexivity.
  - apply (H4 false). reflexivity.
Defined.

(** X27.  Rank given and taken by an admin shows on the next check.  After
    [set_moderator] on a user who has no ban on record in the room, the user
    passes every check that does not require admin, and passes the admin
    check as the [admin] argument says, or as the database said where it is
    None.  After [remove_moderator] the user fails the admin check, and the
    moderator check too unless only admin was to be removed; then the
    moderator check is as the database said. *)
Theorem rank_changes_take_effect
    (cfg : Config) (user by_ : User) (s : state) (pa : perm_row)
    (row : room_row) :
  resolved_row s by_ = Some pa ->
  is_admin pa = true ->
  rooms (db s) !! id (self s) = Some row ->
  (∀ admin_ visible,
     let target := fst (check_blinding cfg (db s) user) in
     let old := user_permission_overrides (db s)
                  !! (id (self s), user_id target) in
     default false (old ≫= o_banned) = false ->
     let r := set_moderator cfg user by_ admin_ visible s in
     fst r = Ok tt
     ∧ (∀ req, admin req = false ->
          fst (check_permission (Some target) req (snd r)) = Ok true)
     ∧ fst (check_admin (Some target) (snd r))
       = Ok (default false
               (if admin_ is Some a then Some a else old ≫= o_admin)))
  ∧ (∀ remove_admin_only,
       let old := user_permission_overrides (db s)
                    !! (id (self s), user_id user) in
       let r := remove_moderator user by_ remove_admin_only s in
       fst r = Ok tt
       ∧ fst (check_admin (Some user) (snd r)) = Ok false
       ∧ fst (check_moderator (Some user) (snd r))
         = Ok (remove_admin_only && default false (old ≫= o_moderator))).
Proof.
  intros Hpa Hadm Hroom. split.
  - intros admin_ visible target old _ r. subst r old.
    destruct (set_moderator_state cfg user by_ admin_ visible s pa Hpa Hadm)
      as (s' & Hrun & Hid & Hrooms & Hov & Hcache).
    cbv zeta in Hov. fold target in Hov, Hcache. clearbody target.
    rewrite Hrun. cbn [fst snd]. split; [reflexivity|].
    assert (Hrow : resolved_row s' target =
      Some {| is_banned :=
                default false
                  (o_banned (default empty_override
                     (user_permission_overrides (db s)
                        !! (id (self s), user_id target))));
              can_read :=
                default (r_read row)
                  (o_read (default empty_override
                     (user_permission_overrides (db s)
                        !! (id (self s), user_id target))));
              can_access :=
                default (r_accessible row)
                  (o_accessible (default empty_override
                     (user_permission_overrides (db s)
                        !! (id (self s), user_id target))));
              can_write :=
                default (r_write row)
                  (o_write (default empty_override
                     (user_permission_overrides (db s)
                        !! (id (self s), user_id target))));
              can_upload :=
                default (r_upload row)
                  (o_upload (default empty_override
                     (user_permission_overrides (db s)
                        !! (id (self s), user_id target))));
              is_mod := true;
              is_admin :=
                default false
                  (if admin_ is Some a then Some a
                   else o_admin (default empty_override
                          (user_permission_overrides (db s)
                             !! (id (self s), user_id target)))) |}).
    { rewrite (fresh_row s' _ Hcache). unfold user_permissions.
      rewrite Hid, Hrooms, Hroom, Hov. simpl.
      rewrite lookup_insert_eq. reflexivity. }
    split.
    + intros req Hreq. rewrite check_permission_run, Hrow. cbn [fst].
      unfold decide_permission. cbn [is_admin is_mod]. rewrite Hreq.
      match goal with
      | |- Ok (if ?b then true else _) = _ => destruct b; reflexivity
      end.
    + unfold check_admin. rewrite check_permission_run, Hrow. cbn [fst].
      rewrite decide_permission_req_admin. cbn.
      destruct admin_ as [a|]; [reflexivity|].
      destruct (user_permission_overrides (db s)
                  !! (id (self s), user_id target)); reflexivity.
  - intros remove_admin_only old r. subst r old.
    destruct (remove_moderator_state user by_ remove_admin_only s pa
                Hpa Hadm)
      as (s' & Hrun & Hid & Hrooms & Hov & Hcache).
    rewrite Hrun. cbn [fst snd]. split; [reflexivity|].
    unfold check_admin, check_moderator.
    rewrite !check_permission_run, (fresh_row s' _ Hcache).
    unfold user_permissions. rewrite Hid, Hrooms, Hroom, Hov. simpl.
    rewrite lookup_alter_eq.
    destruct (user_permission_overrides (db s)
                !! (id (self s), user_id user)) as [o|]; simpl.
    + destruct remove_admin_only; simpl.
      * unfold decide_permission. simpl. split; [reflexivity|].
        destruct (default false (o_moderator o)); reflexivity.
      * split; reflexivity.
    + rewrite andb_false_r. split; reflexivity.
Qed.

Lemma rank_changes_take_effect_witness :
  fst (check_moderator (Some examples.bob)
         (snd (set_moderator default_config examples.bob examples.dave
                 (Some false) true examples.s0))) = Ok true
  ∧ fst (check_moderator (Some examples.carol)
           (snd (remove_moderator examples.carol examples.dave false
                   examples.s0))) = Ok false.
Proof.
  destruct (rank_changes_take_effect default_config examples.bob
              examples.dave examples.s0 examples.admin_row
              examples.lobby_row) as [H1 _];
    [vm_compute; reflexivity|reflexivity|reflexivity|].
  destruct (rank_changes_take_effect default_config examples.carol
              examples.dave examples.s0 examples.admin_row
              examples.lobby_row) as [_ H2];
    [vm_compute; reflexivity|reflexivity|reflexivity|].
  split.
  - destruct (H1 (Some false) true) as (_ & Hreq & _); [reflexivity|].
    apply (Hreq req_moderator). reflexivity.
  - destruct (H2 false) as (_ & _ & Hm). rewrite Hm. reflexivity.
Defined.

(** ** Deleting all posts of a user *)

Section wiping.

Lemma image_run (s : state) :
  ∃ img s', image s = (Ok img, s') ∧ db s' = db s
            ∧ id (self s') = id (self s).
Proof.
  unfold image, mbind, M_bind, gets, modify_self, modify, mret, M_ret. simpl.
  destruct (_fetch_image_id (self s)) as [fid|]; [|eauto].
  destruct (File_by_id (db s) fid); simpl; eauto.
Qed.

(** the two checks at the head of [delete_all_posts] *)
Lemma delete_all_posts_checks (poster deleter : User) (s : state)
    (pp pd : perm_row) (k : bool -> M (nat * nat)) :
  resolved_row s poster = Some pp ->
  resolved_row s deleter = Some pd ->
  let fail :=
    (bool_decide (user_id poster ≠ user_id deleter)
     && negb (decide_permission pd req_moderator))
    || (is_admin pp && negb (is_admin pd)) in
  ∃ s1,
    db s1 = db s ∧ id (self s1) = id (self s)
    ∧ (not_allowed ←
         (if decide (user_id poster ≠ user_id deleter) then
            m ← check_moderator (Some deleter); mret (negb m)
          else mret false);
       fail ←
         (if (not_allowed : bool) then mret true
          else
            poster_admin ← check_admin (Some poster);
            if (poster_admin : bool) then
              a ← check_admin (Some deleter); mret (negb a)
            else mret false);
       k fail) s = k fail s1.
Proof.
  intros Hpp Hpd fail. subst fail. unfold check_moderator, check_admin.
  assert (H1 : ∃ s1, same_but_cache s s1 ∧
    (if decide (user_id poster ≠ user_id deleter) then
       m ← check_permission (Some deleter) req_moderator; mret (negb m)
     else mret false) s
    = (Ok (bool_decide (user_id poster ≠ user_id deleter)
           && negb (decide_permission pd req_moderator)), s1)).
  { destruct (decide (user_id poster ≠ user_id deleter)) as [N|E].
    - destruct (check_permission_grows deleter req_moderator s pd Hpd)
        as (s1 & R1 & F1 & _).
      exists s1. split; [exact F1|]. erewrite bind_ok by exact R1.
      rewrite bool_decide_eq_true_2 by exact N. reflexivity.
    - exists s. split; [apply same_but_cache_refl|].
      rewrite bool_decide_eq_false_2 by exact E. reflexivity. }
  destruct H1 as (s1 & F1 & R1).
  erewrite bind_ok by exact R1.
  destruct (bool_decide (user_id poster ≠ user_id deleter)
            && negb (decide_permission pd req_moderator)); cbn [orb].
  { exists s1. destruct F1 as (Fdb & _ & _ & _ & Fid & _).
    split; [exact Fdb|]. split; [exact Fid|]. reflexivity. }
  destruct (check_permission_grows poster req_admin s1 pp)
    as (s2 & R2 & F2 & _).
  { destruct F1 as (_ & _ & _ & _ & _ & F). rewrite F. exact Hpp. }
  pose proof (same_but_cache_trans _ _ _ F1 F2) as F12.
  unfold mbind at 1, M_bind at 1. unfold mbind at 1, M_bind at 1.
  rewrite R2. rewrite decide_permission_req_admin.
  destruct (is_admin pp); cbn [andb].
  - destruct (check_permission_grows deleter req_admin s2 pd)
      as (s3 & R3 & F3 & _).
    { destruct F12 as (_ & _ & _ & _ & _ & F). rewrite F. exact Hpd. }
    erewrite bind_ok by exact R3. rewrite decide_permission_req_admin.
    pose proof (same_but_cache_trans _ _ _ F12 F3) as F123.
    exists s3. destruct F123 as (Fdb & _ & _ & _ & Fid & _).
    split; [exact Fdb|]. split; [exact Fid|]. reflexivity.
  - exists s2. destruct F12 as (Fdb & _ & _ & _ & Fid & _).
    split; [exact Fdb|]. split; [exact Fid|]. reflexivity.
Qed.

End wiping.

Section wiped.

Lemma run_statement_files (hit : message -> bool)
    (change : message -> message) (d : DB) :
  files (run_statement hit change d) = files d.
Proof.
  unfold run_statement.
  destruct (stamp_rows hit change (messages d) (rooms d)). reflexivity.
Qed.

Lemma delete_all_posts_head (poster deleter : User) (s : state)
    (pp pd : perm_row) :
  resolved_row s poster = Some pp ->
  resolved_row s deleter = Some pd ->
  let fail :=
    (bool_decide (user_id poster ≠ user_id deleter)
     && negb (decide_permission pd req_moderator))
    || (is_admin pp && negb (is_admin pd)) in
  ∃ s1,
    db s1 = db s ∧ id (self s1) = id (self s)
    ∧ ∀ k : bool -> M (nat * nat),
        (not_allowed ←
           (if decide (user_id poster ≠ user_id deleter) then
              m ← check_moderator (Some deleter); mret (negb m)
            else mret false);
         fail ←
           (if (not_allowed : bool) then mret true
            else
              poster_admin ← check_admin (Some poster);
              if (poster_admin : bool) then
                a ← check_admin (Some deleter); mret (negb a)
              else mret false);
         k fail) s = k fail s1.
Proof.
  intros Hpp Hpd fail.
  destruct (delete_all_posts_checks poster deleter s pp pd
              (fun f s' => (Ok (if f then 1%nat else 0%nat, 0%nat), s'))
              Hpp Hpd)
    as (s1' & Hdb' & Hid' & H).
  cbv zeta in H. fold fail in H.
  exists s1'. split; [exact Hdb'|]. split; [exact Hid'|]. intros k.
  unfold mbind at 1 2, M_bind at 1 2.
  unfold mbind at 1 2, M_bind at 1 2 in H.
  match goal with
  | |- (let (_, _) := ?A s in _) = _ => destruct (A s) as [[na|e] sa]
  end; [|discriminate H].
  match type of H with
  | (let (_, _) := ?B sa in _) = _ => destruct (B sa) as [[f|e] sb]
  end; [|discriminate H].
  injection H as Hf ->.
  destruct f, fail; try discriminate Hf; reflexivity.
Qed.

End wiped.

(** X28.  [delete_all_posts] is refused, with [BadPermission] and an
    unchanged database, to a deleter who is neither the poster nor a
    moderator, and to a deleter who is not an admin when the poster is one.
    Otherwise it returns the number of the poster's undeleted messages in
    the room; afterwards every message of the poster in the room is deleted,
    no message of another user or room has changed, and no file of another
    uploader or room has changed. *)
Theorem delete_all_posts_outcomes
    (poster deleter : User) (s : state) (pp pd : perm_row) :
  resolved_row s poster = Some pp ->
  resolved_row s deleter = Some pd ->
  let r := delete_all_posts poster deleter s in
  ((user_id poster ≠ user_id deleter
    ∧ decide_permission pd req_moderator = false)
   ∨ (is_admin pp = true ∧ is_admin pd = false) ->
   fst r = Raise BadPermission ∧ db (snd r) = db s)
  ∧ (user_id poster = user_id deleter
     ∨ decide_permission pd req_moderator = true ->
     (is_admin pp = true -> is_admin pd = true) ->
     ∃ files_removed,
       fst r = Ok (length (filter
                     (fun m => m_room m = id (self s)
                               ∧ m_user m = user_id poster
                               ∧ m_data m ≠ None) (messages (db s))),
                   files_removed)
       ∧ (∀ m, m ∈ messages (db (snd r)) -> m_room m = id (self s) ->
               m_user m = user_id poster -> m_data m = None)
       ∧ (∀ m, m ∈ messages (db s) ->
               m_room m ≠ id (self s) ∨ m_user m ≠ user_id poster ->
               m ∈ messages (db (snd r)))
       ∧ (∀ f, f ∈ files (db s) ->
               f_room f ≠ id (self s) ∨ f_uploader f ≠ user_id poster ->
               f ∈ files (db (snd r)))).
Proof.
  intros Hpp Hpd r. subst r.
  destruct (delete_all_posts_head poster deleter s pp pd Hpp Hpd)
    as (s1 & Hdb & Hid & Hrun).
  unfold delete_all_posts. rewrite Hrun. clear Hrun. split.
  - intros Hfail.
    assert (E : (bool_decide (user_id poster ≠ user_id deleter)
                 && negb (decide_permission pd req_moderator))
                || (is_admin pp && negb (is_admin pd)) = true).
    { destruct Hfail as [[N Hm]|[Ha Hb]].
      - rewrite bool_decide_eq_true_2 by exact N. rewrite Hm. reflexivity.
      - rewrite Ha, Hb. apply orb_true_r. }
    rewrite E. simpl. auto.
  - intros Hmay Hadm.
    assert (E : (bool_decide (user_id poster ≠ user_id deleter)
                 && negb (decide_permission pd req_moderator))
                || (is_admin pp && negb (is_admin pd)) = false).
    { apply orb_false_iff. split.
      - destruct Hmay as [Heq|Hm].
        + rewrite bool_decide_eq_false_2 by (intros N; exact (N Heq)).
          reflexivity.
        + rewrite Hm. apply andb_false_r.
      - destruct (is_admin pp); [rewrite Hadm|]; reflexivity. }
    rewrite E.
    unfold transaction, mbind, M_bind, gets, delete_details_by_user,
      modify_db, modify, mret, M_ret. cbn beta iota.
    match goal with
    | |- context [image ?st] =>
        destruct (image_run st) as (img & s3 & Himg & Hdb3 & Hid3);
        rewrite Himg
    end.
    cbn beta iota. cbn [fst snd db set_db files set_files messages].
    rewrite Hdb3. cbn [db set_db]. rewrite Hdb, Hid.
    eexists. split; [reflexivity|].
    set (hit := fun m => bool_decide (m_room m = id (self s))
                         && bool_decide (m_user m = user_id poster)
                         && is_live m).
    split; [|split].
    + intros m' Hin Hr Hu.
      destruct (run_statement_elem hit soft_delete (db s) m' Hin)
        as (m & Hmin & Hrel).
      destruct (hit m) eqn:Hhit; [destruct Hrel as [n ->]; reflexivity|].
      subst m'. unfold hit, is_live in Hhit.
      rewrite !bool_decide_eq_true_2 in Hhit by assumption.
      simpl in Hhit. apply bool_decide_eq_false_1 in Hhit.
      destruct (m_data m); [exfalso; apply Hhit; discriminate|reflexivity].
    + intros m Hin Hother. apply run_statement_keeps; [exact Hin|].
      unfold hit. destruct Hother as [N|N];
        rewrite (bool_decide_eq_false_2 _ N); [reflexivity|].
      apply andb_false_iff. left. apply andb_false_r.
    + intros f Hin Hother. apply list_elem_of_fmap. exists f.
      split; [|rewrite run_statement_files; exact Hin].
      destruct Hother as [N|N];
        rewrite (bool_decide_eq_false_2 _ N); [reflexivity|].
      rewrite andb_false_r. reflexivity.
Qed.

Lemma delete_all_posts_outcomes_witness :
  fst (delete_all_posts examples.dave examples.carol examples.s0)
    = Raise BadPermission
  ∧ ∃ files_removed,
      fst (delete_all_posts examples.bob examples.carol examples.s0)
        = Ok (1%nat, files_removed).
Proof.
  destruct (delete_all_posts_outcomes examples.dave examples.carol examples.s0
              examples.admin_row examples.moderator_row) as [H1 _];
    [vm_compute; reflexivity|vm_compute; reflexivity|].
  destruct (delete_all_posts_outcomes examples.bob examples.carol examples.s0
              examples.default_row examples.moderator_row) as [_ H2];
    [vm_compute; reflexivity|vm_compute; reflexivity|].
  split.
  - apply H1. right. split; reflexivity.
  - destruct H2 as (n & Hn & _); [right; reflexivity|discriminate|].
    exists n. rewrite Hn. reflexivity.
Defined.

(** X29.  A reload of a [Room] instance without arguments reads the row of
    its own id: it fails with [NoSuchRoom] when the room is gone, it takes
    the defaults of the row, and with [perms=True] it drops the permission
    cache, so that the next check decides on what the database holds now;
    without it the rows looked up before the reload keep deciding.  More
    than one of id, token and row is a [ValueError].  Failing, it changes
    nothing. *)
Theorem refresh_outcomes
    (perms : bool) (s : state) (u : User) (req : requirements) :
  (∀ id_ token row_, (1 < count_given row_ id_ token)%nat ->
     _refresh id_ token row_ perms s = (Raise ValueError, s))
  ∧ (rooms (db s) !! id (self s) = None ->
     _refresh None None None perms s = (Raise NoSuchRoom, s))
  ∧ (∀ row, rooms (db s) !! id (self s) = Some row ->
       let r := _refresh None None None perms s in
       fst r = Ok tt ∧ db (snd r) = db s ∧ id (self (snd r)) = id (self s)
       ∧ _default_read (self (snd r)) = r_read row
       ∧ _default_accessible (self (snd r)) = r_accessible row
       ∧ _default_write (self (snd r)) = r_write row
       ∧ _default_upload (self (snd r)) = r_upload row
       ∧ ∀ p,
           (if perms
            then user_permissions (db s) (id (self s)) (user_id u)
            else resolved_row s u) = Some p ->
           fst (check_permission (Some u) req (snd r))
           = Ok (decide_permission p req)).
Proof.
  split; [|split].
  - intros id_ token row_ Hn.
    unfold _refresh, mbind, M_bind, gets, raise. simpl.
    destruct (decide (count_given row_ id_ token = 0%nat)); [lia|].
    destruct (decide (count_given row_ id_ token ≠ 1%nat)); [reflexivity|lia].
  - intros Hnone.
    unfold _refresh, room_by_id, mbind, M_bind, gets, mret, M_ret, raise.
    simpl. rewrite Hnone. reflexivity.
  - intros row Hrow r. subst r.
    unfold _refresh, room_by_id, mbind, M_bind, gets, mret, M_ret,
      modify_self, modify. simpl. rewrite Hrow. simpl.
    repeat (split; [reflexivity|]).
    intros p Hp. rewrite check_permission_run.
    unfold resolved_row at 1. simpl.
    destruct perms.
    + rewrite lookup_empty, Hp. reflexivity.
    + unfold resolved_row in Hp.
      destruct (_perm_cache (self s) !! user_id u) as [q|].
      * injection Hp as ->. reflexivity.
      * rewrite Hp. reflexivity.
Qed.

Lemma refresh_outcomes_witness :
  _refresh (Some 10) (Some "lobby") None true examples.s0
    = (Raise ValueError, examples.s0)
  ∧ fst (check_permission (Some examples.bob) req_write
           (snd (_refresh None None None true examples.s_busy_banned)))
    = Ok false.
Proof.
  destruct (refresh_outcomes true examples.s0 examples.bob req_write)
    as (H1 & _ & _).
  destruct (refresh_outcomes true examples.s_busy_banned examples.bob
              req_write) as (_ & _ & H3).
  split.
  - apply H1. vm_compute. lia.
  - destruct (H3 (set_sequence 12 examples.lobby_row)) as (_ & _ & _ & _ & _
      & _ & _ & Hc); [vm_compute; reflexivity|].
    apply (Hc examples.banned_row). vm_compute. reflexivity.
Defined.

(** X30.  A value that [get_int_param] returns for an argument that is
    given lies between [min] and [max], provided [min] does not exceed
    [max] (a value truncated to one bound is not held against the other).
    Without [truncate] the value is the argument as parsed, and an argument
    out of range is a Bad Request; with [truncate] every number is accepted.
    An argument that is not a number is a Bad Request either way. *)
Theorem get_int_param_bounds
    (val : string) (int_ : string -> option Z) (default : option Z)
    (required : bool) (min max : option Z) (truncate : bool) :
  let r := params.get_int_param (Some val) int_ default required min max
             truncate in
  (int_ val = None -> r = params.BadRequest)
  ∧ (∀ n, int_ val = Some n ->
       (truncate = true -> ∃ v, r = params.Value (Some v))
       ∧ (truncate = false ->
          (r = params.Value (Some n)
           ∧ (∀ lo, min = Some lo -> lo ≤ n)
           ∧ (∀ hi, max = Some hi -> n ≤ hi))
          ∨ (r = params.BadRequest
             ∧ ((∃ lo, min = Some lo ∧ n < lo)
                ∨ (∃ hi, max = Some hi ∧ hi < n))))
       ∧ (∀ v, r = params.Value v ->
            ∃ v', v = Some v'
                  ∧ (∀ lo, min = Some lo ->
                       (∀ hi, max = Some hi -> lo ≤ hi) -> lo ≤ v')
                  ∧ (∀ hi, max = Some hi ->
                       (∀ lo, min = Some lo -> lo ≤ hi) -> v' ≤ hi))).
Proof.
  intros r. subst r. unfold params.get_int_param. split.
  - intros ->. reflexivity.
  - intros n ->.
    destruct min as [lo|], max as [hi|]; cbn;
      repeat match goal with
             | |- context [?a <? ?b] => destruct (Z.ltb_spec a b)
             end;
      destruct truncate;
      (split; [|split]).
    all: try (intros Ht; try discriminate Ht; eexists; reflexivity).
    all: try (intros Ht; try discriminate Ht;
              first
                [ left; split; [reflexivity|];
                  split; intros ? E; try discriminate E;
                  injection E as <-; lia
                | right; split; [reflexivity|];
                  first [ left; eexists; split; [reflexivity|lia]
                        | right; eexists; split; [reflexivity|lia] ] ]).
    all: intros v Hv; try discriminate Hv; injection Hv as <-;
      eexists; (split; [reflexivity|]);
      (split; intros b E Hle; try discriminate E; injection E as <-;
       first [lia | specialize (Hle _ eq_refl); lia]).
Qed.

Lemma get_int_param_bounds_witness :
  params.get_int_param (Some "500") (fun _ => Some 500) None false (Some 1)
    (Some 256) true = params.Value (Some 256)
  ∧ params.get_int_param (Some "500") (fun _ => Some 500) None false (Some 1)
      (Some 256) false = params.BadRequest.
Proof.
  destruct (get_int_param_bounds "500" (fun _ => Some 500) None false (Some 1)
              (Some 256) true) as (_ & H).
  destruct (H 500 eq_refl) as (Ht & _ & _).
  destruct (Ht eq_refl) as (v & Hv).
  split; [|reflexivity].
  rewrite Hv. vm_compute in Hv. injection Hv as <-. reflexivity.
Defined.

Lemma prune_files_removes_the_expired_witness :
  let r := cleanup.prune_files scenarios.stubborn_disk scenarios.s_swept in
  fst r = Ok 1%nat
  ∧ scenarios.upload 4 None "up/4" ∈ files (db (snd r))
  ∧ "up/1" ∈ disk (snd r).
Proof.
  destruct (prune_files_removes_the_expired scenarios.stubborn_disk
              scenarios.s_swept) as (H1 & _ & H3 & H4 & _).
  split; [exact H1|]. split.
  - apply H3.
    + apply (list_elem_of_lookup_2 _ 3%nat). reflexivity.
    + unfold cleanup.expired_by. simpl. tauto.
  - apply H4. split.
    + apply (list_elem_of_lookup_2 _ 0%nat). reflexivity.
    + right. reflexivity.
Defined.

Lemma get_file_returns_witness :
  ∃ r, get_file false [] 3 scenarios.s_swept = (Ok r, scenarios.s_swept)
       ∧ ∀ f, r = Some f -> f_id f = 3.
Proof.
  destruct (get_file_returns false [] 3 scenarios.s_swept)
    as (r & Hr & Hall).
  exists r. split; [exact Hr|]. intros f Hf.
  destruct (Hall f Hf) as (_ & _ & [[_ H]|[H _]]); [exact H|discriminate].
Defined.
